(** * Update and reconciliation core of the Lexical editor

    A shallow embedding of [packages/lexical/src/LexicalUpdates.ts] together
    with the parts of [LexicalEditor.ts] it relies on ([resetEditor],
    [LexicalEditor.read], [LexicalEditor.update]).

    The module-level bindings of [LexicalUpdates.ts], the editors, the editor
    states and the collections that the code shares by reference live in one
    [World]; every function of the source is a computation over that world
    that either returns, throws, or (for the model only) runs out of fuel.
    User callbacks (update functions, listeners, transforms, error handlers)
    are terms of a small [Script] language whose primitives call back into
    the public API, so that reentrancy is part of the model. *)

From stdpp Require Import base option list gmap strings.
From Stdlib Require Import Lia.

Open Scope string_scope.

(** ** Data model *)

Definition NodeKey := string.
Definition EditorId := nat.
Definition StateId := nat.
Definition Ref := nat.
Definition Command := nat.

(** [LexicalConstants.ts]: the three values of [_dirtyType: 0 | 1 | 2]. *)
Definition NO_DIRTY_NODES : nat := 0.
Definition HAS_DIRTY_NODES : nat := 1.
Definition FULL_RECONCILE : nat := 2.

(** Messages of the [invariant(false, ...)] calls of the source. *)
Inductive ErrorMessage :=
| MsgReadOnlyMode
| MsgInfiniteTransforms
| MsgNoActiveEditorState
| MsgNoActiveEditor
| MsgSelectionLost
| MsgDiscreteWithoutPending
| MsgTypeNotFound
| MsgNoImportJSON
| MsgNodeNotRegistered
| MsgUser (n : nat).

(** A JavaScript [throw] can carry any value; the handlers of the source
    test [error instanceof Error] before they report. *)
Inductive Thrown :=
| ErrorObject (msg : ErrorMessage)
| NonError (v : nat).

Definition instanceofError (t : Thrown) : option ErrorMessage :=
  match t with
  | ErrorObject m => Some m
  | NonError _ => None
  end.

(** Nodes are owned by the node classes; the update core only looks at the
    type name, the parent link and a few class predicates.  A node is
    known by the key it has in the node map, so [node.__key] is that key. *)
Record LexicalNode := mkNode {
  __type : string;
  __parent : option NodeKey;
  isElementNode : bool;
  isTextNode : bool;
  isSimpleText : bool;
  isUnmergeable : bool;
  attached : bool
}.

Inductive BaseSelection :=
| RangeSelection (anchorKey focusKey : NodeKey) (dirty : bool)
| NodeSelection (_nodes : list NodeKey) (dirty : bool)
| OtherSelection (dirty : bool).

Definition isRangeSelection (s : option BaseSelection) : bool :=
  match s with Some (RangeSelection _ _ _) => true | _ => false end.

Definition isNodeSelection (s : option BaseSelection) : bool :=
  match s with Some (NodeSelection _ _) => true | _ => false end.

Definition selection_dirty (s : BaseSelection) : bool :=
  match s with
  | RangeSelection _ _ d => d
  | NodeSelection _ d => d
  | OtherSelection d => d
  end.

Global Instance BaseSelection_eq_dec : EqDecision BaseSelection.
Proof. solve_decision. Defined.

(** [currentSelection.is(pendingSelection)]. *)
Definition selection_is (a b : BaseSelection) : bool := bool_decide (a = b).

(** User code.  A script evaluates to the truthiness of what the callback
    returns ([SReturn]); every other primitive returns [undefined]. *)
(** [tag?: UpdateTag | UpdateTag[]] of the update options, when it is
    given: one tag or an array of tags. *)
Inductive UpdateTags :=
| OneTag (tag : string)
| ManyTags (tags : list string).

Inductive Script :=
| SSkip
| SSeq (a b : Script)
| SEmit (n : nat)
| SThrow (t : Thrown)
| SReturn (b : bool)
| SUpdate (editor : EditorId) (updateFn : Script) (options : option EditorUpdateOptions)
| SRead (editor : EditorId) (callbackFn : Script)
| SDispatchCommand (editor : EditorId) (type : Command)
| SMarkDirty (key : NodeKey)
| SRemoveNode (key : NodeKey)
| SSetSelection (sel : option BaseSelection)
| SSetCompositionKey (key : option NodeKey)
with EditorUpdateOptions :=
| mkOptions (onUpdate : option Script) (skipTransforms : bool)
            (tag : option UpdateTags) (discrete : bool).

Definition onUpdate (o : EditorUpdateOptions) : option Script :=
  match o with mkOptions u _ _ _ => u end.
Definition skipTransforms (o : EditorUpdateOptions) : bool :=
  match o with mkOptions _ s _ _ => s end.
Definition tag (o : EditorUpdateOptions) : option UpdateTags :=
  match o with mkOptions _ _ t _ => t end.
Definition discrete (o : EditorUpdateOptions) : bool :=
  match o with mkOptions _ _ _ d => d end.

(** What [$beginUpdate] can be handed as [updateFn]: a user callback, or the
    closure that [triggerCommandListeners] builds around a snapshot of a
    listener set.  [returnVal] is the cell that holds the closure's captured
    [let returnVal = false]. *)
Inductive UpdateFn :=
| UserFn (s : Script)
| CommandFn (returnVal : nat) (listeners : list Script)
            (currentEditor : EditorId) (type : Command) (priority : nat).

Record RegisteredNode := mkRegisteredNode {
  klass_getType : string;
  transforms : list (NodeKey -> Script)
}.

(** [SerializedLexicalNode], with the key its imported node will get. *)
#[local] Set Warnings "-register-all".
Inductive SerializedLexicalNode :=
| mkSerialized (type : string) (key : NodeKey)
               (children : option (list SerializedLexicalNode)).

Record Listeners := mkListeners {
  decorator : list Script;
  editable : list Script;
  mutation : list (Script * list string);
  root : list Script;
  textcontent : list Script;
  update : list Script
}.

Inductive ListenerType := LDecorator | LEditable | LRoot | LTextContent | LUpdate.

Definition listeners_of (t : ListenerType) (l : Listeners) : list Script :=
  match t with
  | LDecorator => decorator l
  | LEditable => editable l
  | LRoot => root l
  | LTextContent => textcontent l
  | LUpdate => update l
  end.

(** [MutatedNodes]: the node classes (by type name) that the renderer
    reports as mutated. *)
Definition MutatedNodes := list string.

Inductive ReconcileOutcome :=
| Reconciled (mutatedNodes : MutatedNodes)
| ReconcileThrows (t : Thrown).

(** What the collaborators are seen to do.  [EvOnError] is the call of the
    error sink,
    [EvReconcile] the renderer; the remaining events record which callback
    the core invoked, in order. *)
Inductive Event :=
| EvEmit (n : nat)
| EvOnError (editor : EditorId) (msg : ErrorMessage)
| EvReconcile (editor : EditorId) (prev next : StateId) (dirtyType : nat)
              (dirtyElements : list (NodeKey * bool)) (dirtyLeaves : list NodeKey)
| EvResetEditor (editor : EditorId)
| EvCommit (editor : EditorId) (recoveryEditorState : option StateId)
| EvTransform (editor : EditorId) (key : NodeKey) (index : nat)
| EvNormalizeText (key : NodeKey)
| EvUpdateFn (editor : EditorId)
| EvListener (type : ListenerType) (editor : EditorId) (index : nat)
| EvMutationListener (editor : EditorId) (index : nat) (klass : string)
| EvCommandListener (editor : EditorId) (type : Command) (priority index : nat)
| EvDeferred (editor : EditorId) (index : nat)
| EvUpdateDOMSelection (editor : EditorId)
| EvScheduleMicroTask (editor : EditorId).

Record EditorState := mkEditorState {
  _nodeMap : gmap NodeKey LexicalNode;
  _selection : option BaseSelection;
  _flushSync : bool;
  _readOnly : bool
}.

Definition set_nodeMap (v : gmap NodeKey LexicalNode) (s : EditorState) : EditorState :=
  {| _nodeMap := v; _selection := _selection s; _flushSync := _flushSync s; _readOnly := _readOnly s |}.
Definition set_selection (v : option BaseSelection) (s : EditorState) : EditorState :=
  {| _nodeMap := _nodeMap s; _selection := v; _flushSync := _flushSync s; _readOnly := _readOnly s |}.
Definition set_flushSync (v : bool) (s : EditorState) : EditorState :=
  {| _nodeMap := _nodeMap s; _selection := _selection s; _flushSync := v; _readOnly := _readOnly s |}.
Definition set_readOnly (v : bool) (s : EditorState) : EditorState :=
  {| _nodeMap := _nodeMap s; _selection := _selection s; _flushSync := _flushSync s; _readOnly := v |}.

Record LexicalEditor := mkLexicalEditor {
  _headless : bool;
  _parentEditor : option EditorId;
  _rootElement : option nat;
  _editorState : StateId;
  _pendingEditorState : option StateId;
  _compositionKey : option NodeKey;
  _deferred : Ref;
  _keyToDOMMap : gmap NodeKey nat;
  _updates : Ref;
  _updating : bool;
  _listeners : Listeners;
  _commands : gmap Command (list (list Script));
  _nodes : gmap string RegisteredNode;
  _decorators : nat;
  _pendingDecorators : option nat;
  _dirtyType : nat;
  _cloneNotNeeded : list NodeKey;
  _dirtyLeaves : Ref;
  _dirtyElements : Ref;
  _normalizedNodes : list NodeKey;
  _updateTags : Ref;
  _observer : option nat;
  _editable : bool;
  _blockCursorElement : option nat
}.

Definition set_headless (v : bool) (e : LexicalEditor) : LexicalEditor :=
  {| _headless := v; _parentEditor := _parentEditor e; _rootElement := _rootElement e; _editorState := _editorState e; _pendingEditorState := _pendingEditorState e; _compositionKey := _compositionKey e; _deferred := _deferred e; _keyToDOMMap := _keyToDOMMap e; _updates := _updates e; _updating := _updating e; _listeners := _listeners e; _commands := _commands e; _nodes := _nodes e; _decorators := _decorators e; _pendingDecorators := _pendingDecorators e; _dirtyType := _dirtyType e; _cloneNotNeeded := _cloneNotNeeded e; _dirtyLeaves := _dirtyLeaves e; _dirtyElements := _dirtyElements e; _normalizedNodes := _normalizedNodes e; _updateTags := _updateTags e; _observer := _observer e; _editable := _editable e; _blockCursorElement := _blockCursorElement e |}.
Definition set_parentEditor (v : option EditorId) (e : LexicalEditor) : LexicalEditor :=
  {| _headless := _headless e; _parentEditor := v; _rootElement := _rootElement e; _editorState := _editorState e; _pendingEditorState := _pendingEditorState e; _compositionKey := _compositionKey e; _deferred := _deferred e; _keyToDOMMap := _keyToDOMMap e; _updates := _updates e; _updating := _updating e; _listeners := _listeners e; _commands := _commands e; _nodes := _nodes e; _decorators := _decorators e; _pendingDecorators := _pendingDecorators e; _dirtyType := _dirtyType e; _cloneNotNeeded := _cloneNotNeeded e; _dirtyLeaves := _dirtyLeaves e; _dirtyElements := _dirtyElements e; _normalizedNodes := _normalizedNodes e; _updateTags := _updateTags e; _observer := _observer e; _editable := _editable e; _blockCursorElement := _blockCursorElement e |}.
Definition set_rootElement (v : option nat) (e : LexicalEditor) : LexicalEditor :=
  {| _headless := _headless e; _parentEditor := _parentEditor e; _rootElement := v; _editorState := _editorState e; _pendingEditorState := _pendingEditorState e; _compositionKey := _compositionKey e; _deferred := _deferred e; _keyToDOMMap := _keyToDOMMap e; _updates := _updates e; _updating := _updating e; _listeners := _listeners e; _commands := _commands e; _nodes := _nodes e; _decorators := _decorators e; _pendingDecorators := _pendingDecorators e; _dirtyType := _dirtyType e; _cloneNotNeeded := _cloneNotNeeded e; _dirtyLeaves := _dirtyLeaves e; _dirtyElements := _dirtyElements e; _normalizedNodes := _normalizedNodes e; _updateTags := _updateTags e; _observer := _observer e; _editable := _editable e; _blockCursorElement := _blockCursorElement e |}.
Definition set_editorState (v : StateId) (e : LexicalEditor) : LexicalEditor :=
  {| _headless := _headless e; _parentEditor := _parentEditor e; _rootElement := _rootElement e; _editorState := v; _pendingEditorState := _pendingEditorState e; _compositionKey := _compositionKey e; _deferred := _deferred e; _keyToDOMMap := _keyToDOMMap e; _updates := _updates e; _updating := _updating e; _listeners := _listeners e; _commands := _commands e; _nodes := _nodes e; _decorators := _decorators e; _pendingDecorators := _pendingDecorators e; _dirtyType := _dirtyType e; _cloneNotNeeded := _cloneNotNeeded e; _dirtyLeaves := _dirtyLeaves e; _dirtyElements := _dirtyElements e; _normalizedNodes := _normalizedNodes e; _updateTags := _updateTags e; _observer := _observer e; _editable := _editable e; _blockCursorElement := _blockCursorElement e |}.
Definition set_pendingEditorState (v : option StateId) (e : LexicalEditor) : LexicalEditor :=
  {| _headless := _headless e; _parentEditor := _parentEditor e; _rootElement := _rootElement e; _editorState := _editorState e; _pendingEditorState := v; _compositionKey := _compositionKey e; _deferred := _deferred e; _keyToDOMMap := _keyToDOMMap e; _updates := _updates e; _updating := _updating e; _listeners := _listeners e; _commands := _commands e; _nodes := _nodes e; _decorators := _decorators e; _pendingDecorators := _pendingDecorators e; _dirtyType := _dirtyType e; _cloneNotNeeded := _cloneNotNeeded e; _dirtyLeaves := _dirtyLeaves e; _dirtyElements := _dirtyElements e; _normalizedNodes := _normalizedNodes e; _updateTags := _updateTags e; _observer := _observer e; _editable := _editable e; _blockCursorElement := _blockCursorElement e |}.
Definition set_compositionKey (v : option NodeKey) (e : LexicalEditor) : LexicalEditor :=
  {| _headless := _headless e; _parentEditor := _parentEditor e; _rootElement := _rootElement e; _editorState := _editorState e; _pendingEditorState := _pendingEditorState e; _compositionKey := v; _deferred := _deferred e; _keyToDOMMap := _keyToDOMMap e; _updates := _updates e; _updating := _updating e; _listeners := _listeners e; _commands := _commands e; _nodes := _nodes e; _decorators := _decorators e; _pendingDecorators := _pendingDecorators e; _dirtyType := _dirtyType e; _cloneNotNeeded := _cloneNotNeeded e; _dirtyLeaves := _dirtyLeaves e; _dirtyElements := _dirtyElements e; _normalizedNodes := _normalizedNodes e; _updateTags := _updateTags e; _observer := _observer e; _editable := _editable e; _blockCursorElement := _blockCursorElement e |}.
Definition set_deferred (v : Ref) (e : LexicalEditor) : LexicalEditor :=
  {| _headless := _headless e; _parentEditor := _parentEditor e; _rootElement := _rootElement e; _editorState := _editorState e; _pendingEditorState := _pendingEditorState e; _compositionKey := _compositionKey e; _deferred := v; _keyToDOMMap := _keyToDOMMap e; _updates := _updates e; _updating := _updating e; _listeners := _listeners e; _commands := _commands e; _nodes := _nodes e; _decorators := _decorators e; _pendingDecorators := _pendingDecorators e; _dirtyType := _dirtyType e; _cloneNotNeeded := _cloneNotNeeded e; _dirtyLeaves := _dirtyLeaves e; _dirtyElements := _dirtyElements e; _normalizedNodes := _normalizedNodes e; _updateTags := _updateTags e; _observer := _observer e; _editable := _editable e; _blockCursorElement := _blockCursorElement e |}.
Definition set_keyToDOMMap (v : gmap NodeKey nat) (e : LexicalEditor) : LexicalEditor :=
  {| _headless := _headless e; _parentEditor := _parentEditor e; _rootElement := _rootElement e; _editorState := _editorState e; _pendingEditorState := _pendingEditorState e; _compositionKey := _compositionKey e; _deferred := _deferred e; _keyToDOMMap := v; _updates := _updates e; _updating := _updating e; _listeners := _listeners e; _commands := _commands e; _nodes := _nodes e; _decorators := _decorators e; _pendingDecorators := _pendingDecorators e; _dirtyType := _dirtyType e; _cloneNotNeeded := _cloneNotNeeded e; _dirtyLeaves := _dirtyLeaves e; _dirtyElements := _dirtyElements e; _normalizedNodes := _normalizedNodes e; _updateTags := _updateTags e; _observer := _observer e; _editable := _editable e; _blockCursorElement := _blockCursorElement e |}.
Definition set_updates (v : Ref) (e : LexicalEditor) : LexicalEditor :=
  {| _headless := _headless e; _parentEditor := _parentEditor e; _rootElement := _rootElement e; _editorState := _editorState e; _pendingEditorState := _pendingEditorState e; _compositionKey := _compositionKey e; _deferred := _deferred e; _keyToDOMMap := _keyToDOMMap e; _updates := v; _updating := _updating e; _listeners := _listeners e; _commands := _commands e; _nodes := _nodes e; _decorators := _decorators e; _pendingDecorators := _pendingDecorators e; _dirtyType := _dirtyType e; _cloneNotNeeded := _cloneNotNeeded e; _dirtyLeaves := _dirtyLeaves e; _dirtyElements := _dirtyElements e; _normalizedNodes := _normalizedNodes e; _updateTags := _updateTags e; _observer := _observer e; _editable := _editable e; _blockCursorElement := _blockCursorElement e |}.
Definition set_updating (v : bool) (e : LexicalEditor) : LexicalEditor :=
  {| _headless := _headless e; _parentEditor := _parentEditor e; _rootElement := _rootElement e; _editorState := _editorState e; _pendingEditorState := _pendingEditorState e; _compositionKey := _compositionKey e; _deferred := _deferred e; _keyToDOMMap := _keyToDOMMap e; _updates := _updates e; _updating := v; _listeners := _listeners e; _commands := _commands e; _nodes := _nodes e; _decorators := _decorators e; _pendingDecorators := _pendingDecorators e; _dirtyType := _dirtyType e; _cloneNotNeeded := _cloneNotNeeded e; _dirtyLeaves := _dirtyLeaves e; _dirtyElements := _dirtyElements e; _normalizedNodes := _normalizedNodes e; _updateTags := _updateTags e; _observer := _observer e; _editable := _editable e; _blockCursorElement := _blockCursorElement e |}.
Definition set_listeners (v : Listeners) (e : LexicalEditor) : LexicalEditor :=
  {| _headless := _headless e; _parentEditor := _parentEditor e; _rootElement := _rootElement e; _editorState := _editorState e; _pendingEditorState := _pendingEditorState e; _compositionKey := _compositionKey e; _deferred := _deferred e; _keyToDOMMap := _keyToDOMMap e; _updates := _updates e; _updating := _updating e; _listeners := v; _commands := _commands e; _nodes := _nodes e; _decorators := _decorators e; _pendingDecorators := _pendingDecorators e; _dirtyType := _dirtyType e; _cloneNotNeeded := _cloneNotNeeded e; _dirtyLeaves := _dirtyLeaves e; _dirtyElements := _dirtyElements e; _normalizedNodes := _normalizedNodes e; _updateTags := _updateTags e; _observer := _observer e; _editable := _editable e; _blockCursorElement := _blockCursorElement e |}.
Definition set_commands (v : gmap Command (list (list Script))) (e : LexicalEditor) : LexicalEditor :=
  {| _headless := _headless e; _parentEditor := _parentEditor e; _rootElement := _rootElement e; _editorState := _editorState e; _pendingEditorState := _pendingEditorState e; _compositionKey := _compositionKey e; _deferred := _deferred e; _keyToDOMMap := _keyToDOMMap e; _updates := _updates e; _updating := _updating e; _listeners := _listeners e; _commands := v; _nodes := _nodes e; _decorators := _decorators e; _pendingDecorators := _pendingDecorators e; _dirtyType := _dirtyType e; _cloneNotNeeded := _cloneNotNeeded e; _dirtyLeaves := _dirtyLeaves e; _dirtyElements := _dirtyElements e; _normalizedNodes := _normalizedNodes e; _updateTags := _updateTags e; _observer := _observer e; _editable := _editable e; _blockCursorElement := _blockCursorElement e |}.
Definition set_nodes (v : gmap string RegisteredNode) (e : LexicalEditor) : LexicalEditor :=
  {| _headless := _headless e; _parentEditor := _parentEditor e; _rootElement := _rootElement e; _editorState := _editorState e; _pendingEditorState := _pendingEditorState e; _compositionKey := _compositionKey e; _deferred := _deferred e; _keyToDOMMap := _keyToDOMMap e; _updates := _updates e; _updating := _updating e; _listeners := _listeners e; _commands := _commands e; _nodes := v; _decorators := _decorators e; _pendingDecorators := _pendingDecorators e; _dirtyType := _dirtyType e; _cloneNotNeeded := _cloneNotNeeded e; _dirtyLeaves := _dirtyLeaves e; _dirtyElements := _dirtyElements e; _normalizedNodes := _normalizedNodes e; _updateTags := _updateTags e; _observer := _observer e; _editable := _editable e; _blockCursorElement := _blockCursorElement e |}.
Definition set_decorators (v : nat) (e : LexicalEditor) : LexicalEditor :=
  {| _headless := _headless e; _parentEditor := _parentEditor e; _rootElement := _rootElement e; _editorState := _editorState e; _pendingEditorState := _pendingEditorState e; _compositionKey := _compositionKey e; _deferred := _deferred e; _keyToDOMMap := _keyToDOMMap e; _updates := _updates e; _updating := _updating e; _listeners := _listeners e; _commands := _commands e; _nodes := _nodes e; _decorators := v; _pendingDecorators := _pendingDecorators e; _dirtyType := _dirtyType e; _cloneNotNeeded := _cloneNotNeeded e; _dirtyLeaves := _dirtyLeaves e; _dirtyElements := _dirtyElements e; _normalizedNodes := _normalizedNodes e; _updateTags := _updateTags e; _observer := _observer e; _editable := _editable e; _blockCursorElement := _blockCursorElement e |}.
Definition set_pendingDecorators (v : option nat) (e : LexicalEditor) : LexicalEditor :=
  {| _headless := _headless e; _parentEditor := _parentEditor e; _rootElement := _rootElement e; _editorState := _editorState e; _pendingEditorState := _pendingEditorState e; _compositionKey := _compositionKey e; _deferred := _deferred e; _keyToDOMMap := _keyToDOMMap e; _updates := _updates e; _updating := _updating e; _listeners := _listeners e; _commands := _commands e; _nodes := _nodes e; _decorators := _decorators e; _pendingDecorators := v; _dirtyType := _dirtyType e; _cloneNotNeeded := _cloneNotNeeded e; _dirtyLeaves := _dirtyLeaves e; _dirtyElements := _dirtyElements e; _normalizedNodes := _normalizedNodes e; _updateTags := _updateTags e; _observer := _observer e; _editable := _editable e; _blockCursorElement := _blockCursorElement e |}.
Definition set_dirtyType (v : nat) (e : LexicalEditor) : LexicalEditor :=
  {| _headless := _headless e; _parentEditor := _parentEditor e; _rootElement := _rootElement e; _editorState := _editorState e; _pendingEditorState := _pendingEditorState e; _compositionKey := _compositionKey e; _deferred := _deferred e; _keyToDOMMap := _keyToDOMMap e; _updates := _updates e; _updating := _updating e; _listeners := _listeners e; _commands := _commands e; _nodes := _nodes e; _decorators := _decorators e; _pendingDecorators := _pendingDecorators e; _dirtyType := v; _cloneNotNeeded := _cloneNotNeeded e; _dirtyLeaves := _dirtyLeaves e; _dirtyElements := _dirtyElements e; _normalizedNodes := _normalizedNodes e; _updateTags := _updateTags e; _observer := _observer e; _editable := _editable e; _blockCursorElement := _blockCursorElement e |}.
Definition set_cloneNotNeeded (v : list NodeKey) (e : LexicalEditor) : LexicalEditor :=
  {| _headless := _headless e; _parentEditor := _parentEditor e; _rootElement := _rootElement e; _editorState := _editorState e; _pendingEditorState := _pendingEditorState e; _compositionKey := _compositionKey e; _deferred := _deferred e; _keyToDOMMap := _keyToDOMMap e; _updates := _updates e; _updating := _updating e; _listeners := _listeners e; _commands := _commands e; _nodes := _nodes e; _decorators := _decorators e; _pendingDecorators := _pendingDecorators e; _dirtyType := _dirtyType e; _cloneNotNeeded := v; _dirtyLeaves := _dirtyLeaves e; _dirtyElements := _dirtyElements e; _normalizedNodes := _normalizedNodes e; _updateTags := _updateTags e; _observer := _observer e; _editable := _editable e; _blockCursorElement := _blockCursorElement e |}.
Definition set_dirtyLeaves (v : Ref) (e : LexicalEditor) : LexicalEditor :=
  {| _headless := _headless e; _parentEditor := _parentEditor e; _rootElement := _rootElement e; _editorState := _editorState e; _pendingEditorState := _pendingEditorState e; _compositionKey := _compositionKey e; _deferred := _deferred e; _keyToDOMMap := _keyToDOMMap e; _updates := _updates e; _updating := _updating e; _listeners := _listeners e; _commands := _commands e; _nodes := _nodes e; _decorators := _decorators e; _pendingDecorators := _pendingDecorators e; _dirtyType := _dirtyType e; _cloneNotNeeded := _cloneNotNeeded e; _dirtyLeaves := v; _dirtyElements := _dirtyElements e; _normalizedNodes := _normalizedNodes e; _updateTags := _updateTags e; _observer := _observer e; _editable := _editable e; _blockCursorElement := _blockCursorElement e |}.
Definition set_dirtyElements (v : Ref) (e : LexicalEditor) : LexicalEditor :=
  {| _headless := _headless e; _parentEditor := _parentEditor e; _rootElement := _rootElement e; _editorState := _editorState e; _pendingEditorState := _pendingEditorState e; _compositionKey := _compositionKey e; _deferred := _deferred e; _keyToDOMMap := _keyToDOMMap e; _updates := _updates e; _updating := _updating e; _listeners := _listeners e; _commands := _commands e; _nodes := _nodes e; _decorators := _decorators e; _pendingDecorators := _pendingDecorators e; _dirtyType := _dirtyType e; _cloneNotNeeded := _cloneNotNeeded e; _dirtyLeaves := _dirtyLeaves e; _dirtyElements := v; _normalizedNodes := _normalizedNodes e; _updateTags := _updateTags e; _observer := _observer e; _editable := _editable e; _blockCursorElement := _blockCursorElement e |}.
Definition set_normalizedNodes (v : list NodeKey) (e : LexicalEditor) : LexicalEditor :=
  {| _headless := _headless e; _parentEditor := _parentEditor e; _rootElement := _rootElement e; _editorState := _editorState e; _pendingEditorState := _pendingEditorState e; _compositionKey := _compositionKey e; _deferred := _deferred e; _keyToDOMMap := _keyToDOMMap e; _updates := _updates e; _updating := _updating e; _listeners := _listeners e; _commands := _commands e; _nodes := _nodes e; _decorators := _decorators e; _pendingDecorators := _pendingDecorators e; _dirtyType := _dirtyType e; _cloneNotNeeded := _cloneNotNeeded e; _dirtyLeaves := _dirtyLeaves e; _dirtyElements := _dirtyElements e; _normalizedNodes := v; _updateTags := _updateTags e; _observer := _observer e; _editable := _editable e; _blockCursorElement := _blockCursorElement e |}.
Definition set_updateTags (v : Ref) (e : LexicalEditor) : LexicalEditor :=
  {| _headless := _headless e; _parentEditor := _parentEditor e; _rootElement := _rootElement e; _editorState := _editorState e; _pendingEditorState := _pendingEditorState e; _compositionKey := _compositionKey e; _deferred := _deferred e; _keyToDOMMap := _keyToDOMMap e; _updates := _updates e; _updating := _updating e; _listeners := _listeners e; _commands := _commands e; _nodes := _nodes e; _decorators := _decorators e; _pendingDecorators := _pendingDecorators e; _dirtyType := _dirtyType e; _cloneNotNeeded := _cloneNotNeeded e; _dirtyLeaves := _dirtyLeaves e; _dirtyElements := _dirtyElements e; _normalizedNodes := _normalizedNodes e; _updateTags := v; _observer := _observer e; _editable := _editable e; _blockCursorElement := _blockCursorElement e |}.
Definition set_observer (v : option nat) (e : LexicalEditor) : LexicalEditor :=
  {| _headless := _headless e; _parentEditor := _parentEditor e; _rootElement := _rootElement e; _editorState := _editorState e; _pendingEditorState := _pendingEditorState e; _compositionKey := _compositionKey e; _deferred := _deferred e; _keyToDOMMap := _keyToDOMMap e; _updates := _updates e; _updating := _updating e; _listeners := _listeners e; _commands := _commands e; _nodes := _nodes e; _decorators := _decorators e; _pendingDecorators := _pendingDecorators e; _dirtyType := _dirtyType e; _cloneNotNeeded := _cloneNotNeeded e; _dirtyLeaves := _dirtyLeaves e; _dirtyElements := _dirtyElements e; _normalizedNodes := _normalizedNodes e; _updateTags := _updateTags e; _observer := v; _editable := _editable e; _blockCursorElement := _blockCursorElement e |}.
Definition set_editable (v : bool) (e : LexicalEditor) : LexicalEditor :=
  {| _headless := _headless e; _parentEditor := _parentEditor e; _rootElement := _rootElement e; _editorState := _editorState e; _pendingEditorState := _pendingEditorState e; _compositionKey := _compositionKey e; _deferred := _deferred e; _keyToDOMMap := _keyToDOMMap e; _updates := _updates e; _updating := _updating e; _listeners := _listeners e; _commands := _commands e; _nodes := _nodes e; _decorators := _decorators e; _pendingDecorators := _pendingDecorators e; _dirtyType := _dirtyType e; _cloneNotNeeded := _cloneNotNeeded e; _dirtyLeaves := _dirtyLeaves e; _dirtyElements := _dirtyElements e; _normalizedNodes := _normalizedNodes e; _updateTags := _updateTags e; _observer := _observer e; _editable := v; _blockCursorElement := _blockCursorElement e |}.
Definition set_blockCursorElement (v : option nat) (e : LexicalEditor) : LexicalEditor :=
  {| _headless := _headless e; _parentEditor := _parentEditor e; _rootElement := _rootElement e; _editorState := _editorState e; _pendingEditorState := _pendingEditorState e; _compositionKey := _compositionKey e; _deferred := _deferred e; _keyToDOMMap := _keyToDOMMap e; _updates := _updates e; _updating := _updating e; _listeners := _listeners e; _commands := _commands e; _nodes := _nodes e; _decorators := _decorators e; _pendingDecorators := _pendingDecorators e; _dirtyType := _dirtyType e; _cloneNotNeeded := _cloneNotNeeded e; _dirtyLeaves := _dirtyLeaves e; _dirtyElements := _dirtyElements e; _normalizedNodes := _normalizedNodes e; _updateTags := _updateTags e; _observer := _observer e; _editable := _editable e; _blockCursorElement := v |}.

Record World := mkWorld {
  activeEditorState : option StateId;
  activeEditor : option EditorId;
  isReadOnlyMode : bool;
  isAttemptingToRecoverFromReconcilerError : bool;
  infiniteTransformCount : nat;
  editors : EditorId -> LexicalEditor;
  editorCount : nat;
  states : StateId -> EditorState;
  nextState : StateId;
  leafSets : Ref -> list NodeKey;
  elementMaps : Ref -> list (NodeKey * bool);
  updateQueues : Ref -> list (UpdateFn * option EditorUpdateOptions);
  deferredArrays : Ref -> list Script;
  tagSets : Ref -> list string;
  nextRef : Ref;
  cells : nat -> bool;
  nextCell : nat;
  reconciler : list ReconcileOutcome;
  microtasks : list EditorId;
  trace : list Event
}.

Definition set_activeEditorState (v : option StateId) (w : World) : World :=
  {| activeEditorState := v; activeEditor := activeEditor w; isReadOnlyMode := isReadOnlyMode w; isAttemptingToRecoverFromReconcilerError := isAttemptingToRecoverFromReconcilerError w; infiniteTransformCount := infiniteTransformCount w; editors := editors w; editorCount := editorCount w; states := states w; nextState := nextState w; leafSets := leafSets w; elementMaps := elementMaps w; updateQueues := updateQueues w; deferredArrays := deferredArrays w; tagSets := tagSets w; nextRef := nextRef w; cells := cells w; nextCell := nextCell w; reconciler := reconciler w; microtasks := microtasks w; trace := trace w |}.
Definition set_activeEditor (v : option EditorId) (w : World) : World :=
  {| activeEditorState := activeEditorState w; activeEditor := v; isReadOnlyMode := isReadOnlyMode w; isAttemptingToRecoverFromReconcilerError := isAttemptingToRecoverFromReconcilerError w; infiniteTransformCount := infiniteTransformCount w; editors := editors w; editorCount := editorCount w; states := states w; nextState := nextState w; leafSets := leafSets w; elementMaps := elementMaps w; updateQueues := updateQueues w; deferredArrays := deferredArrays w; tagSets := tagSets w; nextRef := nextRef w; cells := cells w; nextCell := nextCell w; reconciler := reconciler w; microtasks := microtasks w; trace := trace w |}.
Definition set_isReadOnlyMode (v : bool) (w : World) : World :=
  {| activeEditorState := activeEditorState w; activeEditor := activeEditor w; isReadOnlyMode := v; isAttemptingToRecoverFromReconcilerError := isAttemptingToRecoverFromReconcilerError w; infiniteTransformCount := infiniteTransformCount w; editors := editors w; editorCount := editorCount w; states := states w; nextState := nextState w; leafSets := leafSets w; elementMaps := elementMaps w; updateQueues := updateQueues w; deferredArrays := deferredArrays w; tagSets := tagSets w; nextRef := nextRef w; cells := cells w; nextCell := nextCell w; reconciler := reconciler w; microtasks := microtasks w; trace := trace w |}.
Definition set_isAttemptingToRecoverFromReconcilerError (v : bool) (w : World) : World :=
  {| activeEditorState := activeEditorState w; activeEditor := activeEditor w; isReadOnlyMode := isReadOnlyMode w; isAttemptingToRecoverFromReconcilerError := v; infiniteTransformCount := infiniteTransformCount w; editors := editors w; editorCount := editorCount w; states := states w; nextState := nextState w; leafSets := leafSets w; elementMaps := elementMaps w; updateQueues := updateQueues w; deferredArrays := deferredArrays w; tagSets := tagSets w; nextRef := nextRef w; cells := cells w; nextCell := nextCell w; reconciler := reconciler w; microtasks := microtasks w; trace := trace w |}.
Definition set_infiniteTransformCount (v : nat) (w : World) : World :=
  {| activeEditorState := activeEditorState w; activeEditor := activeEditor w; isReadOnlyMode := isReadOnlyMode w; isAttemptingToRecoverFromReconcilerError := isAttemptingToRecoverFromReconcilerError w; infiniteTransformCount := v; editors := editors w; editorCount := editorCount w; states := states w; nextState := nextState w; leafSets := leafSets w; elementMaps := elementMaps w; updateQueues := updateQueues w; deferredArrays := deferredArrays w; tagSets := tagSets w; nextRef := nextRef w; cells := cells w; nextCell := nextCell w; reconciler := reconciler w; microtasks := microtasks w; trace := trace w |}.
Definition set_editors (v : EditorId -> LexicalEditor) (w : World) : World :=
  {| activeEditorState := activeEditorState w; activeEditor := activeEditor w; isReadOnlyMode := isReadOnlyMode w; isAttemptingToRecoverFromReconcilerError := isAttemptingToRecoverFromReconcilerError w; infiniteTransformCount := infiniteTransformCount w; editors := v; editorCount := editorCount w; states := states w; nextState := nextState w; leafSets := leafSets w; elementMaps := elementMaps w; updateQueues := updateQueues w; deferredArrays := deferredArrays w; tagSets := tagSets w; nextRef := nextRef w; cells := cells w; nextCell := nextCell w; reconciler := reconciler w; microtasks := microtasks w; trace := trace w |}.
Definition set_editorCount (v : nat) (w : World) : World :=
  {| activeEditorState := activeEditorState w; activeEditor := activeEditor w; isReadOnlyMode := isReadOnlyMode w; isAttemptingToRecoverFromReconcilerError := isAttemptingToRecoverFromReconcilerError w; infiniteTransformCount := infiniteTransformCount w; editors := editors w; editorCount := v; states := states w; nextState := nextState w; leafSets := leafSets w; elementMaps := elementMaps w; updateQueues := updateQueues w; deferredArrays := deferredArrays w; tagSets := tagSets w; nextRef := nextRef w; cells := cells w; nextCell := nextCell w; reconciler := reconciler w; microtasks := microtasks w; trace := trace w |}.
Definition set_states (v : StateId -> EditorState) (w : World) : World :=
  {| activeEditorState := activeEditorState w; activeEditor := activeEditor w; isReadOnlyMode := isReadOnlyMode w; isAttemptingToRecoverFromReconcilerError := isAttemptingToRecoverFromReconcilerError w; infiniteTransformCount := infiniteTransformCount w; editors := editors w; editorCount := editorCount w; states := v; nextState := nextState w; leafSets := leafSets w; elementMaps := elementMaps w; updateQueues := updateQueues w; deferredArrays := deferredArrays w; tagSets := tagSets w; nextRef := nextRef w; cells := cells w; nextCell := nextCell w; reconciler := reconciler w; microtasks := microtasks w; trace := trace w |}.
Definition set_nextState (v : StateId) (w : World) : World :=
  {| activeEditorState := activeEditorState w; activeEditor := activeEditor w; isReadOnlyMode := isReadOnlyMode w; isAttemptingToRecoverFromReconcilerError := isAttemptingToRecoverFromReconcilerError w; infiniteTransformCount := infiniteTransformCount w; editors := editors w; editorCount := editorCount w; states := states w; nextState := v; leafSets := leafSets w; elementMaps := elementMaps w; updateQueues := updateQueues w; deferredArrays := deferredArrays w; tagSets := tagSets w; nextRef := nextRef w; cells := cells w; nextCell := nextCell w; reconciler := reconciler w; microtasks := microtasks w; trace := trace w |}.
Definition set_leafSets (v : Ref -> list NodeKey) (w : World) : World :=
  {| activeEditorState := activeEditorState w; activeEditor := activeEditor w; isReadOnlyMode := isReadOnlyMode w; isAttemptingToRecoverFromReconcilerError := isAttemptingToRecoverFromReconcilerError w; infiniteTransformCount := infiniteTransformCount w; editors := editors w; editorCount := editorCount w; states := states w; nextState := nextState w; leafSets := v; elementMaps := elementMaps w; updateQueues := updateQueues w; deferredArrays := deferredArrays w; tagSets := tagSets w; nextRef := nextRef w; cells := cells w; nextCell := nextCell w; reconciler := reconciler w; microtasks := microtasks w; trace := trace w |}.
Definition set_elementMaps (v : Ref -> list (NodeKey * bool)) (w : World) : World :=
  {| activeEditorState := activeEditorState w; activeEditor := activeEditor w; isReadOnlyMode := isReadOnlyMode w; isAttemptingToRecoverFromReconcilerError := isAttemptingToRecoverFromReconcilerError w; infiniteTransformCount := infiniteTransformCount w; editors := editors w; editorCount := editorCount w; states := states w; nextState := nextState w; leafSets := leafSets w; elementMaps := v; updateQueues := updateQueues w; deferredArrays := deferredArrays w; tagSets := tagSets w; nextRef := nextRef w; cells := cells w; nextCell := nextCell w; reconciler := reconciler w; microtasks := microtasks w; trace := trace w |}.
Definition set_updateQueues (v : Ref -> list (UpdateFn * option EditorUpdateOptions)) (w : World) : World :=
  {| activeEditorState := activeEditorState w; activeEditor := activeEditor w; isReadOnlyMode := isReadOnlyMode w; isAttemptingToRecoverFromReconcilerError := isAttemptingToRecoverFromReconcilerError w; infiniteTransformCount := infiniteTransformCount w; editors := editors w; editorCount := editorCount w; states := states w; nextState := nextState w; leafSets := leafSets w; elementMaps := elementMaps w; updateQueues := v; deferredArrays := deferredArrays w; tagSets := tagSets w; nextRef := nextRef w; cells := cells w; nextCell := nextCell w; reconciler := reconciler w; microtasks := microtasks w; trace := trace w |}.
Definition set_deferredArrays (v : Ref -> list Script) (w : World) : World :=
  {| activeEditorState := activeEditorState w; activeEditor := activeEditor w; isReadOnlyMode := isReadOnlyMode w; isAttemptingToRecoverFromReconcilerError := isAttemptingToRecoverFromReconcilerError w; infiniteTransformCount := infiniteTransformCount w; editors := editors w; editorCount := editorCount w; states := states w; nextState := nextState w; leafSets := leafSets w; elementMaps := elementMaps w; updateQueues := updateQueues w; deferredArrays := v; tagSets := tagSets w; nextRef := nextRef w; cells := cells w; nextCell := nextCell w; reconciler := reconciler w; microtasks := microtasks w; trace := trace w |}.
Definition set_tagSets (v : Ref -> list string) (w : World) : World :=
  {| activeEditorState := activeEditorState w; activeEditor := activeEditor w; isReadOnlyMode := isReadOnlyMode w; isAttemptingToRecoverFromReconcilerError := isAttemptingToRecoverFromReconcilerError w; infiniteTransformCount := infiniteTransformCount w; editors := editors w; editorCount := editorCount w; states := states w; nextState := nextState w; leafSets := leafSets w; elementMaps := elementMaps w; updateQueues := updateQueues w; deferredArrays := deferredArrays w; tagSets := v; nextRef := nextRef w; cells := cells w; nextCell := nextCell w; reconciler := reconciler w; microtasks := microtasks w; trace := trace w |}.
Definition set_nextRef (v : Ref) (w : World) : World :=
  {| activeEditorState := activeEditorState w; activeEditor := activeEditor w; isReadOnlyMode := isReadOnlyMode w; isAttemptingToRecoverFromReconcilerError := isAttemptingToRecoverFromReconcilerError w; infiniteTransformCount := infiniteTransformCount w; editors := editors w; editorCount := editorCount w; states := states w; nextState := nextState w; leafSets := leafSets w; elementMaps := elementMaps w; updateQueues := updateQueues w; deferredArrays := deferredArrays w; tagSets := tagSets w; nextRef := v; cells := cells w; nextCell := nextCell w; reconciler := reconciler w; microtasks := microtasks w; trace := trace w |}.
Definition set_cells (v : nat -> bool) (w : World) : World :=
  {| activeEditorState := activeEditorState w; activeEditor := activeEditor w; isReadOnlyMode := isReadOnlyMode w; isAttemptingToRecoverFromReconcilerError := isAttemptingToRecoverFromReconcilerError w; infiniteTransformCount := infiniteTransformCount w; editors := editors w; editorCount := editorCount w; states := states w; nextState := nextState w; leafSets := leafSets w; elementMaps := elementMaps w; updateQueues := updateQueues w; deferredArrays := deferredArrays w; tagSets := tagSets w; nextRef := nextRef w; cells := v; nextCell := nextCell w; reconciler := reconciler w; microtasks := microtasks w; trace := trace w |}.
Definition set_nextCell (v : nat) (w : World) : World :=
  {| activeEditorState := activeEditorState w; activeEditor := activeEditor w; isReadOnlyMode := isReadOnlyMode w; isAttemptingToRecoverFromReconcilerError := isAttemptingToRecoverFromReconcilerError w; infiniteTransformCount := infiniteTransformCount w; editors := editors w; editorCount := editorCount w; states := states w; nextState := nextState w; leafSets := leafSets w; elementMaps := elementMaps w; updateQueues := updateQueues w; deferredArrays := deferredArrays w; tagSets := tagSets w; nextRef := nextRef w; cells := cells w; nextCell := v; reconciler := reconciler w; microtasks := microtasks w; trace := trace w |}.
Definition set_reconciler (v : list ReconcileOutcome) (w : World) : World :=
  {| activeEditorState := activeEditorState w; activeEditor := activeEditor w; isReadOnlyMode := isReadOnlyMode w; isAttemptingToRecoverFromReconcilerError := isAttemptingToRecoverFromReconcilerError w; infiniteTransformCount := infiniteTransformCount w; editors := editors w; editorCount := editorCount w; states := states w; nextState := nextState w; leafSets := leafSets w; elementMaps := elementMaps w; updateQueues := updateQueues w; deferredArrays := deferredArrays w; tagSets := tagSets w; nextRef := nextRef w; cells := cells w; nextCell := nextCell w; reconciler := v; microtasks := microtasks w; trace := trace w |}.
Definition set_microtasks (v : list EditorId) (w : World) : World :=
  {| activeEditorState := activeEditorState w; activeEditor := activeEditor w; isReadOnlyMode := isReadOnlyMode w; isAttemptingToRecoverFromReconcilerError := isAttemptingToRecoverFromReconcilerError w; infiniteTransformCount := infiniteTransformCount w; editors := editors w; editorCount := editorCount w; states := states w; nextState := nextState w; leafSets := leafSets w; elementMaps := elementMaps w; updateQueues := updateQueues w; deferredArrays := deferredArrays w; tagSets := tagSets w; nextRef := nextRef w; cells := cells w; nextCell := nextCell w; reconciler := reconciler w; microtasks := v; trace := trace w |}.
Definition set_trace (v : list Event) (w : World) : World :=
  {| activeEditorState := activeEditorState w; activeEditor := activeEditor w; isReadOnlyMode := isReadOnlyMode w; isAttemptingToRecoverFromReconcilerError := isAttemptingToRecoverFromReconcilerError w; infiniteTransformCount := infiniteTransformCount w; editors := editors w; editorCount := editorCount w; states := states w; nextState := nextState w; leafSets := leafSets w; elementMaps := elementMaps w; updateQueues := updateQueues w; deferredArrays := deferredArrays w; tagSets := tagSets w; nextRef := nextRef w; cells := cells w; nextCell := nextCell w; reconciler := reconciler w; microtasks := microtasks w; trace := v |}.

(** ** Computations over the world *)

Inductive Result (A : Type) :=
| Ok (a : A) (w : World)
| Throw (t : Thrown) (w : World)
| OutOfFuel.
Arguments Ok {A} a w.
Arguments Throw {A} t w.
Arguments OutOfFuel {A}.

Definition M (A : Type) : Type := World -> Result A.

Definition ret {A} (a : A) : M A := fun w => Ok a w.

Definition bind {A B} (m : M A) (k : A -> M B) : M B :=
  fun w =>
    match m w with
    | Ok a w' => k a w'
    | Throw t w' => Throw t w'
    | OutOfFuel => OutOfFuel
    end.

Definition throw {A} (t : Thrown) : M A := fun w => Throw t w.

Definition invariant_false {A} (msg : ErrorMessage) : M A :=
  throw (ErrorObject msg).

Definition get : M World := fun w => Ok w w.

Definition modify (f : World -> World) : M unit := fun w => Ok tt (f w).

(** [try { body } catch (error) { handler error }]. *)
Definition tryCatch {A} (body : M A) (handler : Thrown -> M A) : M A :=
  fun w =>
    match body w with
    | Throw t w' => handler t w'
    | r => r
    end.

(** [try { body } finally { fin }], for a [finally] block that only assigns. *)
Definition tryFinally {A} (body : M A) (fin : World -> World) : M A :=
  fun w =>
    match body w with
    | Ok a w' => Ok a (fin w')
    | Throw t w' => Throw t (fin w')
    | OutOfFuel => OutOfFuel
    end.

Declare Scope lexical_scope.
Delimit Scope lexical_scope with lexical.
Notation "'let*' x ':=' m 'in' k" := (bind m (fun x => k))
  (at level 10, x pattern, m at level 100, k at level 200) : lexical_scope.
Notation "m1 >> m2" := (bind m1 (fun _ => m2))
  (at level 100, m2 at level 200, right associativity) : lexical_scope.
Open Scope lexical_scope.

Definition when (b : bool) (m : M unit) : M unit := if b then m else ret tt.

(** [for (const x of xs) { body x }] over a snapshot of [xs]. *)
Fixpoint forEach {A} (xs : list A) (body : A -> M unit) : M unit :=
  match xs with
  | [] => ret tt
  | x :: xs' => body x >> forEach xs' body
  end.

(** [for (let i = 0; i < xs.length; i++) { body i xs[i] }]. *)
Fixpoint forEachIndexed {A} (i : nat) (xs : list A) (body : nat -> A -> M unit)
  : M unit :=
  match xs with
  | [] => ret tt
  | x :: xs' => body i x >> forEachIndexed (S i) xs' body
  end.

(** *** The heap: editors, editor states and shared collections *)

Definition upd {A} (k : nat) (v : A) (f : nat -> A) : nat -> A :=
  fun k' => if decide (k' = k) then v else f k'.

Definition getEditor (editor : EditorId) : M LexicalEditor :=
  fun w => Ok (editors w editor) w.

Definition modifyEditor (editor : EditorId) (f : LexicalEditor -> LexicalEditor)
  : M unit :=
  modify (fun w => set_editors (upd editor (f (editors w editor)) (editors w)) w).

Definition getState (s : StateId) : M EditorState :=
  fun w => Ok (states w s) w.

Definition modifyState (s : StateId) (f : EditorState -> EditorState) : M unit :=
  modify (fun w => set_states (upd s (f (states w s)) (states w)) w).

Definition allocState (s : EditorState) : M StateId :=
  fun w =>
    let id := nextState w in
    Ok id (set_nextState (S id) (set_states (upd id s (states w)) w)).

Definition emit (ev : Event) : M unit :=
  modify (fun w => set_trace (trace w ++ [ev]) w).

(** [new Set()] of node keys. *)
Definition newLeafSet : M Ref :=
  fun w =>
    let r := nextRef w in
    Ok r (set_nextRef (S r) (set_leafSets (upd r [] (leafSets w)) w)).

(** [new Map()] from node keys to the intentionally-dirty flag. *)
Definition newElementMap : M Ref :=
  fun w =>
    let r := nextRef w in
    Ok r (set_nextRef (S r) (set_elementMaps (upd r [] (elementMaps w)) w)).

(** [[]] as a fresh queue of updates. *)
Definition newUpdateQueue : M Ref :=
  fun w =>
    let r := nextRef w in
    Ok r (set_nextRef (S r) (set_updateQueues (upd r [] (updateQueues w)) w)).

(** [[]] as a fresh array of deferred callbacks. *)
Definition newDeferredArray : M Ref :=
  fun w =>
    let r := nextRef w in
    Ok r (set_nextRef (S r) (set_deferredArrays (upd r [] (deferredArrays w)) w)).

(** [new Set()] of update tags. *)
Definition newTagSet : M Ref :=
  fun w =>
    let r := nextRef w in
    Ok r (set_nextRef (S r) (set_tagSets (upd r [] (tagSets w)) w)).

(** [let returnVal = false] captured by a closure. *)
Definition newCell : M nat :=
  fun w =>
    let c := nextCell w in
    Ok c (set_nextCell (S c) (set_cells (upd c false (cells w)) w)).

Definition readLeafSet (r : Ref) : M (list NodeKey) := fun w => Ok (leafSets w r) w.
Definition writeLeafSet (r : Ref) (v : list NodeKey) : M unit :=
  modify (fun w => set_leafSets (upd r v (leafSets w)) w).
Definition readElementMap (r : Ref) : M (list (NodeKey * bool)) :=
  fun w => Ok (elementMaps w r) w.
Definition writeElementMap (r : Ref) (v : list (NodeKey * bool)) : M unit :=
  modify (fun w => set_elementMaps (upd r v (elementMaps w)) w).
Definition readUpdateQueue (r : Ref)
  : M (list (UpdateFn * option EditorUpdateOptions)) :=
  fun w => Ok (updateQueues w r) w.
Definition writeUpdateQueue (r : Ref)
  (v : list (UpdateFn * option EditorUpdateOptions)) : M unit :=
  modify (fun w => set_updateQueues (upd r v (updateQueues w)) w).
Definition readDeferred (r : Ref) : M (list Script) :=
  fun w => Ok (deferredArrays w r) w.
Definition writeDeferred (r : Ref) (v : list Script) : M unit :=
  modify (fun w => set_deferredArrays (upd r v (deferredArrays w)) w).
Definition readTags (r : Ref) : M (list string) := fun w => Ok (tagSets w r) w.
Definition writeTags (r : Ref) (v : list string) : M unit :=
  modify (fun w => set_tagSets (upd r v (tagSets w)) w).

(** *** Insertion-ordered [Set] and [Map] of JavaScript *)

(** [set.add(k)]: a key already present keeps its place. *)
Definition set_add (k : NodeKey) (s : list NodeKey) : list NodeKey :=
  if bool_decide (k ∈ s) then s else s ++ [k].

(** [map.set(k, v)]: a key already present keeps its place and gets [v]. *)
Fixpoint map_set (k : NodeKey) (v : bool) (m : list (NodeKey * bool))
  : list (NodeKey * bool) :=
  match m with
  | [] => [(k, v)]
  | (k', v') :: m' =>
      if decide (k' = k) then (k, v) :: m' else (k', v') :: map_set k v m'
  end.

Definition map_has (k : NodeKey) (m : list (NodeKey * bool)) : bool :=
  bool_decide (k ∈ m.*1).

(** [map.delete(k)]: the map without [k]; the method's result is [map_has]. *)
Definition map_delete (k : NodeKey) (m : list (NodeKey * bool))
  : list (NodeKey * bool) :=
  filter (fun kv => kv.1 ≠ k) m.

(** *** Pure updates of the world, as used in [finally] blocks *)

Definition updEditor (editor : EditorId) (f : LexicalEditor -> LexicalEditor)
  (w : World) : World :=
  set_editors (upd editor (f (editors w editor)) (editors w)) w.

(** The three module-level bindings that make up the ambient context. *)
Definition ambient (w : World) : option StateId * option EditorId * bool :=
  (activeEditorState w, activeEditor w, isReadOnlyMode w).

Definition setAmbient (a : option StateId * option EditorId * bool) (w : World)
  : World :=
  set_activeEditorState a.1.1
    (set_activeEditor a.1.2 (set_isReadOnlyMode a.2 w)).

(** ** Collaborators

    Code of other modules that the update core calls and that is looked at
    only through its interface. *)

Record Collaborators := mkCollaborators {
  (* LexicalSelection.ts *)
  internalCreateSelection : World -> EditorId -> option BaseSelection;
  applySelectionTransforms : EditorState -> LexicalEditor -> EditorState;
  (* LexicalGC.ts *)
  garbageCollectDetachedNodes :
    EditorState -> EditorState -> list NodeKey -> list (NodeKey * bool) ->
    Thrown + EditorState;
  garbageCollectDetachedDecorators : LexicalEditor -> EditorState -> LexicalEditor;
  (* LexicalEditorState.ts *)
  editorStateHasDirtySelection : EditorState -> EditorState -> bool;
  (* LexicalUtils.ts *)
  getEditorStateTextContent : EditorState -> string;
  getDOMSelection : LexicalEditor -> bool;
  (* LexicalNormalization.ts *)
  normalizeTextNode : NodeKey -> Script;
  (* node classes *)
  importJSON : string -> LexicalNode;
  (* the callers' error handlers: [editor._onError] is assigned once, by
     the constructor of the editor, from its configuration *)
  onError : EditorId -> ErrorMessage -> Script
}.

Definition SELECTION_CHANGE_COMMAND : Command := 0.
Definition SKIP_DOM_SELECTION_TAG : string := "skip-dom-selection".

(** ** The functions of [LexicalUpdates.ts] *)

Definition isCurrentlyReadOnlyMode : M bool :=
  fun w =>
    Ok (isReadOnlyMode w ||
        match activeEditorState w with
        | Some s => _readOnly (states w s)
        | None => false
        end) w.

Definition errorOnReadOnly : M unit :=
  fun w =>
    if isReadOnlyMode w then Throw (ErrorObject MsgReadOnlyMode) w else Ok tt w.

Definition errorOnInfiniteTransforms : M unit :=
  fun w =>
    if (99 <? infiniteTransformCount w)%nat
    then Throw (ErrorObject MsgInfiniteTransforms) w
    else Ok tt w.

Definition getActiveEditorState : M StateId :=
  fun w =>
    match activeEditorState w with
    | None => Throw (ErrorObject MsgNoActiveEditorState) w
    | Some s => Ok s w
    end.

Definition getActiveEditor : M EditorId :=
  fun w =>
    match activeEditor w with
    | None => Throw (ErrorObject MsgNoActiveEditor) w
    | Some e => Ok e w
    end.

Definition internalGetActiveEditor : M (option EditorId) :=
  fun w => Ok (activeEditor w) w.

Definition internalGetActiveEditorState : M (option StateId) :=
  fun w => Ok (activeEditorState w) w.

(** *** Helpers of other modules, small enough to be written out *)

(** Modelled from the spec: [node.isAttached()] of the node classes, "skip
    nodes that are detached"; a node is attached when its latest version in
    the active snapshot says so. *)
Definition nodeIsAttached (key : NodeKey) : M bool :=
  let* s := getActiveEditorState in
  let* st := getState s in
  ret (match _nodeMap st !! key with
       | Some n => attached n
       | None => false
       end).

(** Modelled from the spec: [$getCompositionKey] of LexicalUtils.ts, "the
    node currently under IME composition". *)
Definition getCompositionKey : M (option NodeKey) :=
  let* ro := isCurrentlyReadOnlyMode in
  if ro then ret None
  else
    let* editor := getActiveEditor in
    let* ed := getEditor editor in
    ret (_compositionKey ed).

(** [getRegisteredNodeOrThrow] of LexicalUtils.ts. *)
Definition getRegisteredNodeOrThrow (editor : EditorId) (type : string)
  : M RegisteredNode :=
  let* ed := getEditor editor in
  match _nodes ed !! type with
  | Some r => ret r
  | None => invariant_false MsgNodeNotRegistered
  end.

(** Modelled from the spec: "marking a leaf dirty implicitly marks every
    ancestor container dirty (non-intentionally, i.e. boolean false, unless
    already true)". *)
Fixpoint markParentElementsAsDirty (n : nat) (parentKey : NodeKey)
  (nodeMap : gmap NodeKey LexicalNode) (dirtyElements : list (NodeKey * bool))
  : list (NodeKey * bool) :=
  match n with
  | 0 => dirtyElements
  | S n' =>
      if map_has parentKey dirtyElements then dirtyElements
      else
        match nodeMap !! parentKey with
        | None => dirtyElements
        | Some node =>
            let dirtyElements' := map_set parentKey false dirtyElements in
            match __parent node with
            | Some p => markParentElementsAsDirty n' p nodeMap dirtyElements'
            | None => dirtyElements'
            end
        end
  end.

(** Modelled from the spec: [internalMarkNodeAsDirty] of LexicalUtils.ts,
    the Dirty Tracker entry point that every mutation API goes through.  It
    is where the termination guard of the transform engine is consulted. *)
Definition internalMarkNodeAsDirty (key : NodeKey) : M unit :=
  errorOnInfiniteTransforms >>
  let* editorState := getActiveEditorState in
  let* editor := getActiveEditor in
  let* st := getState editorState in
  match _nodeMap st !! key with
  | None => ret tt
  | Some node =>
      let* ed := getEditor editor in
      let* dirtyElements := readElementMap (_dirtyElements ed) in
      let dirtyElements' :=
        match __parent node with
        | Some p =>
            markParentElementsAsDirty (S (size (_nodeMap st))) p (_nodeMap st)
              dirtyElements
        | None => dirtyElements
        end in
      modifyEditor editor (set_dirtyType HAS_DIRTY_NODES) >>
      if isElementNode node
      then writeElementMap (_dirtyElements ed) (map_set key true dirtyElements')
      else
        writeElementMap (_dirtyElements ed) dirtyElements' >>
        let* leaves := readLeafSet (_dirtyLeaves ed) in
        writeLeafSet (_dirtyLeaves ed) (set_add key leaves)
  end.

(** Modelled from the spec: [createEmptyEditorState] and [cloneEditorState]
    of LexicalEditorState.ts; a snapshot is "created empty or by cloning a
    previous snapshot", unfrozen and without a selection. *)
Definition rootNode : LexicalNode :=
  {| __type := "root"; __parent := None;
     isElementNode := true; isTextNode := false; isSimpleText := false;
     isUnmergeable := false; attached := true |}.

Definition createEmptyEditorState : M StateId :=
  allocState {| _nodeMap := {["root" := rootNode]}; _selection := None;
                _flushSync := false; _readOnly := false |}.

Definition cloneEditorState (current : StateId) : M StateId :=
  let* st := getState current in
  allocState {| _nodeMap := _nodeMap st; _selection := None;
                _flushSync := false; _readOnly := false |}.

(** Modelled from the spec: [initMutationObserver] of LexicalMutations.ts
    gives the editor a fresh observer. *)
Definition initMutationObserver (editor : EditorId) : M unit :=
  modifyEditor editor (set_observer (Some 0)).

(** Modelled from the spec: [getEditorsToPropagate] of LexicalUtils.ts,
    "walks the ancestor chain from the outermost parent editor down to the
    target editor". *)
Fixpoint ancestorChain (n : nat) (w : World) (editor : EditorId) : list EditorId :=
  match n with
  | 0 => [editor]
  | S n' =>
      match _parentEditor (editors w editor) with
      | Some p => editor :: ancestorChain n' w p
      | None => [editor]
      end
  end.

Definition getEditorsToPropagate (editor : EditorId) : M (list EditorId) :=
  fun w => Ok (rev (ancestorChain (editorCount w) w editor)) w.

(** [scheduleMicroTask(() => { $commitPendingUpdates(editor); })]. *)
Definition scheduleMicroTask (editor : EditorId) : M unit :=
  emit (EvScheduleMicroTask editor) >>
  modify (fun w => set_microtasks (microtasks w ++ [editor]) w).

(** [resetEditor] of LexicalEditor.ts. *)
Definition resetEditor (editor : EditorId) (prevRootElement : option nat)
  (nextRootElement : option nat) (pendingEditorState : StateId) : M unit :=
  emit (EvResetEditor editor) >>
  modifyEditor editor (set_keyToDOMMap ∅) >>
  let* empty := createEmptyEditorState in
  modifyEditor editor (set_editorState empty) >>
  modifyEditor editor (set_pendingEditorState (Some pendingEditorState)) >>
  modifyEditor editor (set_compositionKey None) >>
  modifyEditor editor (set_dirtyType NO_DIRTY_NODES) >>
  modifyEditor editor (set_cloneNotNeeded []) >>
  let* leaves := newLeafSet in
  modifyEditor editor (set_dirtyLeaves leaves) >>
  let* ed := getEditor editor in
  writeElementMap (_dirtyElements ed) [] >>
  modifyEditor editor (set_normalizedNodes []) >>
  let* tags := newTagSet in
  modifyEditor editor (set_updateTags tags) >>
  let* updates := newUpdateQueue in
  modifyEditor editor (set_updates updates) >>
  modifyEditor editor (set_blockCursorElement None) >>
  modifyEditor editor (set_observer None) >>
  match nextRootElement with
  | Some el =>
      modifyEditor editor
        (fun e => set_keyToDOMMap (<["root" := el]> (_keyToDOMMap e)) e)
  | None => ret tt
  end.

(** The renderer, [$reconcileRoot] of LexicalReconciler.ts: the world holds
    what its successive invocations will do. *)
Definition reconcileRoot (prevEditorState nextEditorState : StateId)
  (editor : EditorId) (dirtyType : nat) (dirtyElements dirtyLeaves : Ref)
  : M MutatedNodes :=
  let* els := readElementMap dirtyElements in
  let* lvs := readLeafSet dirtyLeaves in
  emit (EvReconcile editor prevEditorState nextEditorState dirtyType els lvs) >>
  fun w =>
    match reconciler w with
    | [] => Ok [] w
    | Reconciled m :: rest => Ok m (set_reconciler rest w)
    | ReconcileThrows t :: rest => Throw t (set_reconciler rest w)
    end.

(** [addTags]: [if (!tags) return] holds for a tag that is missing and for
    the empty string; an array, empty or not, goes through the loop. *)
Definition addTags (editor : EditorId) (tags : option UpdateTags) : M unit :=
  match tags with
  | None => ret tt
  | Some tags =>
      if match tags with
         | OneTag t => bool_decide (t = EmptyString)
         | ManyTags _ => false
         end
      then ret tt
      else
        let* ed := getEditor editor in
        let updateTags := _updateTags ed in
        let tags_ :=
          match tags with
          | OneTag t => [t]
          | ManyTags ts => ts
          end in
        forEach tags_ (fun t =>
          let* ts := readTags updateTags in
          writeTags updateTags
            (if bool_decide (t ∈ ts) then ts else ts ++ [t]))
  end.

Definition is_Some_bool {A} (o : option A) : bool :=
  match o with Some _ => true | None => false end.

Definition readCell (c : nat) : M bool := fun w => Ok (cells w c) w.
Definition writeCell (c : nat) (v : bool) : M unit :=
  modify (fun w => set_cells (upd c v (cells w)) w).

Fixpoint foldM {A S} (xs : list A) (s : S) (body : S -> A -> M S) : M S :=
  match xs with
  | [] => ret s
  | x :: xs' => let* s' := body s x in foldM xs' s' body
  end.

(** How a block that contains a [return] or a [continue] was left. *)
Inductive Flow (A : Type) :=
| Continue (a : A)
| Returned.
Arguments Continue {A} a.
Arguments Returned {A}.

(** The local variables of the [while] loop of [$applyAllTransforms]. *)
Record TransformLoop := mkTransformLoop {
  loop_dirtyLeaves : Ref;
  loop_dirtyElements : Ref;
  loop_compositionKey : option NodeKey;
  loop_transformsCache : gmap string (list (NodeKey -> Script));
  untransformedDirtyLeaves : Ref;
  untransformedDirtyLeavesLength : nat;
  untransformedDirtyElements : Ref;
  untransformedDirtyElementsLength : nat
}.

(** ** Reentrancy

    The functions below call user code, and user code calls them back.  Each
    is written against a record [Rec] of the entry points it may reenter
    (and of the loops that need not terminate); [knot] then closes the
    recursion with a bound on the depth of calls. *)
Record Rec := mkRec {
  rec_script : Script -> M bool;
  rec_beginUpdate :
    EditorId -> UpdateFn -> option EditorUpdateOptions -> M unit;
  rec_commitPendingUpdates : EditorId -> option StateId -> M unit;
  rec_processNestedUpdates : EditorId -> Ref -> bool -> M bool;
  rec_applyAllTransforms : StateId -> EditorId -> TransformLoop -> M unit;
  rec_normalizeAllDirtyTextNodes : StateId -> EditorId -> Ref -> nat -> M unit
}.

Section Core.

Variable ext : Collaborators.
Variable r : Rec.

(** [if (error instanceof Error) { editor._onError(error); }]: the call is
    recorded, then the handler runs; it is caller code and may do what a
    callback may do, throw included. *)
Definition reportError (editor : EditorId) (error : Thrown) : M unit :=
  match instanceofError error with
  | Some msg =>
      emit (EvOnError editor msg) >>
      rec_script r (onError ext editor msg) >> ret tt
  | None => ret tt
  end.

(** [transformsArr[i](node); if (!node.isAttached()) break;] from index [i]. *)
Fixpoint runTransforms (editor : EditorId) (key : NodeKey) (i : nat)
  (transformsArr : list (NodeKey -> Script)) : M unit :=
  match transformsArr with
  | [] => ret tt
  | t :: rest =>
      emit (EvTransform editor key i) >>
      rec_script r (t key) >>
      let* isAttached := nodeIsAttached key in
      if isAttached then runTransforms editor key (S i) rest else ret tt
  end.

Definition applyTransforms (editor : EditorId) (key : NodeKey)
  (node : LexicalNode) (transformsCache : gmap string (list (NodeKey -> Script)))
  : M (gmap string (list (NodeKey -> Script))) :=
  let type := __type node in
  let* registeredNode := getRegisteredNodeOrThrow editor type in
  let '(transformsArr, transformsCache') :=
    match transformsCache !! type with
    | Some arr => (arr, transformsCache)
    | None =>
        (transforms registeredNode,
         <[type := transforms registeredNode]> transformsCache)
    end in
  runTransforms editor key 0 transformsArr >>
  ret transformsCache'.

Definition isNodeValidForTransform (key : NodeKey)
  (node : option LexicalNode) (compositionKey : option NodeKey) : M bool :=
  match node with
  | None => ret false
  | Some _ =>
      if bool_decide (Some key = compositionKey) then ret false
      else nodeIsAttached key
  end.

(** [if ($isTextNode(node) && node.isAttached() && node.isSimpleText() &&
    !node.isUnmergeable()) { $normalizeTextNode(node); }] *)
Definition normalizeIfSimpleText (key : NodeKey) (node : option LexicalNode)
  : M unit :=
  match node with
  | None => ret tt
  | Some n =>
      if isTextNode n then
        let* isAttached := nodeIsAttached key in
        if isAttached && isSimpleText n && negb (isUnmergeable n) then
          emit (EvNormalizeText key) >>
          rec_script r (normalizeTextNode ext key) >> ret tt
        else ret tt
      else ret tt
  end.

(** [for (const nodeKey of dirtyLeaves)] of [$normalizeAllDirtyTextNodes],
    from position [i]: the set grows while it is iterated. *)
Definition normalizeAllDirtyTextNodesLoop (editorState : StateId)
  (editor : EditorId) (dirtyLeaves : Ref) (i : nat) : M unit :=
  let* leaves := readLeafSet dirtyLeaves in
  match leaves !! i with
  | None => ret tt
  | Some nodeKey =>
      let* st := getState editorState in
      normalizeIfSimpleText nodeKey (_nodeMap st !! nodeKey) >>
      rec_normalizeAllDirtyTextNodes r editorState editor dirtyLeaves (S i)
  end.

Definition normalizeAllDirtyTextNodes (editorState : StateId)
  (editor : EditorId) : M unit :=
  let* ed := getEditor editor in
  normalizeAllDirtyTextNodesLoop editorState editor (_dirtyLeaves ed) 0.

Definition incrementInfiniteTransformCount : M unit :=
  modify (fun w => set_infiniteTransformCount (S (infiniteTransformCount w)) w).

(** The leaf pass: lines 272-306 of the source.  [inl] is its [continue]. *)
Definition transformLeaves (editorState : StateId) (editor : EditorId)
  (l : TransformLoop) : M (TransformLoop + TransformLoop) :=
  if (0 <? untransformedDirtyLeavesLength l)%nat then
    let* fresh := newLeafSet in
    modifyEditor editor (set_dirtyLeaves fresh) >>
    let* keys := readLeafSet (untransformedDirtyLeaves l) in
    let* cache :=
      foldM keys (loop_transformsCache l) (fun cache nodeKey =>
        let* st := getState editorState in
        let node := _nodeMap st !! nodeKey in
        normalizeIfSimpleText nodeKey node >>
        let* valid :=
          isNodeValidForTransform nodeKey node (loop_compositionKey l) in
        let* cache' :=
          match node with
          | Some n =>
              if valid then applyTransforms editor nodeKey n cache
              else ret cache
          | None => ret cache
          end in
        let* acc := readLeafSet (loop_dirtyLeaves l) in
        writeLeafSet (loop_dirtyLeaves l) (set_add nodeKey acc) >>
        ret cache') in
    let* ed := getEditor editor in
    let* leaves := readLeafSet (_dirtyLeaves ed) in
    let l' :=
      {| loop_dirtyLeaves := loop_dirtyLeaves l;
         loop_dirtyElements := loop_dirtyElements l;
         loop_compositionKey := loop_compositionKey l;
         loop_transformsCache := cache;
         untransformedDirtyLeaves := _dirtyLeaves ed;
         untransformedDirtyLeavesLength := length leaves;
         untransformedDirtyElements := untransformedDirtyElements l;
         untransformedDirtyElementsLength := untransformedDirtyElementsLength l
      |} in
    if (0 <? length leaves)%nat
    then incrementInfiniteTransformCount >> ret (inl l')
    else ret (inr l')
  else ret (inr l).

(** The element pass: lines 308-343 of the source. *)
Definition transformElements (editorState : StateId) (editor : EditorId)
  (l : TransformLoop) : M TransformLoop :=
  let* freshLeaves := newLeafSet in
  modifyEditor editor (set_dirtyLeaves freshLeaves) >>
  let* freshElements := newElementMap in
  modifyEditor editor (set_dirtyElements freshElements) >>
  let* m := readElementMap (untransformedDirtyElements l) in
  let rootDirty := map_has "root" m in
  when rootDirty
    (writeElementMap (untransformedDirtyElements l)
       (map_set "root" true (map_delete "root" m))) >>
  let* entries := readElementMap (untransformedDirtyElements l) in
  let* cache :=
    foldM entries (loop_transformsCache l) (fun cache entry =>
      let nodeKey := entry.1 in
      let intentionallyMarkedAsDirty := entry.2 in
      let* acc := readElementMap (loop_dirtyElements l) in
      writeElementMap (loop_dirtyElements l)
        (map_set nodeKey intentionallyMarkedAsDirty acc) >>
      if negb intentionallyMarkedAsDirty then ret cache
      else
        let* st := getState editorState in
        let node := _nodeMap st !! nodeKey in
        let* valid :=
          isNodeValidForTransform nodeKey node (loop_compositionKey l) in
        match node with
        | Some n =>
            if valid then applyTransforms editor nodeKey n cache else ret cache
        | None => ret cache
        end) in
  let* ed := getEditor editor in
  let* leaves := readLeafSet (_dirtyLeaves ed) in
  let* elements := readElementMap (_dirtyElements ed) in
  incrementInfiniteTransformCount >>
  ret {| loop_dirtyLeaves := loop_dirtyLeaves l;
         loop_dirtyElements := loop_dirtyElements l;
         loop_compositionKey := loop_compositionKey l;
         loop_transformsCache := cache;
         untransformedDirtyLeaves := _dirtyLeaves ed;
         untransformedDirtyLeavesLength := length leaves;
         untransformedDirtyElements := _dirtyElements ed;
         untransformedDirtyElementsLength := length elements |}.

(** The [while] loop of [$applyAllTransforms], one test of its condition. *)
Definition applyAllTransformsLoop (editorState : StateId) (editor : EditorId)
  (l : TransformLoop) : M unit :=
  if (0 <? untransformedDirtyLeavesLength l)%nat
     || (0 <? untransformedDirtyElementsLength l)%nat
  then
    let* afterLeaves := transformLeaves editorState editor l in
    match afterLeaves with
    | inl l' => rec_applyAllTransforms r editorState editor l'
    | inr l' =>
        let* l'' := transformElements editorState editor l' in
        rec_applyAllTransforms r editorState editor l''
    end
  else
    modifyEditor editor (set_dirtyLeaves (loop_dirtyLeaves l)) >>
    modifyEditor editor (set_dirtyElements (loop_dirtyElements l)).

Definition applyAllTransforms (editorState : StateId) (editor : EditorId)
  : M unit :=
  let* ed := getEditor editor in
  let dirtyLeaves := _dirtyLeaves ed in
  let dirtyElements := _dirtyElements ed in
  let* compositionKey := getCompositionKey in
  let* leaves := readLeafSet dirtyLeaves in
  let* elements := readElementMap dirtyElements in
  applyAllTransformsLoop editorState editor
    {| loop_dirtyLeaves := dirtyLeaves;
       loop_dirtyElements := dirtyElements;
       loop_compositionKey := compositionKey;
       loop_transformsCache := ∅;
       untransformedDirtyLeaves := dirtyLeaves;
       untransformedDirtyLeavesLength := length leaves;
       untransformedDirtyElements := dirtyElements;
       untransformedDirtyElementsLength := length elements |}.

(** *** Listeners *)

Definition triggerListeners (type : ListenerType) (editor : EditorId)
  (isCurrentlyEnqueuingUpdates : bool) : M unit :=
  let* ed := getEditor editor in
  let previouslyUpdating := _updating ed in
  modifyEditor editor (set_updating isCurrentlyEnqueuingUpdates) >>
  tryFinally
    (let* ed := getEditor editor in
     let listeners := listeners_of type (_listeners ed) in
     forEachIndexed 0 listeners (fun i listener =>
       emit (EvListener type editor i) >> rec_script r listener >> ret tt))
    (updEditor editor (set_updating previouslyUpdating)).

Definition triggerMutationListeners (editor : EditorId)
  (mutatedNodes : MutatedNodes) : M unit :=
  let* ed := getEditor editor in
  let listeners := mutation (_listeners ed) in
  forEachIndexed 0 listeners (fun i entry =>
    forEach entry.2 (fun klass =>
      if bool_decide (klass ∈ mutatedNodes) then
        emit (EvMutationListener editor i klass) >>
        rec_script r entry.1 >> ret tt
      else ret tt)).

Definition triggerTextContentListeners (editor : EditorId)
  (currentEditorState pendingEditorState : StateId) : M unit :=
  let* cur := getState currentEditorState in
  let* pen := getState pendingEditorState in
  let currentTextContent := getEditorStateTextContent ext cur in
  let latestTextContent := getEditorStateTextContent ext pen in
  if bool_decide (currentTextContent = latestTextContent) then ret tt
  else triggerListeners LTextContent editor true.

(** The body of the closure that [triggerCommandListeners] hands to
    [updateEditorSync], from index [j]. *)
Fixpoint runCommandListeners (returnVal : nat) (currentEditor : EditorId)
  (type : Command) (priority : nat) (j : nat) (listeners : list Script)
  : M unit :=
  match listeners with
  | [] => ret tt
  | listener :: rest =>
      emit (EvCommandListener currentEditor type priority j) >>
      let* handled := rec_script r listener in
      if handled then writeCell returnVal true
      else runCommandListeners returnVal currentEditor type priority (S j) rest
  end.

(** [updateFn()] *)
Definition runUpdateFn (updateFn : UpdateFn) : M unit :=
  match updateFn with
  | UserFn s => rec_script r s >> ret tt
  | CommandFn returnVal listeners currentEditor type priority =>
      runCommandListeners returnVal currentEditor type priority 0 listeners
  end.

Definition updateEditorSync (editor : EditorId) (updateFn : UpdateFn)
  (options : option EditorUpdateOptions) : M unit :=
  let* active := internalGetActiveEditor in
  if bool_decide (active = Some editor) && negb (is_Some_bool options)
  then runUpdateFn updateFn
  else rec_beginUpdate r editor updateFn options.

(** [for (let e = 0; e < editors.length; e++)] at priority [i]. *)
Fixpoint triggerCommandListenersAt (editor : EditorId) (type : Command)
  (i : nat) (editors : list EditorId) : M bool :=
  match editors with
  | [] => ret false
  | currentEditor :: rest =>
      let* ed := getEditor currentEditor in
      let* returnVal :=
        match _commands ed !! type with
        | Some listenerInPriorityOrder =>
            match listenerInPriorityOrder !! i with
            | Some listenersSet =>
                let* returnVal := newCell in
                updateEditorSync currentEditor
                  (CommandFn returnVal listenersSet currentEditor type i) None >>
                readCell returnVal
            | None => ret false
            end
        | None => ret false
        end in
      if returnVal then ret true
      else triggerCommandListenersAt editor type i rest
  end.

(** [for (let i = n; i >= 0; i--)]. *)
Fixpoint triggerCommandListenersFrom (editor : EditorId) (type : Command)
  (editors : list EditorId) (i : nat) : M bool :=
  let* returnVal := triggerCommandListenersAt editor type i editors in
  if returnVal then ret true
  else
    match i with
    | 0 => ret false
    | S i' => triggerCommandListenersFrom editor type editors i'
    end.

Definition triggerCommandListeners (editor : EditorId) (type : Command)
  : M bool :=
  let* editors := getEditorsToPropagate editor in
  triggerCommandListenersFrom editor type editors 4.

(** Modelled from the spec: [dispatchCommand] of LexicalUtils.ts is the
    walk that [triggerCommandListeners] implements. *)
Definition dispatchCommand (editor : EditorId) (type : Command) : M bool :=
  triggerCommandListeners editor type.

Definition triggerEnqueuedUpdates (editor : EditorId) : M unit :=
  let* ed := getEditor editor in
  let queuedUpdates := _updates ed in
  let* q := readUpdateQueue queuedUpdates in
  match q with
  | [] => ret tt
  | (updateFn, options) :: rest =>
      writeUpdateQueue queuedUpdates rest >>
      rec_beginUpdate r editor updateFn options
  end.

Definition triggerDeferredUpdateCallbacks (editor : EditorId) (deferred : Ref)
  : M unit :=
  let* fresh := newDeferredArray in
  modifyEditor editor (set_deferred fresh) >>
  let* callbacks := readDeferred deferred in
  if (0 <? length callbacks)%nat then
    let* ed := getEditor editor in
    let previouslyUpdating := _updating ed in
    modifyEditor editor (set_updating true) >>
    tryFinally
      (forEachIndexed 0 callbacks (fun i callback =>
         emit (EvDeferred editor i) >> rec_script r callback >> ret tt))
      (updEditor editor (set_updating previouslyUpdating))
  else ret tt.

(** *** The commit pipeline *)

(** Lines 562-567: what the [catch] block of the rendering section does
    when no recovery is in progress. *)
Definition recoverFromReconcilerError (editor : EditorId)
  (rootElement : option nat) (currentEditorState pendingEditorState : StateId)
  : M (Flow (option MutatedNodes)) :=
  resetEditor editor None rootElement pendingEditorState >>
  initMutationObserver editor >>
  modifyEditor editor (set_dirtyType FULL_RECONCILE) >>
  modify (set_isAttemptingToRecoverFromReconcilerError true) >>
  rec_commitPendingUpdates r editor (Some currentEditorState) >>
  modify (set_isAttemptingToRecoverFromReconcilerError false) >>
  ret Returned.

(** Lines 534-581: the rendering section.  [Continue mutatedNodes] falls
    through to the rest of the commit, [Returned] is the [return] of the
    [catch] block. *)
Definition commitReconcile (editor : EditorId) (rootElement : option nat)
  (currentEditorState pendingEditorState : StateId)
  (previous : option StateId * option EditorId * bool)
  (previouslyUpdating : bool) : M (Flow (option MutatedNodes)) :=
  modify (set_activeEditor (Some editor)) >>
  modify (set_activeEditorState (Some pendingEditorState)) >>
  modify (set_isReadOnlyMode false) >>
  modifyEditor editor (set_updating true) >>
  tryFinally
    (tryCatch
       (let* ed := getEditor editor in
        let dirtyType := _dirtyType ed in
        let dirtyElements := _dirtyElements ed in
        let dirtyLeaves := _dirtyLeaves ed in
        let* mutatedNodes :=
          reconcileRoot currentEditorState pendingEditorState editor
            dirtyType dirtyElements dirtyLeaves in
        ret (Continue (Some mutatedNodes)))
       (fun error =>
          reportError editor error >>
          let* w := get in
          if negb (isAttemptingToRecoverFromReconcilerError w) then
            recoverFromReconcilerError editor rootElement currentEditorState
              pendingEditorState
          else throw error))
    (fun w =>
       setAmbient previous (updEditor editor (set_updating previouslyUpdating) w)).

(** Lines 616-659: synchronising the DOM selection. *)
Definition commitSelection (editor : EditorId) (rootElement : option nat)
  (shouldSkipDOM needsUpdate : bool) (pendingEditorState : StateId)
  (pendingSelection : option BaseSelection) (tags : Ref)
  (previous : option StateId * option EditorId * bool) : M unit :=
  let* ed := getEditor editor in
  let domSelection := if shouldSkipDOM then false else getDOMSelection ext ed in
  let* ts := readTags tags in
  let selectionNeedsSync :=
    needsUpdate ||
    match pendingSelection with
    | None => true
    | Some s => selection_dirty s
    end in
  if _editable ed && domSelection && selectionNeedsSync
     && is_Some_bool rootElement
     && negb (bool_decide (SKIP_DOM_SELECTION_TAG ∈ ts))
  then
    modify (set_activeEditor (Some editor)) >>
    modify (set_activeEditorState (Some pendingEditorState)) >>
    tryFinally
      (when selectionNeedsSync
         (modifyEditor editor (set_blockCursorElement None) >>
          emit (EvUpdateDOMSelection editor)))
      (fun w => set_activeEditor previous.1.2
                  (set_activeEditorState previous.1.1 w))
  else ret tt.

(** Lines 661-707: listeners, deferred callbacks, enqueued updates. *)
Definition commitNotify (editor : EditorId)
  (recoveryEditorState : option StateId)
  (currentEditorState pendingEditorState : StateId)
  (currentSelection pendingSelection : option BaseSelection)
  (mutatedNodes : option MutatedNodes) (deferred : Ref) : M unit :=
  match mutatedNodes with
  | Some m => triggerMutationListeners editor m
  | None => ret tt
  end >>
  match pendingSelection with
  | Some p =>
      if negb (isRangeSelection pendingSelection)
         && match currentSelection with
            | None => true
            | Some c => negb (selection_is c p)
            end
      then dispatchCommand editor SELECTION_CHANGE_COMMAND >> ret tt
      else ret tt
  | None => ret tt
  end >>
  let* ed := getEditor editor in
  match _pendingDecorators ed with
  | Some pendingDecorators =>
      modifyEditor editor (set_decorators pendingDecorators) >>
      modifyEditor editor (set_pendingDecorators None) >>
      triggerListeners LDecorator editor true
  | None => ret tt
  end >>
  triggerTextContentListeners editor
    (default currentEditorState recoveryEditorState) pendingEditorState >>
  triggerListeners LUpdate editor true >>
  triggerDeferredUpdateCallbacks editor deferred >>
  triggerEnqueuedUpdates editor.

(** Lines 583-707: the commit once the rendering section is through. *)
Definition commitAfterReconcile (editor : EditorId)
  (recoveryEditorState : option StateId) (rootElement : option nat)
  (shouldSkipDOM needsUpdate : bool)
  (currentEditorState pendingEditorState : StateId)
  (currentSelection pendingSelection : option BaseSelection)
  (previous : option StateId * option EditorId * bool)
  (mutatedNodes : option MutatedNodes) : M unit :=
  let* pen := getState pendingEditorState in
  when (negb (_readOnly pen))
    (modifyState pendingEditorState (set_readOnly true)) >>
  let* ed := getEditor editor in
  let dirtyLeaves := _dirtyLeaves ed in
  let dirtyElements := _dirtyElements ed in
  let normalizedNodes := _normalizedNodes ed in
  let tags := _updateTags ed in
  let deferred := _deferred ed in
  (if needsUpdate then
     modifyEditor editor (set_dirtyType NO_DIRTY_NODES) >>
     modifyEditor editor (set_cloneNotNeeded []) >>
     let* leaves := newLeafSet in
     modifyEditor editor (set_dirtyLeaves leaves) >>
     let* elements := newElementMap in
     modifyEditor editor (set_dirtyElements elements) >>
     modifyEditor editor (set_normalizedNodes []) >>
     let* freshTags := newTagSet in
     modifyEditor editor (set_updateTags freshTags)
   else ret tt) >>
  let* pen := getState pendingEditorState in
  modifyEditor editor
    (fun e => garbageCollectDetachedDecorators ext e pen) >>
  commitSelection editor rootElement shouldSkipDOM needsUpdate
    pendingEditorState pendingSelection tags previous >>
  commitNotify editor recoveryEditorState currentEditorState
    pendingEditorState currentSelection pendingSelection
    mutatedNodes deferred.

Definition commitPendingUpdatesBody (editor : EditorId)
  (recoveryEditorState : option StateId) : M unit :=
  let* ed := getEditor editor in
  let rootElement := _rootElement ed in
  let shouldSkipDOM := _headless ed || negb (is_Some_bool rootElement) in
  match _pendingEditorState ed with
  | None => ret tt
  | Some pendingEditorState =>
      let currentEditorState := _editorState ed in
      let* cur := getState currentEditorState in
      let* pen := getState pendingEditorState in
      let currentSelection := _selection cur in
      let pendingSelection := _selection pen in
      let needsUpdate := negb (_dirtyType ed =? NO_DIRTY_NODES)%nat in
      let* w := get in
      let previous := ambient w in
      let previouslyUpdating := _updating ed in
      let observer := _observer ed in
      modifyEditor editor (set_pendingEditorState None) >>
      modifyEditor editor (set_editorState pendingEditorState) >>
      let* flow :=
        if negb shouldSkipDOM && needsUpdate && is_Some_bool observer
        then commitReconcile editor rootElement currentEditorState
               pendingEditorState previous previouslyUpdating
        else ret (Continue None) in
      match flow with
      | Returned => ret tt
      | Continue mutatedNodes =>
          commitAfterReconcile editor recoveryEditorState rootElement
            shouldSkipDOM needsUpdate currentEditorState pendingEditorState
            currentSelection pendingSelection previous mutatedNodes
      end
  end.

(** [$commitPendingUpdates]; the call itself is recorded. *)
Definition commitPendingUpdates (editor : EditorId)
  (recoveryEditorState : option StateId) : M unit :=
  emit (EvCommit editor recoveryEditorState) >>
  commitPendingUpdatesBody editor recoveryEditorState.

(** *** The update scheduler *)

Definition pushDeferred (editor : EditorId) (callback : Script) : M unit :=
  let* ed := getEditor editor in
  let* d := readDeferred (_deferred ed) in
  writeDeferred (_deferred ed) (d ++ [callback]).

(** The [while (queuedUpdates.length !== 0)] loop of
    [$processNestedUpdates], one test of its condition. *)
Definition processNestedUpdatesLoop (editor : EditorId) (queuedUpdates : Ref)
  (skipTransforms0 : bool) : M bool :=
  let* q := readUpdateQueue queuedUpdates in
  match q with
  | [] => ret skipTransforms0
  | (nextUpdateFn, options) :: rest =>
      writeUpdateQueue queuedUpdates rest >>
      let* ed := getEditor editor in
      let pendingEditorState := _pendingEditorState ed in
      let* skipTransforms1 :=
        match options with
        | Some o =>
            (if discrete o then
               match pendingEditorState with
               | None => invariant_false MsgDiscreteWithoutPending
               | Some p => modifyState p (set_flushSync true)
               end
             else ret tt) >>
            match onUpdate o with
            | Some callback => pushDeferred editor callback
            | None => ret tt
            end >>
            addTags editor (tag o) >>
            ret (skipTransforms o || skipTransforms0)
        | None => ret skipTransforms0
        end in
      match pendingEditorState with
      | None => rec_beginUpdate r editor nextUpdateFn options
      | Some _ => runUpdateFn nextUpdateFn
      end >>
      rec_processNestedUpdates r editor queuedUpdates skipTransforms1
  end.

Definition processNestedUpdates (editor : EditorId)
  (initialSkipTransforms : bool) : M bool :=
  let* ed := getEditor editor in
  processNestedUpdatesLoop editor (_updates ed) initialSkipTransforms.

(** Lines 979-1001: validation of the pending selection. *)
Definition validateSelection (pendingEditorState : StateId) : M unit :=
  let* pen := getState pendingEditorState in
  match _selection pen with
  | Some (RangeSelection anchorKey focusKey _) =>
      let pendingNodeMap := _nodeMap pen in
      match pendingNodeMap !! anchorKey, pendingNodeMap !! focusKey with
      | Some _, Some _ => ret tt
      | _, _ => invariant_false MsgSelectionLost
      end
  | Some (NodeSelection nodes _) =>
      match nodes with
      | [] => modifyState pendingEditorState (set_selection None)
      | _ :: _ => ret tt
      end
  | _ => ret tt
  end.

(** Lines 939-977: the [try] block of [$beginUpdate] up to the validation
    of the selection. *)
Definition beginUpdateMutate (editor : EditorId) (updateFn : UpdateFn)
  (currentEditorState pendingEditorState : StateId)
  (editorStateWasCloned headless skipTransforms0 : bool) : M unit :=
  (if editorStateWasCloned then
     if headless then
       let* cur := getState currentEditorState in
       match _selection cur with
       | Some s => modifyState pendingEditorState (set_selection (Some s))
       | None => ret tt
       end
     else
       let* w := get in
       modifyState pendingEditorState
         (set_selection (internalCreateSelection ext w editor))
   else ret tt) >>
  let* ed := getEditor editor in
  let startingCompositionKey := _compositionKey ed in
  emit (EvUpdateFn editor) >>
  runUpdateFn updateFn >>
  let* skipTransforms1 := processNestedUpdates editor skipTransforms0 in
  let* ed := getEditor editor in
  modifyState pendingEditorState (fun s => applySelectionTransforms ext s ed) >>
  let* ed := getEditor editor in
  (if negb (_dirtyType ed =? NO_DIRTY_NODES)%nat then
     (if skipTransforms1
      then normalizeAllDirtyTextNodes pendingEditorState editor
      else applyAllTransforms pendingEditorState editor) >>
     processNestedUpdates editor false >>
     let* ed := getEditor editor in
     let* cur := getState currentEditorState in
     let* pen := getState pendingEditorState in
     let* leaves := readLeafSet (_dirtyLeaves ed) in
     let* elements := readElementMap (_dirtyElements ed) in
     match garbageCollectDetachedNodes ext cur pen leaves elements with
     | inl error => throw error
     | inr pen' => modifyState pendingEditorState (fun _ => pen')
     end
   else ret tt) >>
  let* ed := getEditor editor in
  let endingCompositionKey := _compositionKey ed in
  when (negb (bool_decide (startingCompositionKey = endingCompositionKey)))
    (modifyState pendingEditorState (set_flushSync true)).

(** Lines 939-1001: the whole [try] block. *)
Definition beginUpdateTry (editor : EditorId) (updateFn : UpdateFn)
  (currentEditorState pendingEditorState : StateId)
  (editorStateWasCloned headless skipTransforms0 : bool) : M unit :=
  beginUpdateMutate editor updateFn currentEditorState pendingEditorState
    editorStateWasCloned headless skipTransforms0 >>
  validateSelection pendingEditorState.

(** Lines 1002-1019: the [catch] block of [$beginUpdate]. *)
Definition beginUpdateCatch (editor : EditorId) (currentEditorState : StateId)
  (error : Thrown) : M unit :=
  reportError editor error >>
  modifyEditor editor (set_pendingEditorState (Some currentEditorState)) >>
  modifyEditor editor (set_dirtyType FULL_RECONCILE) >>
  modifyEditor editor (set_cloneNotNeeded []) >>
  let* leaves := newLeafSet in
  modifyEditor editor (set_dirtyLeaves leaves) >>
  let* ed := getEditor editor in
  writeElementMap (_dirtyElements ed) [] >>
  commitPendingUpdates editor None.

(** Lines 1028-1050: what follows the [try] statement. *)
Definition beginUpdateFinish (editor : EditorId) (pendingEditorState : StateId)
  (editorStateWasCloned : bool) (updateTags : Ref) : M unit :=
  let* ed := getEditor editor in
  let* deferred := readDeferred (_deferred ed) in
  let* pen := getState pendingEditorState in
  let* cur := getState (_editorState ed) in
  let shouldUpdate :=
    negb (_dirtyType ed =? NO_DIRTY_NODES)%nat
    || (0 <? length deferred)%nat
    || editorStateHasDirtySelection ext pen cur in
  if shouldUpdate then
    if _flushSync pen then
      modifyState pendingEditorState (set_flushSync false) >>
      commitPendingUpdates editor None
    else if editorStateWasCloned then scheduleMicroTask editor
    else ret tt
  else
    modifyState pendingEditorState (set_flushSync false) >>
    if editorStateWasCloned then
      writeTags updateTags [] >>
      let* fresh := newDeferredArray in
      modifyEditor editor (set_deferred fresh) >>
      modifyEditor editor (set_pendingEditorState None)
    else ret tt.

(** What [$beginUpdate] has in its local variables when it reaches [try]. *)
Record UpdateFrame := mkUpdateFrame {
  frame_updateTags : Ref;
  frame_skipTransforms : bool;
  frame_currentEditorState : StateId;
  frame_pendingEditorState : StateId;
  frame_editorStateWasCloned : bool;
  frame_previous : option StateId * option EditorId * bool;
  frame_previouslyUpdating : bool;
  frame_headless : bool
}.

(** Lines 898-936: everything before the [try] statement. *)
Definition beginUpdateEnter (editor : EditorId)
  (options : option EditorUpdateOptions) : M UpdateFrame :=
  let* ed := getEditor editor in
  let updateTags := _updateTags ed in
  match options with
  | Some o => addTags editor (tag o)
  | None => ret tt
  end >>
  let skipTransforms0 :=
    match options with Some o => skipTransforms o | None => false end in
  let discrete0 :=
    match options with Some o => discrete o | None => false end in
  match options ≫= onUpdate with
  | Some callback => pushDeferred editor callback
  | None => ret tt
  end >>
  let* ed := getEditor editor in
  let currentEditorState := _editorState ed in
  let* pendingAndCloned :=
    match _pendingEditorState ed with
    | Some p =>
        let* pen := getState p in
        if _readOnly pen then
          let* c := cloneEditorState p in
          modifyEditor editor (set_pendingEditorState (Some c)) >>
          ret (c, true)
        else ret (p, false)
    | None =>
        let* c := cloneEditorState currentEditorState in
        modifyEditor editor (set_pendingEditorState (Some c)) >>
        ret (c, true)
    end in
  let pendingEditorState := pendingAndCloned.1 in
  let editorStateWasCloned := pendingAndCloned.2 in
  modifyState pendingEditorState (set_flushSync discrete0) >>
  let* w := get in
  let previous := ambient w in
  let previouslyUpdating := _updating ed in
  modify (set_activeEditorState (Some pendingEditorState)) >>
  modify (set_isReadOnlyMode false) >>
  modifyEditor editor (set_updating true) >>
  modify (set_activeEditor (Some editor)) >>
  let headless := _headless ed || negb (is_Some_bool (_rootElement ed)) in
  ret {| frame_updateTags := updateTags;
         frame_skipTransforms := skipTransforms0;
         frame_currentEditorState := currentEditorState;
         frame_pendingEditorState := pendingEditorState;
         frame_editorStateWasCloned := editorStateWasCloned;
         frame_previous := previous;
         frame_previouslyUpdating := previouslyUpdating;
         frame_headless := headless |}.

(** Lines 1020-1026: the [finally] block. *)
Definition beginUpdateFinally (editor : EditorId) (f : UpdateFrame)
  (w : World) : World :=
  set_infiniteTransformCount 0
    (updEditor editor (set_updating (frame_previouslyUpdating f))
       (setAmbient (frame_previous f) w)).

(** Lines 938-1026: the [try] statement. *)
Definition beginUpdateGuarded (editor : EditorId) (updateFn : UpdateFn)
  (f : UpdateFrame) : M (Flow unit) :=
  tryFinally
    (tryCatch
       (beginUpdateTry editor updateFn (frame_currentEditorState f)
          (frame_pendingEditorState f) (frame_editorStateWasCloned f)
          (frame_headless f) (frame_skipTransforms f) >>
        ret (Continue tt))
       (fun error =>
          beginUpdateCatch editor (frame_currentEditorState f) error >>
          ret Returned))
    (beginUpdateFinally editor f).

Definition beginUpdate (editor : EditorId) (updateFn : UpdateFn)
  (options : option EditorUpdateOptions) : M unit :=
  let* f := beginUpdateEnter editor options in
  let* flow := beginUpdateGuarded editor updateFn f in
  match flow with
  | Returned => ret tt
  | Continue _ =>
      beginUpdateFinish editor (frame_pendingEditorState f)
        (frame_editorStateWasCloned f) (frame_updateTags f)
  end.

Definition updateEditor (editor : EditorId) (updateFn : UpdateFn)
  (options : option EditorUpdateOptions) : M unit :=
  let* ed := getEditor editor in
  if _updating ed then
    let* q := readUpdateQueue (_updates ed) in
    writeUpdateQueue (_updates ed) (q ++ [(updateFn, options)])
  else beginUpdate editor updateFn options.

(** *** Reading and parsing *)

Definition readEditorState (editor : option EditorId) (editorState : StateId)
  (callbackFn : Script) : M bool :=
  let* w := get in
  let previous := ambient w in
  modify (set_activeEditorState (Some editorState)) >>
  modify (set_isReadOnlyMode true) >>
  modify (set_activeEditor editor) >>
  tryFinally (rec_script r callbackFn) (setAmbient previous).

(** [LexicalEditor.read] of LexicalEditor.ts; [EditorState.read] hands the
    snapshot to [readEditorState]. *)
Definition read (editor : EditorId) (callbackFn : Script) : M bool :=
  commitPendingUpdates editor None >>
  let* ed := getEditor editor in
  readEditorState (Some editor) (_editorState ed) callbackFn.

(** [LexicalEditor.update] of LexicalEditor.ts. *)
Definition update_ (editor : EditorId) (updateFn : Script)
  (options : option EditorUpdateOptions) : M unit :=
  updateEditor editor (UserFn updateFn) options.

(** Modelled from the spec: the node classes' constructor and
    [ElementNode.append], which register the node in the active snapshot
    and mark it dirty. *)
Definition createNode (key : NodeKey) (node : LexicalNode) : M unit :=
  errorOnReadOnly >>
  let* s := getActiveEditorState in
  modifyState s (fun st => set_nodeMap (<[key := node]> (_nodeMap st)) st) >>
  internalMarkNodeAsDirty key.

Definition set_parent (p : option NodeKey) (n : LexicalNode) : LexicalNode :=
  {| __type := __type n; __parent := p;
     isElementNode := isElementNode n; isTextNode := isTextNode n;
     isSimpleText := isSimpleText n; isUnmergeable := isUnmergeable n;
     attached := attached n |}.

Definition appendChild (parent child : NodeKey) : M unit :=
  errorOnReadOnly >>
  let* s := getActiveEditorState in
  modifyState s (fun st =>
    set_nodeMap (alter (set_parent (Some parent)) child (_nodeMap st)) st) >>
  internalMarkNodeAsDirty child.

Fixpoint parseSerializedNodeImpl (serializedNode : SerializedLexicalNode)
  (registeredNodes : gmap string RegisteredNode) : M NodeKey :=
  match serializedNode with
  | mkSerialized type key children =>
      match registeredNodes !! type with
      | None => invariant_false MsgTypeNotFound
      | Some registeredNode =>
          if negb (bool_decide (type = klass_getType registeredNode))
          then invariant_false MsgNoImportJSON
          else
            let node := importJSON ext type in
            createNode key node >>
            match children with
            | Some cs =>
                if isElementNode node then
                  (fix appendAll (cs : list SerializedLexicalNode) : M unit :=
                     match cs with
                     | [] => ret tt
                     | c :: cs' =>
                         let* childNode :=
                           parseSerializedNodeImpl c registeredNodes in
                         appendChild key childNode >> appendAll cs'
                     end) cs
                else ret tt
            | None => ret tt
            end >>
            ret key
      end
  end.

Definition parseEditorState (serializedEditorState : SerializedLexicalNode)
  (editor : EditorId) (updateFn : option Script) : M StateId :=
  let* editorState := createEmptyEditorState in
  let* w := get in
  let previous := ambient w in
  let* ed := getEditor editor in
  let previousDirtyElements := _dirtyElements ed in
  let previousDirtyLeaves := _dirtyLeaves ed in
  let previousCloneNotNeeded := _cloneNotNeeded ed in
  let previousDirtyType := _dirtyType ed in
  let* elements := newElementMap in
  modifyEditor editor (set_dirtyElements elements) >>
  let* leaves := newLeafSet in
  modifyEditor editor (set_dirtyLeaves leaves) >>
  modifyEditor editor (set_cloneNotNeeded []) >>
  modifyEditor editor (set_dirtyType 0) >>
  modify (set_activeEditorState (Some editorState)) >>
  modify (set_isReadOnlyMode false) >>
  modify (set_activeEditor (Some editor)) >>
  tryFinally
    (tryCatch
       (let* ed := getEditor editor in
        let registeredNodes := _nodes ed in
        parseSerializedNodeImpl serializedEditorState registeredNodes >>
        match updateFn with
        | Some f => rec_script r f >> ret tt
        | None => ret tt
        end >>
        modifyState editorState (set_readOnly true))
       (fun error => reportError editor error))
    (fun w =>
       setAmbient previous
         (updEditor editor
            (fun e =>
               set_dirtyType previousDirtyType
                 (set_cloneNotNeeded previousCloneNotNeeded
                    (set_dirtyLeaves previousDirtyLeaves
                       (set_dirtyElements previousDirtyElements e)))) w)) >>
  ret editorState.

(** *** User code *)

Definition runScript (s : Script) : M bool :=
  match s with
  | SSkip => ret false
  | SSeq a b => rec_script r a >> rec_script r b
  | SEmit n => emit (EvEmit n) >> ret false
  | SThrow t => throw t
  | SReturn b => ret b
  | SUpdate editor updateFn options =>
      update_ editor updateFn options >> ret false
  | SRead editor callbackFn => read editor callbackFn
  | SDispatchCommand editor type => dispatchCommand editor type
  | SMarkDirty key =>
      errorOnReadOnly >> internalMarkNodeAsDirty key >> ret false
  | SRemoveNode key =>
      errorOnReadOnly >>
      let* s := getActiveEditorState in
      modifyState s (fun st => set_nodeMap (delete key (_nodeMap st)) st) >>
      ret false
  | SSetSelection sel =>
      errorOnReadOnly >>
      let* s := getActiveEditorState in
      modifyState s (set_selection sel) >> ret false
  | SSetCompositionKey key =>
      errorOnReadOnly >>
      let* editor := getActiveEditor in
      modifyEditor editor (set_compositionKey key) >> ret false
  end.

End Core.

(** ** Closing the recursion *)

Definition outOfFuel : Rec :=
  {| rec_script := fun _ _ => OutOfFuel;
     rec_beginUpdate := fun _ _ _ _ => OutOfFuel;
     rec_commitPendingUpdates := fun _ _ _ => OutOfFuel;
     rec_processNestedUpdates := fun _ _ _ _ => OutOfFuel;
     rec_applyAllTransforms := fun _ _ _ _ => OutOfFuel;
     rec_normalizeAllDirtyTextNodes := fun _ _ _ _ _ => OutOfFuel |}.

Definition step (ext : Collaborators) (r : Rec) : Rec :=
  {| rec_script := runScript ext r;
     rec_beginUpdate := beginUpdate ext r;
     rec_commitPendingUpdates := commitPendingUpdates ext r;
     rec_processNestedUpdates := processNestedUpdatesLoop r;
     rec_applyAllTransforms := applyAllTransformsLoop ext r;
     rec_normalizeAllDirtyTextNodes := normalizeAllDirtyTextNodesLoop ext r |}.

(** [knot ext fuel]: every entry point, allowed [fuel] nested calls. *)
Fixpoint knot (ext : Collaborators) (fuel : nat) : Rec :=
  match fuel with
  | 0 => outOfFuel
  | S n => step ext (knot ext n)
  end.
(** ** [LexicalEditor.ts] *)

Section Editor.
Variable r : Rec.

(** [LexicalEditor.setEditable] of LexicalEditor.ts. *)
Definition setEditable (editor : EditorId) (editable : bool) : M unit :=
  let* ed := getEditor editor in
  if negb (bool_decide (_editable ed = editable)) then
    modifyEditor editor (set_editable editable) >>
    triggerListeners r LEditable editor true
  else ret tt.
End Editor.



(** ** Concrete worlds

    Collaborators that do nothing, and editors over a small document; the
    worlds against which the statements below are tried. *)

Definition simpleNode (type : string) (parent : option NodeKey)
  (element : bool) : LexicalNode :=
  {| __type := type; __parent := parent; isElementNode := element;
     isTextNode := false; isSimpleText := false; isUnmergeable := false;
     attached := true |}.

Definition inertCollaborators : Collaborators :=
  {| internalCreateSelection := fun _ _ => None;
     applySelectionTransforms := fun s _ => s;
     garbageCollectDetachedNodes := fun _ pen _ _ => inr pen;
     garbageCollectDetachedDecorators := fun e _ => e;
     editorStateHasDirtySelection := fun _ _ => false;
     getEditorStateTextContent := fun _ => "";
     getDOMSelection := fun _ => false;
     normalizeTextNode := fun _ => SSkip;
     importJSON := fun type => simpleNode type None true;
     onError := fun _ _ => SSkip |}.

(** The same with an error sink that throws. *)
Definition throwingSink : Collaborators :=
  {| internalCreateSelection := fun _ _ => None;
     applySelectionTransforms := fun s _ => s;
     garbageCollectDetachedNodes := fun _ pen _ _ => inr pen;
     garbageCollectDetachedDecorators := fun e _ => e;
     editorStateHasDirtySelection := fun _ _ => false;
     getEditorStateTextContent := fun _ => "";
     getDOMSelection := fun _ => false;
     normalizeTextNode := fun _ => SSkip;
     importJSON := fun type => simpleNode type None true;
     onError := fun _ _ => SThrow (NonError 9) |}.

Definition noListeners : Listeners :=
  {| decorator := []; editable := []; mutation := []; root := [];
     textcontent := []; update := [] |}.

(** An update listener that throws a value that is no [Error]. *)
Definition throwingUpdateListener : Listeners :=
  {| decorator := []; editable := []; mutation := []; root := [];
     textcontent := []; update := [SThrow (NonError 8)] |}.

(** A freshly created editor: [new LexicalEditor(...)] with the collections
    of editor [id] at the references [5 * id .. 5 * id + 4]. *)
Definition newEditor (id : EditorId) (parent : option EditorId)
  (headless : bool) (nodes : gmap string RegisteredNode) : LexicalEditor :=
  {| _headless := headless; _parentEditor := parent;
     _rootElement := if headless then None else Some 1;
     _editorState := id; _pendingEditorState := None;
     _compositionKey := None; _deferred := 5 * id; _keyToDOMMap := ∅;
     _updates := 5 * id + 1; _updating := false; _listeners := noListeners;
     _commands := ∅; _nodes := nodes; _decorators := 0;
     _pendingDecorators := None; _dirtyType := NO_DIRTY_NODES;
     _cloneNotNeeded := []; _dirtyLeaves := 5 * id + 2;
     _dirtyElements := 5 * id + 3; _normalizedNodes := [];
     _updateTags := 5 * id + 4;
     _observer := if headless then None else Some 0;
     _editable := true; _blockCursorElement := None |}.

(** root > paragraph "p" > leaf "t", committed. *)
Definition documentState : EditorState :=
  {| _nodeMap :=
       <["t" := simpleNode "leaf" (Some "p") false]>
         (<["p" := simpleNode "paragraph" (Some "root") true]>
            {["root" := rootNode]});
     _selection := None; _flushSync := false; _readOnly := true |}.

(** [n] editors, each with [documentState] as its current state. *)
Definition newWorld (n : nat) (eds : EditorId -> LexicalEditor) : World :=
  {| activeEditorState := None; activeEditor := None; isReadOnlyMode := false;
     isAttemptingToRecoverFromReconcilerError := false;
     infiniteTransformCount := 0;
     editors := eds; editorCount := n;
     states := fun _ => documentState; nextState := n;
     leafSets := fun _ => []; elementMaps := fun _ => [];
     updateQueues := fun _ => []; deferredArrays := fun _ => [];
     tagSets := fun _ => []; nextRef := 5 * n;
     cells := fun _ => false; nextCell := 0;
     reconciler := []; microtasks := []; trace := [] |}.


(** The errors that reached the error sink, in order. *)
Fixpoint errorsReported (tr : list Event) : list (EditorId * ErrorMessage) :=
  match tr with
  | [] => []
  | EvOnError e m :: tr' => (e, m) :: errorsReported tr'
  | _ :: tr' => errorsReported tr'
  end.

(** A headless editor that has entered an update cycle. *)
Definition updatingWorld : World :=
  match
    beginUpdateEnter 0 None (newWorld 1 (fun id => newEditor id None true ∅))
  with
  | Ok _ ws => ws
  | _ => newWorld 0 (fun id => newEditor id None true ∅)
  end.

(** The world in which the [try] block of that cycle reaches the validation
    of the selection. *)
Definition mutatedWorld (updateFn : UpdateFn) : World :=
  match
    beginUpdateMutate inertCollaborators (knot inertCollaborators 5) 0
      updateFn 0 1 true true false updatingWorld
  with
  | Ok _ wm => wm
  | _ => updatingWorld
  end.

(** ** More concrete worlds *)

(** Collaborators for which the text content of a snapshot is the type of
    its node ["t"]. *)
Definition textCollaborators : Collaborators :=
  {| internalCreateSelection := fun _ _ => None;
     applySelectionTransforms := fun s _ => s;
     garbageCollectDetachedNodes := fun _ pen _ _ => inr pen;
     garbageCollectDetachedDecorators := fun e _ => e;
     editorStateHasDirtySelection := fun _ _ => false;
     getEditorStateTextContent := fun s =>
       match _nodeMap s !! "t" with
       | Some n => __type n
       | None => ""
       end;
     getDOMSelection := fun _ => false;
     normalizeTextNode := fun _ => SSkip;
     importJSON := fun type => simpleNode type None true;
     onError := fun _ _ => SSkip |}.

Definition loggingListeners : Listeners :=
  {| decorator := []; editable := [SEmit 5];
     mutation := [(SEmit 4, ["paragraph"; "leaf"])]; root := [];
     textcontent := [SEmit 3]; update := [SEmit 1; SEmit 2] |}.

(** One editor with logging listeners, a deferred callback, and a pending
    snapshot (state 1) in which node ["t"] has become a heading. *)
Definition notifyingWorld (headless : bool) : World :=
  set_deferredArrays (upd 0 [SEmit 6] (fun _ => []))
    (set_nextState 2
       (set_states
          (upd 1
             (set_nodeMap
                (<["t" := simpleNode "heading" (Some "p") false]>
                   (_nodeMap documentState))
                (set_readOnly false documentState))
             (fun _ => documentState))
          (newWorld 1 (fun id =>
             set_listeners loggingListeners
               (set_dirtyType HAS_DIRTY_NODES
                  (set_pendingEditorState (Some 1)
                     (newEditor id None headless ∅))))))).

(** An updating editor with two updates waiting. *)
Definition drainingWorld : World :=
  set_updateQueues
    (upd 1 [(UserFn (SEmit 1), None);
            (UserFn (SEmit 2), Some (mkOptions None true None false))]
       (fun _ => []))
    (newWorld 1 (fun id =>
       set_updating true
         (set_pendingEditorState (Some 0) (newEditor id None true ∅)))).


(** The listeners of a command by priority, lowest first: the second
    listener of priority 2 accepts the command. *)
Definition commandListeners : list (list Script) :=
  [[SEmit 1]; []; [SEmit 2; SSeq (SEmit 3) (SReturn true); SEmit 4]; [];
   [SEmit 5]].

(** An editor in an update of its own, with listeners for command 7 (one of
    which accepts it) and for command 8 (which all decline). *)
Definition commandWorld : World :=
  set_activeEditor (Some 0)
    (set_activeEditorState (Some 0)
       (newWorld 1 (fun id =>
          set_updating true
            (set_pendingEditorState (Some 0)
               (set_commands
                  (<[8 := [[SEmit 1]; []; []; []; [SEmit 5]]]>
                     {[7 := commandListeners]})
                  (newEditor id None true ∅)))))).

(** Listeners the second of which throws, for the update event. *)
Definition faultyListeners : Listeners :=
  {| decorator := []; editable := []; mutation := []; root := [];
     textcontent := [SEmit 3];
     update := [SEmit 1; SSeq (SEmit 2) (SThrow (NonError 7)); SEmit 4] |}.

(** The editor of [notifyingWorld] with these listeners, and with three
    deferred callbacks the second of which throws. *)
Definition faultyWorld : World :=
  updEditor 0 (set_listeners faultyListeners)
    (set_deferredArrays
       (upd 0 [SEmit 6; SSeq (SEmit 7) (SThrow (NonError 7)); SEmit 8]
          (fun _ => []))
       (notifyingWorld true)).

(** The editor of [notifyingWorld] with pending decorators and a decorator
    listener. *)
Definition decoratingWorld : World :=
  updEditor 0
    (fun e =>
       set_pendingDecorators (Some 3)
         (set_listeners
            {| decorator := [SEmit 9]; editable := []; mutation := [];
               root := []; textcontent := [SEmit 3];
               update := [SEmit 1; SEmit 2] |} e))
    (notifyingWorld true).

(** * Vocabulary of the statements *)

Close Scope string_scope.

(** [wp m Q E w]: started in [w], [m] ends in [Q] when it returns and in
    [E] when it throws. *)
Definition wp {A} (m : M A) (Q : A -> World -> Prop)
  (E : Thrown -> World -> Prop) (w : World) : Prop :=
  match m w with
  | Ok a w' => Q a w'
  | Throw t w' => E t w'
  | OutOfFuel => True
  end.

(** [m] keeps [I] on every exit path. *)
Definition keeps (I : World -> Prop) {A} (m : M A) : Prop :=
  forall w, I w -> wp m (fun _ w' => I w') (fun _ w' => I w') w.

(** [m] establishes [I] on every exit path, whatever it started from. *)
Definition forces (I : World -> Prop) {A} (m : M A) : Prop :=
  forall w, wp m (fun _ w' => I w') (fun _ w' => I w') w.

(** [m] keeps [I] until it returns, and then [Q] holds. *)
Definition keepsTo (I : World -> Prop) {A} (m : M A)
  (Q : A -> World -> Prop) : Prop :=
  forall w, I w -> wp m Q (fun _ w' => I w') w.

(** Events other than the start of a recovery commit. *)
Definition plainEvent (ev : Event) : Prop :=
  match ev with
  | EvCommit _ (Some _) => False
  | _ => True
  end.

(** [I] does not depend on the heap, the counters or the plain events. *)
Record Stable (I : World -> Prop) : Prop := mkStable {
  st_editors : forall v w, I w -> I (set_editors v w);
  st_states : forall v w, I w -> I (set_states v w);
  st_nextState : forall v w, I w -> I (set_nextState v w);
  st_leafSets : forall v w, I w -> I (set_leafSets v w);
  st_elementMaps : forall v w, I w -> I (set_elementMaps v w);
  st_updateQueues : forall v w, I w -> I (set_updateQueues v w);
  st_deferredArrays : forall v w, I w -> I (set_deferredArrays v w);
  st_tagSets : forall v w, I w -> I (set_tagSets v w);
  st_nextRef : forall v w, I w -> I (set_nextRef v w);
  st_cells : forall v w, I w -> I (set_cells v w);
  st_nextCell : forall v w, I w -> I (set_nextCell v w);
  st_reconciler : forall v w, I w -> I (set_reconciler v w);
  st_microtasks : forall v w, I w -> I (set_microtasks v w);
  st_infiniteTransformCount :
    forall v w, I w -> I (set_infiniteTransformCount v w);
  st_trace :
    forall ev w, plainEvent ev -> I w -> I (set_trace (trace w ++ [ev]) w)
}.

(** What an invariant asks of the entry points that a function reenters.
    [okRecovery] says with which [recoveryEditorState] a commit may be
    reentered. *)
Record RecKeeps (I : World -> Prop) (okRecovery : option StateId -> Prop)
  (r : Rec) : Prop := mkRecKeeps {
  rk_script : forall s, keeps I (rec_script r s);
  rk_beginUpdate : forall e f o, keeps I (rec_beginUpdate r e f o);
  rk_commitPendingUpdates :
    forall e rc, okRecovery rc -> keeps I (rec_commitPendingUpdates r e rc);
  rk_processNestedUpdates :
    forall e q b, keeps I (rec_processNestedUpdates r e q b);
  rk_applyAllTransforms :
    forall s e l, keeps I (rec_applyAllTransforms r s e l);
  rk_normalizeAllDirtyTextNodes :
    forall s e q i, keeps I (rec_normalizeAllDirtyTextNodes r s e q i)
}.

(** The ambient context is [a]. *)
Definition ambientIs (a : option StateId * option EditorId * bool) (w : World)
  : Prop :=
  ambient w = a.

(** On every exit path of [m] from [w] the ambient context is the one of
    [w]. *)
Definition restoresAmbient {A} (m : M A) (w : World) : Prop :=
  match m w with
  | Ok _ w' | Throw _ w' => ambient w' = ambient w
  | OutOfFuel => True
  end.


(** The error sink of [editor], called through [r], returns and does
    nothing else, whatever it is handed and wherever it is called. *)
Definition sinkReturns (ext : Collaborators) (r : Rec) (editor : EditorId)
  : Prop :=
  forall msg w, exists b, rec_script r (onError ext editor msg) w = Ok b w.

(** The same at every depth of calls from [d] on. *)
Definition sinkReturnsFrom (ext : Collaborators) (d : nat) (editor : EditorId)
  : Prop :=
  forall k, d <= k -> sinkReturns ext (knot ext k) editor.




Definition reconcileEvent (w : World) (editor : EditorId) (p : StateId)
  : Event :=
  EvReconcile editor (_editorState (editors w editor)) p
    (_dirtyType (editors w editor))
    (elementMaps w (_dirtyElements (editors w editor)))
    (leafSets w (_dirtyLeaves (editors w editor))).

Definition isRecoveryCommit (ev : Event) : bool :=
  match ev with
  | EvCommit _ (Some _) => true
  | _ => false
  end.

(** The commits that were started as a recovery, in order. *)
Definition recoveryCommits (tr : list Event) : list Event :=
  List.filter isRecoveryCommit tr.

(** A recovery is in progress and [l] are the recovery commits so far. *)
Definition recovering (l : list Event) (w : World) : Prop :=
  isAttemptingToRecoverFromReconcilerError w = true /\
  recoveryCommits (trace w) = l.


(** What the [catch] block of [$beginUpdate] has done when it invokes the
    commit: [wc] is the world [wr] that the report of the error left, after
    the replacement of the pending snapshot and the reset of the dirty
    tracker. *)
Record CycleAborted (wr wc : World) (editor : EditorId)
  (currentEditorState : StateId) : Prop := {
  ca_trace : trace wc = trace wr;
  ca_dirtyLeaves : leafSets wc (_dirtyLeaves (editors wc editor)) = [];
  ca_dirtyElements : elementMaps wc (_dirtyElements (editors wc editor)) = [];
  ca_pending :
    _pendingEditorState (editors wc editor) = Some currentEditorState;
  ca_dirtyType : _dirtyType (editors wc editor) = FULL_RECONCILE;
  ca_microtasks : microtasks wc = microtasks wr
}.

(** The pending selection of [pen] is a range selection one of whose points
    names a key that the node map of [pen] no longer has. *)
Definition selectionLost (pen : EditorState) : Prop :=
  exists anchorKey focusKey dirty,
    _selection pen = Some (RangeSelection anchorKey focusKey dirty) /\
    (_nodeMap pen !! anchorKey = None \/ _nodeMap pen !! focusKey = None).

(** The pending selection of [pen] is a node selection without nodes. *)
Definition selectionEmptied (pen : EditorState) : Prop :=
  exists dirty, _selection pen = Some (NodeSelection [] dirty).

Create HintDb keeps.

Ltac stable HI :=
  intros; unfold updEditor;
  repeat first
    [ assumption
    | apply (st_editors _ HI) | apply (st_states _ HI)
    | apply (st_nextState _ HI) | apply (st_leafSets _ HI)
    | apply (st_elementMaps _ HI) | apply (st_updateQueues _ HI)
    | apply (st_deferredArrays _ HI) | apply (st_tagSets _ HI)
    | apply (st_nextRef _ HI) | apply (st_cells _ HI)
    | apply (st_nextCell _ HI) | apply (st_reconciler _ HI)
    | apply (st_microtasks _ HI)
    | apply (st_infiniteTransformCount _ HI)
    | apply (st_trace _ HI); [exact Logic.I |] ].

Ltac head_of t :=
  lazymatch t with
  | ?f _ => head_of f
  | _ => t
  end.

(** A primitive: one look at the world, one update of it. *)
Ltac keeps_prim solver :=
  let w := fresh "w" in
  let Hw := fresh "Hw" in
  intros w Hw; unfold wp; cbn;
  repeat case_match; simplify_eq; cbn; solver.
(** ** Vocabulary of the further properties *)

(** Script [s], run through [r], does nothing but log the events [evs]. *)
Definition logsOnly (r : Rec) (s : Script) (evs : list Event) : Prop :=
  forall w, exists b, rec_script r s w = Ok b (set_trace (trace w ++ evs) w).

(** What callbacks are seen to do when they are called in turn, callback
    [i + j] being announced by the event [mark (i + j)] and logging
    [outs !! j]. *)
Fixpoint callbackEvents (mark : nat -> Event) (i : nat)
  (outs : list (list Event)) : list Event :=
  match outs with
  | [] => []
  | evs :: outs' => mark i :: evs ++ callbackEvents mark (S i) outs'
  end.

(** [w'] is [w] but for its trace: the module-level bindings, every editor,
    every snapshot and every shared collection are as in [w]. *)
Record sameButTrace (w w' : World) : Prop := {
  sbt_ambient : ambient w' = ambient w;
  sbt_recovering :
    isAttemptingToRecoverFromReconcilerError w' =
      isAttemptingToRecoverFromReconcilerError w;
  sbt_count : infiniteTransformCount w' = infiniteTransformCount w;
  sbt_editors : forall e, editors w' e = editors w e;
  sbt_states : forall s, states w' s = states w s;
  sbt_leafSets : forall q, leafSets w' q = leafSets w q;
  sbt_elementMaps : forall q, elementMaps w' q = elementMaps w q;
  sbt_updateQueues : forall q, updateQueues w' q = updateQueues w q;
  sbt_deferredArrays : forall q, deferredArrays w' q = deferredArrays w q;
  sbt_tagSets : forall q, tagSets w' q = tagSets w q;
  sbt_cells : forall c, cells w' c = cells w c;
  sbt_next :
    (nextState w', nextRef w', nextCell w') =
      (nextState w, nextRef w, nextCell w);
  sbt_reconciler : reconciler w' = reconciler w;
  sbt_microtasks : microtasks w' = microtasks w
}.

(** Script [s] does nothing but log [evs], at every depth of calls from
    [d] on. *)
Definition logsAt (ext : Collaborators) (d : nat) (s : Script)
  (evs : list Event) : Prop :=
  forall k, d <= k -> logsOnly (knot ext k) s evs.

(** The queue entry of an update function with its options. *)
Definition queued (entry : Script * option EditorUpdateOptions)
  : UpdateFn * option EditorUpdateOptions :=
  (UserFn entry.1, entry.2).

(** Whether one of the options asks to skip the transforms. *)
Definition anySkipTransforms (os : list (option EditorUpdateOptions)) : bool :=
  existsb (fun o => match o with Some o => skipTransforms o | None => false end)
    os.

(** The editor after [editor._deferred = []]: the fresh array is at the
    next free reference. *)
Definition withFreshDeferred (editor : EditorId) (w : World) : World :=
  set_editors
    (upd editor (set_deferred (nextRef w) (editors w editor)) (editors w))
    (set_nextRef (S (nextRef w))
       (set_deferredArrays (upd (nextRef w) [] (deferredArrays w)) w)).

(** What the mutation listeners are seen to do for the mutated classes
    [mutatedNodes]: listener [i + j] has the class set [entries !! j] and
    logs [outs !! j] at each call. *)
Fixpoint mutationEvents (editor : EditorId) (mutatedNodes : MutatedNodes)
  (i : nat) (klassSets : list (list string)) (outs : list (list Event))
  : list Event :=
  match klassSets, outs with
  | klassSet :: klassSets', evs :: outs' =>
      concat
        (map (fun klass =>
                if bool_decide (klass ∈ mutatedNodes)
                then EvMutationListener editor i klass :: evs
                else [])
           klassSet) ++
      mutationEvents editor mutatedNodes (S i) klassSets' outs'
  | _, _ => []
  end.

(** The test of lines 670-674: the pending selection is not a range
    selection, not null, and not the current selection. *)
Definition selectionChanged (currentSelection pendingSelection
  : option BaseSelection) : bool :=
  match pendingSelection with
  | Some p =>
      negb (isRangeSelection pendingSelection) &&
      match currentSelection with
      | None => true
      | Some c => negb (selection_is c p)
      end
  | None => false
  end.

(** Nothing but logging callbacks is waiting for the end of a commit of
    [editor]: no decorators, no queued update, and listeners and deferred
    callbacks that log [outsM], [outsT], [outsU] and [outsD]. *)
Record QuietNotification (r : Rec) (w : World) (editor : EditorId)
  (deferred : Ref) (outsM outsT outsU outsD : list (list Event)) : Prop := {
  qn_decorators : _pendingDecorators (editors w editor) = None;
  qn_mutation :
    Forall2 (fun entry evs => logsOnly r entry.1 evs)
      (mutation (_listeners (editors w editor))) outsM;
  qn_textcontent :
    Forall2 (logsOnly r) (textcontent (_listeners (editors w editor))) outsT;
  qn_update :
    Forall2 (logsOnly r) (update (_listeners (editors w editor))) outsU;
  qn_allocated : deferred < nextRef w;
  qn_deferred : Forall2 (logsOnly r) (deferredArrays w deferred) outsD;
  qn_updates : updateQueues w (_updates (editors w editor)) = []
}.

(** What [commitNotify] is seen to do then, in order. *)
Definition notificationEvents (ext : Collaborators) (w : World)
  (editor : EditorId) (prev pen : StateId)
  (mutatedNodes : option MutatedNodes)
  (outsM outsT outsU outsD : list (list Event)) : list Event :=
  match mutatedNodes with
  | Some m =>
      mutationEvents editor m 0 (mutation (_listeners (editors w editor))).*2
        outsM
  | None => []
  end ++
  (if bool_decide (getEditorStateTextContent ext (states w prev) =
                   getEditorStateTextContent ext (states w pen))
   then []
   else callbackEvents (EvListener LTextContent editor) 0 outsT) ++
  callbackEvents (EvListener LUpdate editor) 0 outsU ++
  callbackEvents (EvDeferred editor) 0 outsD.

(** The world after lines 583-610 of a commit of [editor]: the pending
    snapshot [p] is frozen and, when the commit had something to render,
    the dirty tracker is empty again. *)
Definition freezePending (p : StateId) (w : World) : World :=
  if _readOnly (states w p) then w
  else set_states (upd p (set_readOnly true (states w p)) (states w)) w.

Definition resetDirtyTracker (editor : EditorId) (w : World) : World :=
  let r := nextRef w in
  set_editors
    (upd editor
       (set_updateTags (S (S r))
          (set_normalizedNodes []
             (set_dirtyElements (S r)
                (set_dirtyLeaves r
                   (set_cloneNotNeeded []
                      (set_dirtyType NO_DIRTY_NODES (editors w editor)))))))
       (editors w))
    (set_nextRef (S (S (S r)))
       (set_tagSets (upd (S (S r)) [] (tagSets w))
          (set_elementMaps (upd (S r) [] (elementMaps w))
             (set_leafSets (upd r [] (leafSets w)) w)))).

(** The world after lines 531-532 of a commit of [editor]: the pending
    snapshot [p] is the current one. *)
Definition published (editor : EditorId) (rc : option StateId) (p : StateId)
  (w : World) : World :=
  set_editors
    (upd editor
       (set_editorState p (set_pendingEditorState None (editors w editor)))
       (upd editor (set_pendingEditorState None (editors w editor))
          (editors w)))
    (set_trace (trace w ++ [EvCommit editor rc]) w).

(** The test of line 534: the commit of [editor] will call the renderer. *)
Definition rendersOnCommit (ed : LexicalEditor) : bool :=
  negb (_headless ed || negb (is_Some_bool (_rootElement ed)))
  && negb (_dirtyType ed =? NO_DIRTY_NODES)%nat
  && is_Some_bool (_observer ed).

(** The next call of the renderer returns the mutated node classes [m];
    [rest] is what later calls will do. *)
Definition rendererReturns (w : World) (m : MutatedNodes)
  (rest : list ReconcileOutcome) : Prop :=
  reconciler w = Reconciled m :: rest \/
  (reconciler w = [] /\ m = [] /\ rest = []).

(** The world after a rendering section of the commit of [editor] in which
    the renderer returned. *)
Definition rendered (editor : EditorId) (cur p : StateId)
  (rest : list ReconcileOutcome) (w : World) : World :=
  set_reconciler rest
    (set_trace
       (trace w ++
        [EvReconcile editor cur p (_dirtyType (editors w editor))
           (elementMaps w (_dirtyElements (editors w editor)))
           (leafSets w (_dirtyLeaves (editors w editor)))]) w).


(** The world in which the callback of [readEditorState] runs. *)
Definition reading (editor : option EditorId) (editorState : StateId)
  (w : World) : World :=
  set_activeEditor editor
    (set_isReadOnlyMode true
       (set_activeEditorState (Some editorState) w)).

(** What [try { return callbackFn(); } finally { ... }] makes of the outcome
    of the callback. *)
Definition restoring (previous : World) (outcome : Result bool) : Result bool :=
  match outcome with
  | Ok b w' => Ok b (setAmbient (ambient previous) w')
  | Throw t w' => Throw t (setAmbient (ambient previous) w')
  | OutOfFuel => OutOfFuel
  end.

(** The primitives of user code that write to the active snapshot or to the
    active editor. *)
Definition isMutation (s : Script) : bool :=
  match s with
  | SMarkDirty _ | SRemoveNode _ | SSetSelection _ | SSetCompositionKey _ =>
      true
  | _ => false
  end.

(** Whether the tail of [$beginUpdate] finds something to commit. *)
Definition shouldUpdate (ext : Collaborators) (w : World) (editor : EditorId)
  (pendingEditorState : StateId) : bool :=
  negb (_dirtyType (editors w editor) =? NO_DIRTY_NODES)%nat
  || (0 <? length (deferredArrays w (_deferred (editors w editor))))%nat
  || editorStateHasDirtySelection ext (states w pendingEditorState)
       (states w (_editorState (editors w editor))).

(** Script [s], run through [r], logs the events [evs], does nothing else
    and returns [b]. *)
Definition answers (r : Rec) (b : bool) (s : Script) (evs : list Event)
  : Prop :=
  forall w, rec_script r s w = Ok b (set_trace (trace w ++ evs) w).

(** What the command listeners of the priorities [n] down to [i + 1] of
    editor [e] are seen to do when they all decline, the listeners of
    priority [k] logging [outs k]. *)
Definition declinedEvents (e : EditorId) (type : Command)
  (outs : nat -> list (list Event)) (i n : nat) : list Event :=
  concat
    (map (fun k => callbackEvents (EvCommandListener e type k) 0 (outs k))
       (rev (seq (S i) (n - i)))).

(** Script [s], run through [r], logs the events [evs] and then throws
    [t]. *)
Definition throwsAfter (r : Rec) (s : Script) (evs : list Event) (t : Thrown)
  : Prop :=
  forall w, rec_script r s w = Throw t (set_trace (trace w ++ evs) w).

(** The world after [editor._decorators = pendingDecorators;
    editor._pendingDecorators = null]. *)
Definition decorated (editor : EditorId) (d : nat) (w : World) : World :=
  updEditor editor (set_pendingDecorators None)
    (updEditor editor (set_decorators d) w).

(** What the loop of [$processNestedUpdates] needs of the world between two queued updates. *)
Definition draining (eds : EditorId -> LexicalEditor) (q : Ref)
  (rest : list (UpdateFn * option EditorUpdateOptions)) (tr : list Event)
  (w : World) : Prop :=
  updateQueues w q = rest /\ editors w = eds /\ trace w = tr.

(** The tags that [addTags] goes through: none when the tag is missing or
    is the empty string ([if (!tags) return]), the tag itself when it is
    one string, the elements of the array when it is an array. *)
Definition tagsGiven (tags : option UpdateTags) : list string :=
  match tags with
  | None => []
  | Some (OneTag t) => if bool_decide (t = EmptyString) then [] else [t]
  | Some (ManyTags ts) => ts
  end.

(** * Reasoning about computations *)

Lemma wp_mono {A} (m : M A) (Q Q' : A -> World -> Prop)
  (E E' : Thrown -> World -> Prop) w :
  wp m Q E w ->
  (forall a w', Q a w' -> Q' a w') ->
  (forall t w', E t w' -> E' t w') ->
  wp m Q' E' w.
Proof. unfold wp. destruct (m w); auto. Qed.

Lemma wp_ret {A} (a : A) Q E w : Q a w -> wp (ret a) Q E w.
Proof. done. Qed.

Lemma wp_throw {A} t (Q : A -> World -> Prop) E w :
  E t w -> wp (throw t) Q E w.
Proof. done. Qed.

Lemma wp_bind {A B} (m : M A) (k : A -> M B) Q E w :
  wp m (fun a w' => wp (k a) Q E w') E w -> wp (bind m k) Q E w.
Proof. unfold wp, bind. destruct (m w); auto. Qed.

Lemma wp_bind_inv {A B} (m : M A) (k : A -> M B) Q E w :
  wp (bind m k) Q E w -> wp m (fun a w' => wp (k a) Q E w') E w.
Proof. unfold wp, bind. destruct (m w); auto. Qed.

Lemma wp_tryCatch {A} (body : M A) handler Q E w :
  wp body Q (fun t w' => wp (handler t) Q E w') w ->
  wp (tryCatch body handler) Q E w.
Proof. unfold wp, tryCatch. destruct (body w); auto. Qed.

Lemma wp_tryFinally {A} (body : M A) fin Q E w :
  wp body (fun a w' => Q a (fin w')) (fun t w' => E t (fin w')) w ->
  wp (tryFinally body fin) Q E w.
Proof. unfold wp, tryFinally. destruct (body w); auto. Qed.

(** ** Invariants of the world *)

Section Keeps.

Variable I : World -> Prop.

Lemma forces_keeps {A} (m : M A) : forces I m -> keeps I m.
Proof. intros H w _. apply H. Qed.

Lemma keeps_ret {A} (a : A) : keeps I (ret a).
Proof. intros w H. exact H. Qed.

Lemma keeps_throw {A} t : keeps I (throw (A := A) t).
Proof. intros w H. exact H. Qed.

Lemma keeps_invariant_false {A} msg : keeps I (invariant_false (A := A) msg).
Proof. intros w H. exact H. Qed.

Lemma keeps_bind {A B} (m : M A) (k : A -> M B) :
  keeps I m -> (forall a, keeps I (k a)) -> keeps I (bind m k).
Proof.
  intros Hm Hk w Hw. apply wp_bind. eapply wp_mono; [apply Hm, Hw | | auto].
  intros a w' Hw'. apply Hk, Hw'.
Qed.

Lemma keeps_bind_get {B} (k : World -> M B) :
  (forall w0, I w0 -> keeps I (k w0)) -> keeps I (bind get k).
Proof. intros Hk w Hw. apply wp_bind. apply (Hk w Hw w Hw). Qed.

Lemma keeps_get : keeps I get.
Proof. intros w H. exact H. Qed.

Lemma keeps_tryCatch {A} (body : M A) handler :
  keeps I body -> (forall t, keeps I (handler t)) -> keeps I (tryCatch body handler).
Proof.
  intros Hb Hh w Hw. apply wp_tryCatch. eapply wp_mono; [apply Hb, Hw | auto |].
  intros t w' Hw'. apply Hh, Hw'.
Qed.

Lemma keeps_tryFinally {A} (body : M A) fin :
  keeps I body -> (forall w, I w -> I (fin w)) -> keeps I (tryFinally body fin).
Proof.
  intros Hb Hf w Hw. apply wp_tryFinally. eapply wp_mono; [apply Hb, Hw | |];
    cbn; auto.
Qed.

Lemma forces_tryFinally {A} (body : M A) fin :
  (forall w, I (fin w)) -> forces I (tryFinally body fin).
Proof.
  intros Hf w. unfold wp, tryFinally. destruct (body w); auto.
Qed.

Lemma keeps_modify f : (forall w, I w -> I (f w)) -> keeps I (modify f).
Proof. intros Hf w Hw. apply Hf, Hw. Qed.

Lemma forces_modify_bind {B} f (k : unit -> M B) :
  forces I (k tt) -> forces I (bind (modify f) k).
Proof. intros Hk w. apply wp_bind. apply Hk. Qed.

Lemma keeps_when b m : keeps I m -> keeps I (when b m).
Proof. destruct b; [done | intros _; apply keeps_ret]. Qed.

Lemma keeps_forEach {A} (xs : list A) body :
  (forall x, keeps I (body x)) -> keeps I (forEach xs body).
Proof.
  intros Hb. induction xs as [|x xs IH]; [apply keeps_ret |].
  apply keeps_bind; [apply Hb | intros _; apply IH].
Qed.

Lemma keeps_forEachIndexed {A} (xs : list A) body i :
  (forall j x, keeps I (body j x)) -> keeps I (forEachIndexed i xs body).
Proof.
  intros Hb. revert i. induction xs as [|x xs IH]; intros i; [apply keeps_ret |].
  apply keeps_bind; [apply Hb | intros _; apply IH].
Qed.

Lemma keeps_foldM {A S} (xs : list A) (s : S) body :
  (forall s x, keeps I (body s x)) -> keeps I (foldM xs s body).
Proof.
  intros Hb. revert s. induction xs as [|x xs IH]; intros s; [apply keeps_ret |].
  apply keeps_bind; [apply Hb | intros s'; apply IH].
Qed.

(** A computation that only reads. *)
Lemma keeps_look {A} (f : World -> A) : keeps I (fun w => Ok (f w) w).
Proof. intros w H. exact H. Qed.

Lemma keepsTo_bind {A B} (m : M A) (k : A -> M B) Q :
  keeps I m -> (forall x, keepsTo I (k x) Q) -> keepsTo I (bind m k) Q.
Proof.
  intros Hm Hk w Hw. apply wp_bind. eapply wp_mono; [apply Hm, Hw | | auto].
  intros x w' Hw'. apply Hk, Hw'.
Qed.

Lemma keepsTo_bind_get {B} (k : World -> M B) Q :
  (forall w0, I w0 -> keepsTo I (k w0) Q) -> keepsTo I (bind get k) Q.
Proof. intros Hk w Hw. apply wp_bind. apply (Hk w Hw w Hw). Qed.

Lemma forces_bind {A B} (m : M A) (k : A -> M B) :
  forces I m -> (forall x, keeps I (k x)) -> forces I (bind m k).
Proof.
  intros Hm Hk w. apply wp_bind. eapply wp_mono; [apply Hm | | auto].
  intros x w' Hw'. apply Hk, Hw'.
Qed.

End Keeps.

(** One step of a proof that a computation keeps an invariant; [solver]
    proves that the invariant survives an update of the world. *)
Ltac keeps_step solver :=
  lazymatch goal with
  | |- keeps _ (bind get _) => apply keeps_bind_get; intros ? ?
  | |- keeps _ (bind _ _) => apply keeps_bind; [| intros ?]
  | |- keeps _ (ret _) => apply keeps_ret
  | |- keeps _ (throw _) => apply keeps_throw
  | |- keeps _ (invariant_false _) => apply keeps_invariant_false
  | |- keeps _ (tryCatch _ _) => apply keeps_tryCatch; [| intros ?]
  | |- keeps _ (tryFinally _ _) => apply keeps_tryFinally; [| solver]
  | |- keeps _ (modify _) => apply keeps_modify; solver
  | |- keeps _ (when _ _) => apply keeps_when
  | |- keeps _ (forEach _ _) => apply keeps_forEach; intros ?
  | |- keeps _ (forEachIndexed _ _ _) => apply keeps_forEachIndexed; intros ? ?
  | |- keeps _ (foldM _ _ _) => apply keeps_foldM; intros ? ?
  | |- keeps _ (match ?x with _ => _ end) => destruct x
  | |- keeps _ (let _ := _ in _) => cbv zeta
  | |- keeps _ ?m =>
      first
        [ solve [eauto 2 with keeps]
        | let h := head_of m in progress unfold h
        | solve [keeps_prim solver] ]
  end.

Ltac keeps_with solver := repeat keeps_step solver.
Ltac keeps_go HI := keeps_with ltac:(stable HI).

(** ** Running a computation step by step *)

Lemma upd_same {A} k (v : A) f : upd k v f k = v.
Proof. unfold upd. by rewrite decide_True. Qed.

Lemma upd_other {A} k k' (v : A) f : k' <> k -> upd k v f k' = f k'.
Proof. intros. unfold upd. by rewrite decide_False. Qed.

Lemma bind_eq {A B} (m : M A) (k : A -> M B) w :
  bind m k w =
    match m w with
    | Ok a w' => k a w'
    | Throw t w' => Throw t w'
    | OutOfFuel => OutOfFuel
    end.
Proof. reflexivity. Qed.

Ltac norm := cbn -[bind tryCatch tryFinally upd]; rewrite ?upd_same.
Ltac run1 := first [rewrite bind_eq; norm | progress norm].
Ltac run := repeat run1.


(** The call of the error sink in the goal returns. *)
Ltac sink H :=
  match goal with
  | |- context [rec_script _ (onError _ _ ?msg) ?W] =>
      let b := fresh "b" in destruct (H msg W) as [b ->]
  end.

(** ** Invariants that every function of the core keeps *)

Section Generic.

Variable ext : Collaborators.
Variable I : World -> Prop.
Variable okRecovery : option StateId -> Prop.
Hypothesis HI : Stable I.
Hypothesis okNone : okRecovery None.
Hypothesis HI_commit :
  forall e rc w, okRecovery rc -> I w ->
    I (set_trace (trace w ++ [EvCommit e rc]) w).

Variable r : Rec.
Hypothesis Hr : RecKeeps I okRecovery r.

(** The sections of the commit that touch the ambient context or the
    recovery flag are proved for each invariant on its own. *)
Hypothesis keeps_commitReconcile :
  forall editor rootElement cur pen prevUpdating w0, I w0 ->
    keeps I (commitReconcile ext r editor rootElement cur pen (ambient w0)
               prevUpdating).
Hypothesis keeps_commitSelection :
  forall editor rootElement skip needs pen sel tags w0, I w0 ->
    keeps I (commitSelection ext editor rootElement skip needs pen sel tags
               (ambient w0)).

#[local] Hint Resolve rk_script rk_beginUpdate rk_commitPendingUpdates
  rk_processNestedUpdates rk_applyAllTransforms
  rk_normalizeAllDirtyTextNodes : keeps.

Lemma keeps_emit ev : plainEvent ev -> keeps I (emit ev).
Proof. intros Hev. apply keeps_modify. intros. by apply (st_trace _ HI). Qed.

Lemma keeps_reportError editor error :
  keeps I (reportError ext r editor error).
Proof.
  unfold reportError. destruct (instanceofError error); [| apply keeps_ret].
  apply keeps_bind; [by apply keeps_emit | intros _].
  apply keeps_bind; [apply (rk_script _ _ _ Hr) | intros _; apply keeps_ret].
Qed.

Lemma keeps_nodeIsAttached key : keeps I (nodeIsAttached key).
Proof. keeps_go HI. Qed.

Lemma keeps_internalMarkNodeAsDirty key : keeps I (internalMarkNodeAsDirty key).
Proof. keeps_go HI. Qed.

Lemma keeps_resetEditor editor a b c : keeps I (resetEditor editor a b c).
Proof. unfold resetEditor. keeps_go HI. Qed.

Lemma keeps_reconcileRoot a b c d e f : keeps I (reconcileRoot a b c d e f).
Proof. unfold reconcileRoot. keeps_go HI. Qed.

Lemma keeps_addTags editor tags : keeps I (addTags editor tags).
Proof.
  unfold addTags. destruct tags as [[t|ts]|]; [| | apply keeps_ret].
  - destruct (bool_decide (t = EmptyString)); [apply keeps_ret | keeps_go HI].
  - keeps_go HI.
Qed.

#[local] Hint Resolve keeps_emit keeps_reportError keeps_nodeIsAttached
  keeps_internalMarkNodeAsDirty keeps_resetEditor keeps_reconcileRoot
  keeps_addTags : keeps.

Lemma keeps_runTransforms editor key i arr :
  keeps I (runTransforms r editor key i arr).
Proof.
  revert i. induction arr as [|t arr IH]; intros i; cbn; [apply keeps_ret |].
  keeps_go HI.
Qed.
#[local] Hint Resolve keeps_runTransforms : keeps.

Lemma keeps_applyTransforms editor key node cache :
  keeps I (applyTransforms r editor key node cache).
Proof. keeps_go HI. Qed.

Lemma keeps_isNodeValidForTransform key node ck :
  keeps I (isNodeValidForTransform key node ck).
Proof. keeps_go HI. Qed.

Lemma keeps_normalizeIfSimpleText key node :
  keeps I (normalizeIfSimpleText ext r key node).
Proof. keeps_go HI. Qed.
#[local] Hint Resolve keeps_applyTransforms keeps_isNodeValidForTransform
  keeps_normalizeIfSimpleText : keeps.

Lemma keeps_normalizeAllDirtyTextNodesLoop s e q i :
  keeps I (normalizeAllDirtyTextNodesLoop ext r s e q i).
Proof. keeps_go HI. Qed.
#[local] Hint Resolve keeps_normalizeAllDirtyTextNodesLoop : keeps.

Lemma keeps_normalizeAllDirtyTextNodes s e :
  keeps I (normalizeAllDirtyTextNodes ext r s e).
Proof. keeps_go HI. Qed.

Lemma keeps_transformLeaves s e l : keeps I (transformLeaves ext r s e l).
Proof. keeps_go HI. Qed.

Lemma keeps_transformElements s e l : keeps I (transformElements r s e l).
Proof. keeps_go HI. Qed.
#[local] Hint Resolve keeps_normalizeAllDirtyTextNodes keeps_transformLeaves
  keeps_transformElements : keeps.

Lemma keeps_applyAllTransformsLoop s e l :
  keeps I (applyAllTransformsLoop ext r s e l).
Proof. keeps_go HI. Qed.
#[local] Hint Resolve keeps_applyAllTransformsLoop : keeps.

Lemma keeps_applyAllTransforms s e : keeps I (applyAllTransforms ext r s e).
Proof. keeps_go HI. Qed.
#[local] Hint Resolve keeps_applyAllTransforms : keeps.


Lemma keeps_triggerListeners type editor b :
  keeps I (triggerListeners r type editor b).
Proof. keeps_go HI. Qed.

Lemma keeps_triggerMutationListeners editor m :
  keeps I (triggerMutationListeners r editor m).
Proof. keeps_go HI. Qed.
#[local] Hint Resolve keeps_triggerListeners keeps_triggerMutationListeners
  : keeps.

Lemma keeps_triggerTextContentListeners editor a b :
  keeps I (triggerTextContentListeners ext r editor a b).
Proof. keeps_go HI. Qed.

Lemma keeps_runCommandListeners c e t p j ls :
  keeps I (runCommandListeners r c e t p j ls).
Proof.
  revert j. induction ls as [|l ls IH]; intros j; cbn; [apply keeps_ret |].
  keeps_go HI.
Qed.
#[local] Hint Resolve keeps_triggerTextContentListeners
  keeps_runCommandListeners : keeps.

Lemma keeps_runUpdateFn f : keeps I (runUpdateFn r f).
Proof. keeps_go HI. Qed.
#[local] Hint Resolve keeps_runUpdateFn : keeps.

Lemma keeps_updateEditorSync e f o : keeps I (updateEditorSync r e f o).
Proof. keeps_go HI. Qed.
#[local] Hint Resolve keeps_updateEditorSync : keeps.

Lemma keeps_triggerCommandListenersAt e t i eds :
  keeps I (triggerCommandListenersAt r e t i eds).
Proof.
  induction eds as [|c eds IH]; cbn; [apply keeps_ret |].
  keeps_go HI.
Qed.
#[local] Hint Resolve keeps_triggerCommandListenersAt : keeps.

Lemma keeps_triggerCommandListenersFrom e t eds i :
  keeps I (triggerCommandListenersFrom r e t eds i).
Proof. induction i as [|i IH]; cbn; keeps_go HI. Qed.
#[local] Hint Resolve keeps_triggerCommandListenersFrom : keeps.

Lemma keeps_triggerCommandListeners e t :
  keeps I (triggerCommandListeners r e t).
Proof. keeps_go HI. Qed.
#[local] Hint Resolve keeps_triggerCommandListeners : keeps.

Lemma keeps_dispatchCommand e t : keeps I (dispatchCommand r e t).
Proof. keeps_go HI. Qed.

Lemma keeps_triggerEnqueuedUpdates e : keeps I (triggerEnqueuedUpdates r e).
Proof. keeps_go HI. Qed.

Lemma keeps_triggerDeferredUpdateCallbacks e d :
  keeps I (triggerDeferredUpdateCallbacks r e d).
Proof. keeps_go HI. Qed.
#[local] Hint Resolve keeps_dispatchCommand keeps_triggerEnqueuedUpdates
  keeps_triggerDeferredUpdateCallbacks : keeps.

Lemma keeps_commitNotify e rc cur pen cs ps m d :
  keeps I (commitNotify ext r e rc cur pen cs ps m d).
Proof. keeps_go HI. Qed.
#[local] Hint Resolve keeps_commitNotify keeps_commitReconcile
  keeps_commitSelection : keeps.

Lemma keeps_commitAfterReconcile e rc el sk nu cur pen cs ps m w0 :
  I w0 ->
  keeps I (commitAfterReconcile ext r e rc el sk nu cur pen cs ps (ambient w0) m).
Proof. intros Hw0. keeps_go HI. Qed.
#[local] Hint Resolve keeps_commitAfterReconcile : keeps.

Lemma keeps_commitPendingUpdatesBody e rc :
  keeps I (commitPendingUpdatesBody ext r e rc).
Proof. keeps_go HI. Qed.

Lemma keeps_commitPendingUpdates e rc :
  okRecovery rc -> keeps I (commitPendingUpdates ext r e rc).
Proof.
  intros Hrc. unfold commitPendingUpdates.
  apply keeps_bind;
    [apply keeps_modify; intros; by apply HI_commit | intros _].
  apply keeps_commitPendingUpdatesBody.
Qed.
#[local] Hint Resolve keeps_commitPendingUpdates : keeps.

Lemma keeps_pushDeferred e c : keeps I (pushDeferred e c).
Proof. keeps_go HI. Qed.
#[local] Hint Resolve keeps_pushDeferred : keeps.

Lemma keeps_processNestedUpdatesLoop e q b :
  keeps I (processNestedUpdatesLoop r e q b).
Proof. keeps_go HI. Qed.
#[local] Hint Resolve keeps_processNestedUpdatesLoop : keeps.

Lemma keeps_processNestedUpdates e b : keeps I (processNestedUpdates r e b).
Proof. keeps_go HI. Qed.

Lemma keeps_validateSelection p : keeps I (validateSelection p).
Proof. keeps_go HI. Qed.
#[local] Hint Resolve keeps_processNestedUpdates keeps_validateSelection
  : keeps.

Lemma keeps_beginUpdateMutate e f c p a b d :
  keeps I (beginUpdateMutate ext r e f c p a b d).
Proof. keeps_go HI. Qed.
#[local] Hint Resolve keeps_beginUpdateMutate : keeps.



Lemma keeps_beginUpdateFinish e p c t :
  keeps I (beginUpdateFinish ext r e p c t).
Proof. keeps_go HI. Qed.

(** The functions that install an ambient context of their own. *)
Hypothesis keeps_beginUpdate :
  forall e f o, keeps I (beginUpdate ext r e f o).
Hypothesis keeps_readEditorState :
  forall e s f, keeps I (readEditorState r e s f).
#[local] Hint Resolve keeps_beginUpdate keeps_readEditorState : keeps.

Lemma keeps_updateEditor e f o : keeps I (updateEditor ext r e f o).
Proof. keeps_go HI. Qed.
#[local] Hint Resolve keeps_updateEditor : keeps.

Lemma keeps_read e f : keeps I (read ext r e f).
Proof. keeps_go HI. Qed.

Lemma keeps_update_ e f o : keeps I (update_ ext r e f o).
Proof. keeps_go HI. Qed.
#[local] Hint Resolve keeps_read keeps_update_ : keeps.

Lemma keeps_runScript s : keeps I (runScript ext r s).
Proof. destruct s; cbn; keeps_go HI. Qed.

Lemma keeps_step_rec : RecKeeps I okRecovery (step ext r).
Proof.
  split; cbn; intros.
  - apply keeps_runScript.
  - apply keeps_beginUpdate.
  - by apply keeps_commitPendingUpdates.
  - apply keeps_processNestedUpdatesLoop.
  - apply keeps_applyAllTransformsLoop.
  - apply keeps_normalizeAllDirtyTextNodesLoop.
Qed.

End Generic.

Lemma keeps_outOfFuel I ok : RecKeeps I ok outOfFuel.
Proof. split; intros; intros w Hw; exact Logic.I. Qed.


(** ** The ambient context is restored *)

Lemma ambientIs_stable a : Stable (ambientIs a).
Proof. split; intros; exact H || (cbn; assumption). Qed.

Lemma ambient_setAmbient a w : ambient (setAmbient a w) = a.
Proof. by destruct a as [[? ?] ?]. Qed.

Section Ambient.

Variable ext : Collaborators.
Variable a : option StateId * option EditorId * bool.
Variable r : Rec.

Lemma ambient_commitReconcile editor rootElement cur pen prevUpdating w0 :
  ambientIs a w0 ->
  keeps (ambientIs a)
    (commitReconcile ext r editor rootElement cur pen (ambient w0) prevUpdating).
Proof.
  intros Hw0. apply forces_keeps. unfold commitReconcile, modifyEditor.
  do 4 apply forces_modify_bind. apply forces_tryFinally.
  intros w. unfold ambientIs in *. rewrite ambient_setAmbient. exact Hw0.
Qed.

Lemma ambient_commitSelection editor rootElement skip needs pen sel tags w0 :
  ambientIs a w0 ->
  keeps (ambientIs a)
    (commitSelection ext editor rootElement skip needs pen sel tags
       (ambient w0)).
Proof.
  intros Hw0. unfold commitSelection.
  apply keeps_bind; [apply keeps_look | intros ed]. cbv zeta.
  apply keeps_bind; [apply keeps_look | intros ts].
  match goal with |- keeps _ (if ?c then _ else _) => destruct c end;
    [| apply keeps_ret].
  intros w Hw. unfold ambientIs in *.
  cbv [wp bind modify tryFinally when modifyEditor emit ret].
  rewrite <- Hw0 in Hw |- *.
  destruct sel as [s|]; [destruct (needs || selection_dirty s) |
                          destruct needs];
    unfold ambient in *; cbn in *; congruence.
Qed.

Lemma ambient_readEditorState e s f :
  keeps (ambientIs a) (readEditorState r e s f).
Proof.
  unfold readEditorState. apply keeps_bind_get. intros w0 Hw0.
  apply forces_keeps. do 3 apply forces_modify_bind. apply forces_tryFinally.
  intros w. unfold ambientIs in *. by rewrite ambient_setAmbient.
Qed.

Hypothesis Hr : RecKeeps (ambientIs a) (fun _ => True) r.

Let HI := ambientIs_stable a.

Lemma ambient_beginUpdateEnter editor options :
  keepsTo (ambientIs a) (beginUpdateEnter editor options)
    (fun f _ => frame_previous f = a).
Proof.
  unfold beginUpdateEnter.
  repeat first
    [ apply keepsTo_bind_get; intros w0 Hw0
    | apply keepsTo_bind; [solve [keeps_go HI] | intros ?]
    | progress cbv zeta ].
  intros w Hw. exact Hw0.
Qed.

Lemma ambient_beginUpdateFinally editor f w :
  ambient (beginUpdateFinally editor f w) = frame_previous f.
Proof. unfold beginUpdateFinally. cbn. apply ambient_setAmbient. Qed.

Lemma ambient_beginUpdate e f o : keeps (ambientIs a) (beginUpdate ext r e f o).
Proof.
  intros w Hw. unfold beginUpdate. apply wp_bind.
  eapply wp_mono; [apply ambient_beginUpdateEnter, Hw | | auto].
  intros fr w1 Hfr. cbn beta. apply wp_bind.
  unfold beginUpdateGuarded. apply wp_tryFinally.
  unfold wp at 1.
  match goal with |- match ?m with _ => _ end => destruct m as [flow w2|t w2|] end;
    [| | done].
  - assert (ambientIs a (beginUpdateFinally e fr w2)) as Hw2
      by (unfold ambientIs; by rewrite ambient_beginUpdateFinally).
    destruct flow; [| exact Hw2].
    revert Hw2. generalize (beginUpdateFinally e fr w2).
    apply (keeps_beginUpdateFinish ext _ _ HI Logic.I (fun _ _ _ _ H => H) r Hr).
    + intros. by apply ambient_commitReconcile.
    + intros. by apply ambient_commitSelection.
  - unfold ambientIs. by rewrite ambient_beginUpdateFinally.
Qed.

Lemma ambient_parseEditorState ser e f :
  keeps (ambientIs a) (parseEditorState ext r ser e f).
Proof.
  unfold parseEditorState.
  apply keeps_bind; [keeps_go HI | intros editorState].
  apply keeps_bind_get. intros w0 Hw0. cbv zeta.
  repeat (apply keeps_bind; [solve [keeps_go HI] | intros ?]).
  apply forces_keeps. do 3 apply forces_modify_bind.
  apply forces_bind; [| intros; apply keeps_ret].
  apply forces_tryFinally. intros w. unfold ambientIs in *.
  by rewrite ambient_setAmbient.
Qed.

End Ambient.

Lemma ambient_knot ext a fuel :
  RecKeeps (ambientIs a) (fun _ => True) (knot ext fuel).
Proof.
  induction fuel as [|fuel IH]; [apply keeps_outOfFuel |].
  cbn [knot].
  apply keeps_step_rec; auto using ambientIs_stable,
    ambient_commitReconcile, ambient_commitSelection, ambient_beginUpdate,
    ambient_readEditorState.
Qed.

Theorem ambient_context_restored (ext : Collaborators) (fuel : nat) (w : World) :
  let r := knot ext fuel in
  (forall editor editorState callbackFn,
     restoresAmbient (readEditorState r editor editorState callbackFn) w /\
     readEditorState r editor editorState callbackFn w =
       tryFinally (rec_script r callbackFn) (setAmbient (ambient w))
         (setAmbient (Some editorState, editor, true) w)) /\
  (forall serialized editor updateFn,
     restoresAmbient (parseEditorState ext r serialized editor updateFn) w) /\
  (forall editor updateFn options,
     restoresAmbient (beginUpdate ext r editor updateFn options) w) /\
  (forall editor rootElement cur pen previouslyUpdating,
     restoresAmbient
       (commitReconcile ext r editor rootElement cur pen (ambient w)
          previouslyUpdating) w) /\
  (forall editor recovery,
     restoresAmbient (commitPendingUpdates ext r editor recovery) w) /\
  (forall script, restoresAmbient (runScript ext r script) w).
Proof.
  intros r.
  pose proof (ambient_knot ext (ambient w) fuel) as Hr. fold r in Hr.
  pose proof (ambientIs_stable (ambient w)) as HI.
  assert (forall A (m : M A), keeps (ambientIs (ambient w)) m ->
                              restoresAmbient m w) as Hk.
  { intros A m Hm. specialize (Hm w eq_refl). unfold wp in Hm.
    unfold restoresAmbient. by destruct (m w). }
  repeat split; intros.
  - apply Hk, ambient_readEditorState.
  - apply Hk. by apply ambient_parseEditorState.
  - apply Hk. by apply ambient_beginUpdate.
  - apply Hk. by apply ambient_commitReconcile.
  - apply Hk.
    apply (keeps_commitPendingUpdates ext) with (okRecovery := fun _ => True);
      auto using ambient_commitReconcile, ambient_commitSelection.
  - apply Hk.
    apply (keeps_runScript ext) with (okRecovery := fun _ => True);
      auto using ambient_commitReconcile, ambient_commitSelection,
        ambient_beginUpdate, ambient_readEditorState.
Qed.

(** * Renderer failure (C1) *)

Section C1.
Variable ext : Collaborators.
Variable r : Rec.







End C1.

(** ** At most one recovery *)

Lemma recoveryCommits_plain tr ev :
  plainEvent ev -> recoveryCommits (tr ++ [ev]) = recoveryCommits tr.
Proof.
  intros Hev. unfold recoveryCommits. rewrite List.filter_app. cbn.
  destruct ev as [| | | |? []| | | | | | | | |]; cbn in *;
    try done; by rewrite app_nil_r.
Qed.


Ltac recovering_solver :=
  intros;
  repeat match goal with
         | H : recovering _ _ |- _ => destruct H
         end;
  unfold setAmbient, updEditor; split; cbn;
  rewrite ?recoveryCommits_plain by exact Logic.I; assumption.

Lemma recovering_stable l : Stable (recovering l).
Proof.
  split; try recovering_solver.
  intros ev w Hev [? ?]. split; cbn; [done |].
  by rewrite recoveryCommits_plain.
Qed.

Section Recovering.

Variable ext : Collaborators.
Variable l : list Event.
Variable r : Rec.
Hypothesis Hr : RecKeeps (recovering l) (fun rc => rc = None) r.

Let HI := recovering_stable l.

#[local] Hint Resolve rk_script rk_beginUpdate rk_commitPendingUpdates
  rk_processNestedUpdates rk_applyAllTransforms
  rk_normalizeAllDirtyTextNodes : keeps.





End Recovering.




Lemma inert_sink d editor : 0 < d -> sinkReturnsFrom inertCollaborators d editor.
Proof.
  intros Hd k Hk msg w. destruct k as [|k]; [lia |]. by exists false.
Defined.


(** ** C2: an exception during an update cycle *)

Section C2.
Variable ext : Collaborators.
Variable r : Rec.

Lemma addTags_frame editor tags w :
  exists w',
    addTags editor tags w = Ok tt w' /\
    editors w' = editors w /\ trace w' = trace w /\ states w' = states w /\
    nextState w' = nextState w /\ ambient w' = ambient w.
Proof.
  assert (forall ref (ts : list string) w,
            exists w',
              forEach ts (fun t =>
                let* old := readTags ref in
                writeTags ref
                  (if bool_decide (t ∈ old) then old else old ++ [t])) w
                = Ok tt w' /\
              editors w' = editors w /\ trace w' = trace w /\
              states w' = states w /\ nextState w' = nextState w /\
              ambient w' = ambient w) as Hloop.
  { intros ref ts. induction ts as [|t ts IH]; intros w0; cbn -[bind].
    - by exists w0.
    - run. destruct (IH (set_tagSets
          (upd ref
             (if bool_decide (t ∈ tagSets w0 ref)
              then tagSets w0 ref else tagSets w0 ref ++ [t]) (tagSets w0))
          w0))
        as (w' & -> & ? & ? & ? & ? & ?).
      by exists w'. }
  unfold addTags. destruct tags as [[t|ts]|]; [| | by exists w].
  - destruct (bool_decide (t = EmptyString)); [by exists w |].
    exact (Hloop (_updateTags (editors w editor)) [t] w).
  - exact (Hloop (_updateTags (editors w editor)) ts w).
Qed.

Lemma beginUpdateEnter_frame editor options w :
  exists f ws,
    beginUpdateEnter editor options w = Ok f ws /\
    frame_currentEditorState f = _editorState (editors w editor) /\
    frame_previous f = ambient w /\
    frame_previouslyUpdating f = _updating (editors w editor) /\
    trace ws = trace w.
Proof.
  unfold beginUpdateEnter. run.
  assert (exists w1,
            match options with
            | Some o => addTags editor (tag o)
            | None => ret tt
            end w = Ok tt w1 /\
            editors w1 = editors w /\ trace w1 = trace w /\
            states w1 = states w /\ nextState w1 = nextState w /\
            ambient w1 = ambient w) as (w1 & -> & He & Ht & Hs & Hn & Ha).
  { destruct options as [o|]; [apply addTags_frame | by exists w]. }
  run. unfold pushDeferred.
  destruct (options ≫= onUpdate) as [cb|]; run; rewrite ?He.
  all: destruct (_pendingEditorState (editors w editor)) as [p|]; run.
  all: try destruct (_readOnly (states w1 p)); run.
  all: do 2 eexists; split; [reflexivity |].
  all: cbn -[upd]; rewrite ?upd_same; cbn -[upd]; rewrite ?He, ?Ht; try done.
  all: unfold ambient in *; cbn; done.
Qed.

Lemma beginUpdateCatch_spec editor cur error wt wr :
  reportError ext r editor error wt = Ok tt wr ->
  exists wc,
    CycleAborted wr wc editor cur /\
    beginUpdateCatch ext r editor cur error wt =
      commitPendingUpdates ext r editor None wc.
Proof.
  intros Hreport. unfold beginUpdateCatch. rewrite bind_eq, Hreport. run.
  eexists. split; [| reflexivity].
  split; cbn -[upd]; rewrite ?upd_same; cbn -[upd]; rewrite ?upd_same; done.
Qed.

Lemma reportError_inv editor error wt wr :
  reportError ext r editor error wt = Ok tt wr ->
  match instanceofError error with
  | Some msg =>
      exists b,
        rec_script r (onError ext editor msg)
          (set_trace (trace wt ++ [EvOnError editor msg]) wt) = Ok b wr
  | None => wr = wt
  end.
Proof.
  unfold reportError. destruct (instanceofError error) as [msg|].
  - rewrite bind_eq. cbn -[bind]. rewrite bind_eq.
    destruct (rec_script r _ _) as [b w'|t w'|]; [| done | done].
    cbn. intros [= ->]. by exists b.
  - by intros [= ->].
Qed.

(** C2 (as amended).  The error sink of the editor is caller code: it may
    throw; here it returns.  When the [try] block of [$beginUpdate] throws
    [error] at the world [wt] (from the mutation function, the draining of
    nested updates, the transforms, the garbage collection or the
    validation of the selection), the [catch] block hands [error] to the
    error sink when it is an [Error] instance, and to nobody when it is
    not; [wr] is the world that this leaves.  Then it empties the dirty
    leaf set and the dirty element map, makes the pre-cycle current
    snapshot the pending one with the dirty type [FULL_RECONCILE], and
    invokes the commit at once; [$beginUpdate] then returns when that
    commit returns and throws what that commit throws, after the [finally]
    block only: nothing is scheduled and nothing more is traced. *)
Theorem update_cycle_failure_is_recovered editor updateFn options w f ws
  error wt wr :
  beginUpdateEnter editor options w = Ok f ws ->
  beginUpdateTry ext r editor updateFn (frame_currentEditorState f)
    (frame_pendingEditorState f) (frame_editorStateWasCloned f)
    (frame_headless f) (frame_skipTransforms f) ws = Throw error wt ->
  reportError ext r editor error wt = Ok tt wr ->
  frame_currentEditorState f = _editorState (editors w editor) /\
  match instanceofError error with
  | Some msg =>
      exists b,
        rec_script r (onError ext editor msg)
          (set_trace (trace wt ++ [EvOnError editor msg]) wt) = Ok b wr
  | None => wr = wt
  end /\
  exists wc,
    CycleAborted wr wc editor (_editorState (editors w editor)) /\
    beginUpdate ext r editor updateFn options w =
      match commitPendingUpdates ext r editor None wc with
      | Ok _ w' => Ok tt (beginUpdateFinally editor f w')
      | Throw t w' => Throw t (beginUpdateFinally editor f w')
      | OutOfFuel => OutOfFuel
      end /\
    forall w',
      trace (beginUpdateFinally editor f w') = trace w' /\
      microtasks (beginUpdateFinally editor f w') = microtasks w'.
Proof.
  intros Henter Htry Hreport.
  destruct (beginUpdateEnter_frame editor options w)
    as (f' & ws' & Henter' & Hcur & _).
  rewrite Henter in Henter'. injection Henter' as <- <-.
  split; [exact Hcur |].
  split; [by apply reportError_inv |].
  destruct (beginUpdateCatch_spec editor (frame_currentEditorState f) error wt
              wr Hreport)
    as (wc & Hwc & Hcatch).
  exists wc. split; [by rewrite <- Hcur |].
  split; [| done].
  unfold beginUpdate. rewrite bind_eq, Henter. rewrite bind_eq.
  unfold beginUpdateGuarded, tryFinally, tryCatch.
  rewrite bind_eq, Htry. rewrite bind_eq, Hcatch.
  by destruct (commitPendingUpdates ext r editor None wc).
Qed.
End C2.

(** The same at a headless editor whose mutation function throws an
    [Error]. *)
Lemma update_cycle_failure_is_recovered_witness :
  exists f ws wt wr wc,
    beginUpdateEnter 0 None (newWorld 1 (fun id => newEditor id None true ∅))
      = Ok f ws /\
    beginUpdateTry inertCollaborators (knot inertCollaborators 5) 0
      (UserFn (SThrow (ErrorObject (MsgUser 1))))
      (frame_currentEditorState f) (frame_pendingEditorState f)
      (frame_editorStateWasCloned f) (frame_headless f)
      (frame_skipTransforms f) ws = Throw (ErrorObject (MsgUser 1)) wt /\
    reportError inertCollaborators (knot inertCollaborators 5) 0
      (ErrorObject (MsgUser 1)) wt = Ok tt wr /\
    trace wr = [EvUpdateFn 0; EvOnError 0 (MsgUser 1)] /\
    CycleAborted wr wc 0 0.
Proof.
  eexists _, _, _, _.
  match goal with |- exists wc, ?A /\ ?B /\ ?C /\ ?D /\ _ =>
    assert (A /\ B /\ C /\ D) as (Henter & Htry & Hreport & Htr)
  end.
  { repeat split; vm_compute; reflexivity. }
  destruct (update_cycle_failure_is_recovered inertCollaborators
              (knot inertCollaborators 5) 0 _ None _ _ _ _ _ _ Henter Htry
              Hreport)
    as (_ & _ & wc & Hwc & _).
  exists wc. split; [exact Henter |]. split; [exact Htry |].
  split; [exact Hreport |]. split; [exact Htr | exact Hwc].
Defined.

(** C2 as stated fails twice over.  The mutation function throws a value
    that is no [Error]: the cycle is aborted and committed, and nothing
    reaches the error sink; and the commit that the [catch] block invokes
    throws in its turn (an update listener throws), so that [$beginUpdate]
    does not return: it throws what the commit threw.  And the mutation
    function throws an [Error] while the error sink throws in its turn:
    [$beginUpdate] throws what the sink threw, the snapshot of the cycle
    stays pending, the dirty type is not the full-reconcile one, and no
    commit is invoked. *)
Lemma update_cycle_failure_not_reported :
  match
    beginUpdate inertCollaborators (knot inertCollaborators 5) 0
      (UserFn (SThrow (NonError 7))) None
      (newWorld 1 (fun id =>
         set_listeners throwingUpdateListener (newEditor id None true ∅)))
  with
  | Throw t w' =>
      t = NonError 8 /\
      trace w' = [EvUpdateFn 0; EvCommit 0 None; EvListener LUpdate 0 0] /\
      errorsReported (trace w') = []
  | _ => False
  end /\
  match
    beginUpdate throwingSink (knot throwingSink 5) 0
      (UserFn (SThrow (ErrorObject (MsgUser 1)))) None
      (newWorld 1 (fun id => newEditor id None true ∅))
  with
  | Throw t w' =>
      t = NonError 9 /\
      trace w' = [EvUpdateFn 0; EvOnError 0 (MsgUser 1)] /\
      _pendingEditorState (editors w' 0) = Some 1 /\
      _dirtyType (editors w' 0) = NO_DIRTY_NODES
  | _ => False
  end.
Proof. split; vm_compute; done. Qed.
(** ** C5: validation of the pending selection *)

Section C5.
Variable ext : Collaborators.
Variable r : Rec.

Lemma validateSelection_lost pen w :
  selectionLost (states w pen) ->
  validateSelection pen w = Throw (ErrorObject MsgSelectionLost) w.
Proof.
  intros (a & f & d & Hsel & Hkeys).
  unfold validateSelection. rewrite bind_eq. cbn -[bind]. rewrite Hsel.
  destruct Hkeys as [-> | Hf]; [done |].
  rewrite Hf. by destruct (_ !! a).
Qed.

Lemma validateSelection_emptied pen w :
  selectionEmptied (states w pen) ->
  validateSelection pen w =
    Ok tt (set_states (upd pen (set_selection None (states w pen)) (states w)) w).
Proof.
  intros (d & Hsel).
  unfold validateSelection. rewrite bind_eq. cbn -[bind]. by rewrite Hsel.
Qed.

(** C5.  When the [try] block of [$beginUpdate] has run the mutation, the
    nested updates, the transforms and the garbage collection without a
    throw, the validation that ends it treats the two kinds of selection
    differently: a range selection whose anchor key or focus key is not in
    the node map of the pending snapshot makes the block throw the
    selection-lost error, in the world the mutation left; a node selection
    without nodes is replaced by null in the pending snapshot, nothing else
    changes, and the block returns normally. *)
Theorem selection_validation_is_asymmetric editor updateFn cur pen cloned
  headless skip ws wm :
  beginUpdateMutate ext r editor updateFn cur pen cloned headless skip ws
    = Ok tt wm ->
  (selectionLost (states wm pen) ->
   beginUpdateTry ext r editor updateFn cur pen cloned headless skip ws
     = Throw (ErrorObject MsgSelectionLost) wm) /\
  (selectionEmptied (states wm pen) ->
   exists w',
     beginUpdateTry ext r editor updateFn cur pen cloned headless skip ws
       = Ok tt w' /\
     _selection (states w' pen) = None /\
     _nodeMap (states w' pen) = _nodeMap (states wm pen) /\
     (forall s, s <> pen -> states w' s = states wm s) /\
     editors w' = editors wm /\ trace w' = trace wm).
Proof.
  intros Hm. unfold beginUpdateTry. rewrite bind_eq, Hm. split.
  - apply validateSelection_lost.
  - intros He. rewrite (validateSelection_emptied _ _ He).
    eexists. split; [reflexivity |]. cbn -[upd]. rewrite upd_same.
    repeat split; try done. intros s Hs. by apply upd_other.
Qed.
End C5.

(** Both cases at a headless editor: the mutation function leaves a range
    selection on a key that is not in the document, or a node selection
    without nodes. *)
Lemma selection_validation_is_asymmetric_witness :
  beginUpdateTry inertCollaborators (knot inertCollaborators 5) 0
    (UserFn (SSetSelection (Some (RangeSelection "x" "t" true))))
    0 1 true true false updatingWorld
  = Throw (ErrorObject MsgSelectionLost)
      (mutatedWorld
         (UserFn (SSetSelection (Some (RangeSelection "x" "t" true))))) /\
  exists w',
    beginUpdateTry inertCollaborators (knot inertCollaborators 5) 0
      (UserFn (SSetSelection (Some (NodeSelection [] true))))
      0 1 true true false updatingWorld = Ok tt w' /\
    _selection (states w' 1) = None.
Proof.
  split.
  - apply (selection_validation_is_asymmetric inertCollaborators
             (knot inertCollaborators 5) 0
             (UserFn (SSetSelection (Some (RangeSelection "x" "t" true))))
             0 1 true true false updatingWorld).
    + vm_compute. reflexivity.
    + exists "x"%string, "t"%string, true.
      split; [vm_compute; reflexivity | left; vm_compute; reflexivity].
  - destruct (selection_validation_is_asymmetric inertCollaborators
                (knot inertCollaborators 5) 0
                (UserFn (SSetSelection (Some (NodeSelection [] true))))
                0 1 true true false updatingWorld
                (mutatedWorld
                   (UserFn (SSetSelection (Some (NodeSelection [] true))))))
      as [_ Hemptied]; [vm_compute; reflexivity |].
    destruct Hemptied as (w' & Htry & Hsel & _).
    { exists true. vm_compute. reflexivity. }
    exists w'. split; [exact Htry | exact Hsel].
Defined.

(** * Further properties of the update core *)

(** ** Worlds that differ by their trace *)

(** Projecting a field out of a world that is a tower of updates. *)
Ltac project :=
  cbn beta iota delta
    [ activeEditorState activeEditor isReadOnlyMode
      isAttemptingToRecoverFromReconcilerError infiniteTransformCount
      editors editorCount states nextState leafSets elementMaps
      updateQueues deferredArrays tagSets nextRef cells nextCell
      reconciler microtasks trace set_activeEditorState set_activeEditor
      set_isReadOnlyMode set_isAttemptingToRecoverFromReconcilerError
      set_infiniteTransformCount set_editors set_editorCount set_states
      set_nextState set_leafSets set_elementMaps set_updateQueues
      set_deferredArrays set_tagSets set_nextRef set_cells set_nextCell
      set_reconciler set_microtasks set_trace updEditor setAmbient ambient
      fst snd ];
  rewrite ?upd_same.

Lemma set_trace_id w : set_trace (trace w) w = w.
Proof. by destruct w. Qed.

Lemma set_trace_twice t t' w : set_trace t (set_trace t' w) = set_trace t w.
Proof. by destruct w. Qed.

Lemma upd_nil {A} k (f : nat -> list A) d : f d = [] -> upd k [] f d = [].
Proof. intros Hd. unfold upd. by destruct (decide (d = k)). Qed.

Lemma upd_id {A} k (f : nat -> A) v k' : v = f k -> upd k v f k' = f k'.
Proof. intros ->. unfold upd. by destruct (decide (k' = k)) as [->|]. Qed.

Lemma set_updating_twice a b e :
  set_updating (_updating e) (set_updating b (set_updating a e)) = e.
Proof. by destruct e. Qed.

Lemma sameButTrace_refl w : sameButTrace w w.
Proof. by split. Qed.

Lemma sameButTrace_set_trace t w : sameButTrace w (set_trace t w).
Proof. by split. Qed.

Lemma sameButTrace_trans w1 w2 w3 :
  sameButTrace w1 w2 -> sameButTrace w2 w3 -> sameButTrace w1 w3.
Proof.
  intros H1 H2. split; intros.
  - by rewrite (sbt_ambient _ _ H2), (sbt_ambient _ _ H1).
  - by rewrite (sbt_recovering _ _ H2), (sbt_recovering _ _ H1).
  - by rewrite (sbt_count _ _ H2), (sbt_count _ _ H1).
  - by rewrite (sbt_editors _ _ H2), (sbt_editors _ _ H1).
  - by rewrite (sbt_states _ _ H2), (sbt_states _ _ H1).
  - by rewrite (sbt_leafSets _ _ H2), (sbt_leafSets _ _ H1).
  - by rewrite (sbt_elementMaps _ _ H2), (sbt_elementMaps _ _ H1).
  - by rewrite (sbt_updateQueues _ _ H2), (sbt_updateQueues _ _ H1).
  - by rewrite (sbt_deferredArrays _ _ H2), (sbt_deferredArrays _ _ H1).
  - by rewrite (sbt_tagSets _ _ H2), (sbt_tagSets _ _ H1).
  - by rewrite (sbt_cells _ _ H2), (sbt_cells _ _ H1).
  - by rewrite (sbt_next _ _ H2), (sbt_next _ _ H1).
  - by rewrite (sbt_reconciler _ _ H2), (sbt_reconciler _ _ H1).
  - by rewrite (sbt_microtasks _ _ H2), (sbt_microtasks _ _ H1).
Qed.

Lemma sameButTrace_withFreshDeferred editor w w' :
  sameButTrace w w' ->
  sameButTrace (withFreshDeferred editor w) (withFreshDeferred editor w').
Proof.
  intros H. pose proof (sbt_next _ _ H) as Hn. injection Hn as Hn1 Hn2 Hn3.
  unfold withFreshDeferred.
  split; try (project; apply H); try (intros; project; apply H).
  - intros e. project. rewrite Hn2, (sbt_editors _ _ H).
    destruct (decide (e = editor)) as [->|Hne];
      [by rewrite !upd_same | rewrite !(upd_other _ _ _ _ Hne); apply H].
  - intros q. project. rewrite Hn2.
    destruct (decide (q = nextRef w)) as [->|Hne];
      [by rewrite !upd_same | rewrite !(upd_other _ _ _ _ Hne); apply H].
  - project. by rewrite Hn1, Hn2, Hn3.
Qed.

Lemma editors_freezePending p w : editors (freezePending p w) = editors w.
Proof. unfold freezePending. by destruct (_readOnly (states w p)). Qed.
Lemma trace_freezePending p w : trace (freezePending p w) = trace w.
Proof. unfold freezePending. by destruct (_readOnly (states w p)). Qed.
Lemma updateQueues_freezePending p w :
  updateQueues (freezePending p w) = updateQueues w.
Proof. unfold freezePending. by destruct (_readOnly (states w p)). Qed.
Lemma deferredArrays_freezePending p w :
  deferredArrays (freezePending p w) = deferredArrays w.
Proof. unfold freezePending. by destruct (_readOnly (states w p)). Qed.
Lemma leafSets_freezePending p w : leafSets (freezePending p w) = leafSets w.
Proof. unfold freezePending. by destruct (_readOnly (states w p)). Qed.
Lemma elementMaps_freezePending p w :
  elementMaps (freezePending p w) = elementMaps w.
Proof. unfold freezePending. by destruct (_readOnly (states w p)). Qed.
Lemma tagSets_freezePending p w : tagSets (freezePending p w) = tagSets w.
Proof. unfold freezePending. by destruct (_readOnly (states w p)). Qed.
Lemma nextRef_freezePending p w : nextRef (freezePending p w) = nextRef w.
Proof. unfold freezePending. by destruct (_readOnly (states w p)). Qed.
Lemma reconciler_freezePending p w :
  reconciler (freezePending p w) = reconciler w.
Proof. unfold freezePending. by destruct (_readOnly (states w p)). Qed.
Lemma microtasks_freezePending p w :
  microtasks (freezePending p w) = microtasks w.
Proof. unfold freezePending. by destruct (_readOnly (states w p)). Qed.
Lemma ambient_freezePending p w : ambient (freezePending p w) = ambient w.
Proof. unfold freezePending. by destruct (_readOnly (states w p)). Qed.

Lemma states_freezePending p w s :
  states (freezePending p w) s =
    if decide (s = p) then set_readOnly true (states w p) else states w s.
Proof.
  unfold freezePending. destruct (_readOnly (states w p)) eqn:Hro.
  - destruct (decide (s = p)) as [->|]; [| done].
    destruct (states w p); cbn in *; by subst.
  - project. unfold upd. done.
Qed.

Lemma ambient_resetDirtyTracker editor w :
  ambient (resetDirtyTracker editor w) = ambient w.
Proof. reflexivity. Qed.

Lemma ambient_published editor rc p w :
  ambient (published editor rc p w) = ambient w.
Proof. reflexivity. Qed.

Lemma ambient_withFreshDeferred editor w :
  ambient (withFreshDeferred editor w) = ambient w.
Proof. reflexivity. Qed.

Lemma ambient_updEditor editor f w : ambient (updEditor editor f w) = ambient w.
Proof. reflexivity. Qed.

Lemma nextRef_sameButTrace w w' : sameButTrace w w' -> nextRef w' = nextRef w.
Proof. intros H. pose proof (sbt_next _ _ H) as Hn. by injection Hn. Qed.

(** Rewriting a projection of a world with what it is the same as. *)
Ltac chase1 :=
  match goal with
  | H : sameButTrace _ ?w |- context [editors ?w _] =>
      rewrite (sbt_editors _ _ H)
  | H : sameButTrace _ ?w |- context [states ?w _] =>
      rewrite (sbt_states _ _ H)
  | H : sameButTrace _ ?w |- context [updateQueues ?w _] =>
      rewrite (sbt_updateQueues _ _ H)
  | H : sameButTrace _ ?w |- context [deferredArrays ?w _] =>
      rewrite (sbt_deferredArrays _ _ H)
  | H : sameButTrace _ ?w |- context [leafSets ?w _] =>
      rewrite (sbt_leafSets _ _ H)
  | H : sameButTrace _ ?w |- context [elementMaps ?w _] =>
      rewrite (sbt_elementMaps _ _ H)
  | H : sameButTrace _ ?w |- context [tagSets ?w _] =>
      rewrite (sbt_tagSets _ _ H)
  | H : sameButTrace _ ?w |- context [nextRef ?w] =>
      rewrite (nextRef_sameButTrace _ _ H)
  | H : sameButTrace _ ?w |- context [reconciler ?w] =>
      rewrite (sbt_reconciler _ _ H)
  | H : sameButTrace _ ?w |- context [microtasks ?w] =>
      rewrite (sbt_microtasks _ _ H)
  | H : sameButTrace _ ?w |- context [ambient ?w] =>
      rewrite (sbt_ambient _ _ H)
  | H : sameButTrace _ ?w |- context [infiniteTransformCount ?w] =>
      rewrite (sbt_count _ _ H)
  | H : sameButTrace _ ?w
    |- context [isAttemptingToRecoverFromReconcilerError ?w] =>
      rewrite (sbt_recovering _ _ H)
  end.

Ltac chase :=
  repeat first
    [ chase1
    | rewrite editors_freezePending
    | rewrite trace_freezePending
    | rewrite updateQueues_freezePending
    | rewrite deferredArrays_freezePending
    | rewrite leafSets_freezePending
    | rewrite elementMaps_freezePending
    | rewrite tagSets_freezePending
    | rewrite nextRef_freezePending
    | rewrite reconciler_freezePending
    | rewrite microtasks_freezePending
    | rewrite ambient_freezePending
    | rewrite ambient_withFreshDeferred
    | rewrite ambient_resetDirtyTracker
    | rewrite ambient_published
    | rewrite ambient_updEditor
    | progress
        (unfold withFreshDeferred, resetDirtyTracker, published; project)
    | progress cbn [_editorState _pendingEditorState _pendingDecorators
                    _listeners _updates _deferred _updating _dirtyType
                    _dirtyLeaves _dirtyElements _updateTags _headless
                    _rootElement _observer _editable _blockCursorElement
                    _readOnly _selection _nodeMap _flushSync
                    set_editorState set_pendingEditorState set_deferred
                    set_updating set_dirtyType set_dirtyLeaves
                    set_dirtyElements set_updateTags set_normalizedNodes
                    set_cloneNotNeeded set_blockCursorElement set_readOnly
                    set_selection set_flushSync set_pendingDecorators
                    set_decorators set_editable] ].

(** ** Listeners and deferred callbacks *)

Section Listeners.
Variable r : Rec.

Lemma callbacks_run mark ls outs :
  Forall2 (logsOnly r) ls outs ->
  forall i w,
    forEachIndexed i ls
      (fun i callback => emit (mark i) >> rec_script r callback >> ret tt) w
    = Ok tt (set_trace (trace w ++ callbackEvents mark i outs) w).
Proof.
  induction 1 as [|s evs ls outs Hs _ IH]; intros i w; cbn -[bind].
  - by rewrite app_nil_r, set_trace_id.
  - run. destruct (Hs (set_trace (trace w ++ [mark i]) w)) as [b ->]. run.
    rewrite IH. cbn. by rewrite <- !app_assoc.
Qed.

(** X1.  [triggerListeners] leaves [editor._updating] as it found it,
    whether the listeners return or one of them throws. *)
Theorem triggerListeners_restores_updating type editor flag w :
  match triggerListeners r type editor flag w with
  | Ok _ w' | Throw _ w' =>
      _updating (editors w' editor) = _updating (editors w editor)
  | OutOfFuel => True
  end.
Proof.
  unfold triggerListeners. rewrite bind_eq. cbn -[bind tryFinally upd].
  rewrite bind_eq. cbn -[bind tryFinally upd].
  unfold tryFinally.
  match goal with |- context [bind ?m ?k ?W] => destruct (bind m k W) end.
  all: try done.
  all: unfold updEditor; cbn -[upd]; by rewrite upd_same.
Qed.

Lemma triggerListeners_calls type editor flag outs w :
  Forall2 (logsOnly r) (listeners_of type (_listeners (editors w editor))) outs ->
  exists w',
    triggerListeners r type editor flag w = Ok tt w' /\
    trace w' = trace w ++ callbackEvents (EvListener type editor) 0 outs /\
    sameButTrace w w'.
Proof.
  intros Hls. unfold triggerListeners. run. unfold tryFinally. run.
  rewrite (callbacks_run (EvListener type editor) _ _ Hls).
  eexists. split; [reflexivity |]. split; [project; reflexivity |].
  split; try (intros; project; reflexivity); try (project; reflexivity).
  intros e. project.
  destruct (decide (e = editor)) as [->|Hne];
    [rewrite ?upd_same | by rewrite !(upd_other _ _ _ _ Hne)].
  by destruct (editors w editor).
Qed.

(** X2.  [triggerListeners] calls the listeners of the given type once
    each, in the order of their registration; when the listeners only log,
    the call returns and nothing but the trace has changed
    ([editor._updating] included). *)
Theorem triggerListeners_logs type editor flag outs w :
  Forall2 (logsOnly r) (listeners_of type (_listeners (editors w editor))) outs ->
  exists w',
    triggerListeners r type editor flag w = Ok tt w' /\
    trace w' = trace w ++ callbackEvents (EvListener type editor) 0 outs /\
    sameButTrace w w'.
Proof. exact (triggerListeners_calls type editor flag outs w). Qed.
End Listeners.

Section Notify.
Variable ext : Collaborators.
Variable r : Rec.

Lemma triggerDeferredUpdateCallbacks_calls editor deferred outs w :
  deferred < nextRef w ->
  Forall2 (logsOnly r) (deferredArrays w deferred) outs ->
  exists w',
    triggerDeferredUpdateCallbacks r editor deferred w = Ok tt w' /\
    trace w' = trace w ++ callbackEvents (EvDeferred editor) 0 outs /\
    deferredArrays w' (_deferred (editors w' editor)) = [] /\
    deferredArrays w' deferred = deferredArrays w deferred /\
    sameButTrace (withFreshDeferred editor w) w'.
Proof.
  intros Hlt Hcbs. unfold triggerDeferredUpdateCallbacks. run.
  assert (deferred <> nextRef w) as Hne by lia.
  rewrite (upd_other _ _ _ _ Hne).
  remember (deferredArrays w deferred) as cbs eqn:Hd.
  destruct (length cbs) eqn:Hlen.
  2: { run. unfold tryFinally.
    rewrite (callbacks_run r (EvDeferred editor) _ _ Hcbs).
    eexists. split; [reflexivity |].
    split; [project; reflexivity |].
    split; [project; cbn; by rewrite ?upd_same |].
    split; [project; by rewrite (upd_other _ _ _ _ Hne) |].
    split; try (intros; project; reflexivity); try (project; reflexivity).
    intros e. project. unfold withFreshDeferred. project.
    destruct (decide (e = editor)) as [->|Hne'];
      [rewrite ?upd_same | by rewrite !(upd_other _ _ _ _ Hne')].
    by destruct (editors w editor). }
  destruct cbs; [| done]. inversion Hcbs; subst. run.
    eexists. split; [reflexivity |].
    split; [by rewrite app_nil_r |].
    split; [project; cbn; by rewrite ?upd_same |].
    split; [project; by rewrite (upd_other _ _ _ _ Hne) |].
    split; try (intros; project; reflexivity); try (project; reflexivity).
Qed.

(** X3.  [triggerDeferredUpdateCallbacks] first gives the editor a new,
    empty array of deferred callbacks, then calls the callbacks of the
    array it was handed in the order they were pushed; that array itself is
    not emptied. *)
Theorem deferred_callbacks_run_in_order editor deferred outs w :
  deferred < nextRef w ->
  Forall2 (logsOnly r) (deferredArrays w deferred) outs ->
  exists w',
    triggerDeferredUpdateCallbacks r editor deferred w = Ok tt w' /\
    trace w' = trace w ++ callbackEvents (EvDeferred editor) 0 outs /\
    deferredArrays w' (_deferred (editors w' editor)) = [] /\
    deferredArrays w' deferred = deferredArrays w deferred /\
    sameButTrace (withFreshDeferred editor w) w'.
Proof.
  exact (triggerDeferredUpdateCallbacks_calls editor deferred outs w).
Qed.

Lemma mutationListener_run editor (mutatedNodes : MutatedNodes) i s evs
  (klassSet : list string) :
  logsOnly r s evs ->
  forall w,
    forEach klassSet
      (fun klass =>
         if bool_decide (klass ∈ mutatedNodes) then
           emit (EvMutationListener editor i klass) >>
           rec_script r s >> ret tt
         else ret tt) w
    = Ok tt
        (set_trace
           (trace w ++
            concat
              (map (fun klass =>
                      if bool_decide (klass ∈ mutatedNodes)
                      then EvMutationListener editor i klass :: evs
                      else [])
                 klassSet)) w).
Proof.
  intros Hs. induction klassSet as [|klass ks IH]; intros w; cbn -[bind].
  - by rewrite app_nil_r, set_trace_id.
  - rewrite bind_eq. destruct (bool_decide (klass ∈ mutatedNodes)).
    + run.
      destruct (Hs (set_trace (trace w ++ [EvMutationListener editor i klass]) w))
        as [b ->]. run.
      rewrite IH. cbn. by rewrite <- !app_assoc.
    + cbn -[bind]. rewrite IH. done.
Qed.

Lemma mutationListeners_run editor mutatedNodes listeners outs :
  Forall2 (fun entry evs => logsOnly r entry.1 evs) listeners outs ->
  forall i w,
    forEachIndexed i listeners
      (fun i (entry : Script * list string) =>
         forEach entry.2
           (fun klass =>
              if bool_decide (klass ∈ mutatedNodes) then
                emit (EvMutationListener editor i klass) >>
                rec_script r entry.1 >> ret tt
              else ret tt)) w
    = Ok tt
        (set_trace
           (trace w ++ mutationEvents editor mutatedNodes i listeners.*2 outs)
           w).
Proof.
  induction 1 as [|[s ks] evs listeners outs Hs _ IH]; intros i w;
    cbn -[bind].
  - by rewrite app_nil_r, set_trace_id.
  - rewrite bind_eq. cbn [fst snd] in *.
    rewrite (mutationListener_run editor mutatedNodes i s evs ks Hs).
    rewrite IH. cbn. by rewrite <- !app_assoc.
Qed.

Lemma triggerMutationListeners_calls editor mutatedNodes outs w :
  Forall2 (fun entry evs => logsOnly r entry.1 evs)
    (mutation (_listeners (editors w editor))) outs ->
  triggerMutationListeners r editor mutatedNodes w =
    Ok tt
      (set_trace
         (trace w ++
          mutationEvents editor mutatedNodes 0
            (mutation (_listeners (editors w editor))).*2 outs) w).
Proof.
  intros Hls. unfold triggerMutationListeners. rewrite bind_eq. cbn -[bind].
  by apply mutationListeners_run.
Qed.

(** X4.  [triggerMutationListeners] calls a mutation listener once for
    each class of its class set that has mutated nodes, the listeners in
    the order of their registration, and for no other class. *)
Theorem mutation_listeners_called_per_mutated_class editor mutatedNodes outs w :
  Forall2 (fun entry evs => logsOnly r entry.1 evs)
    (mutation (_listeners (editors w editor))) outs ->
  triggerMutationListeners r editor mutatedNodes w =
    Ok tt
      (set_trace
         (trace w ++
          mutationEvents editor mutatedNodes 0
            (mutation (_listeners (editors w editor))).*2 outs) w).
Proof. exact (triggerMutationListeners_calls editor mutatedNodes outs w). Qed.

Lemma triggerTextContentListeners_calls editor cur pen outs w :
  Forall2 (logsOnly r) (textcontent (_listeners (editors w editor))) outs ->
  exists w',
    triggerTextContentListeners ext r editor cur pen w = Ok tt w' /\
    trace w' =
      trace w ++
      (if bool_decide (getEditorStateTextContent ext (states w cur) =
                       getEditorStateTextContent ext (states w pen))
       then []
       else callbackEvents (EvListener LTextContent editor) 0 outs) /\
    sameButTrace w w'.
Proof.
  intros Hls. unfold triggerTextContentListeners. run.
  destruct (bool_decide _).
  - exists w. split; [done |]. split; [by rewrite app_nil_r |]. by split.
  - by apply triggerListeners_calls.
Qed.

(** X5.  [triggerTextContentListeners] calls the text content listeners,
    in the order of their registration, when the text content of the two
    snapshots differs, and calls none when it is the same. *)
Theorem textcontent_listeners_called_on_change editor cur pen outs w :
  Forall2 (logsOnly r) (textcontent (_listeners (editors w editor))) outs ->
  exists w',
    triggerTextContentListeners ext r editor cur pen w = Ok tt w' /\
    trace w' =
      trace w ++
      (if bool_decide (getEditorStateTextContent ext (states w cur) =
                       getEditorStateTextContent ext (states w pen))
       then []
       else callbackEvents (EvListener LTextContent editor) 0 outs) /\
    sameButTrace w w'.
Proof. exact (triggerTextContentListeners_calls editor cur pen outs w). Qed.
End Notify.

Section EditorProperties.
Variable r : Rec.

(** X6.  [setEditable] does nothing when the editor is already as asked;
    otherwise it records the new mode and calls the editable listeners in
    the order of their registration. *)
Theorem setEditable_notifies_on_change editor editable outs w :
  Forall2 (logsOnly r) (listeners_of LEditable (_listeners (editors w editor)))
    outs ->
  exists w',
    setEditable r editor editable w = Ok tt w' /\
    _editable (editors w' editor) = editable /\
    trace w' =
      trace w ++
      (if bool_decide (_editable (editors w editor) = editable)
       then []
       else callbackEvents (EvListener LEditable editor) 0 outs) /\
    sameButTrace (updEditor editor (set_editable editable) w) w'.
Proof.
  intros Hls. unfold setEditable. run.
  destruct (bool_decide_reflect (_editable (editors w editor) = editable))
    as [He|He]; cbn [negb].
  - exists w. split; [done |]. split; [done |].
    split; [by rewrite app_nil_r |].
    split; try (intros; project; reflexivity); try (project; reflexivity).
    intros e. project.
    destruct (decide (e = editor)) as [->|Hne];
      [rewrite ?upd_same | by rewrite !(upd_other _ _ _ _ Hne)].
    rewrite <- He. by destruct (editors w editor).
  - run.
    destruct (triggerListeners_calls r LEditable editor true outs
                (updEditor editor (set_editable editable) w))
      as (w' & Hrun & Htr & Hsame).
    { project. exact Hls. }
    exists w'. split; [exact Hrun |].
    split; [| split; [exact Htr | exact Hsame]].
    rewrite (sbt_editors _ _ Hsame). by project.
Qed.
End EditorProperties.

Lemma logsOnly_emit ext k n : logsOnly (knot ext (S k)) (SEmit n) [EvEmit n].
Proof. intros w. by exists false. Defined.

Lemma triggerListeners_logs_witness :
  exists w',
    triggerListeners (knot inertCollaborators 1) LUpdate 0 true
      (notifyingWorld true) = Ok tt w' /\
    trace w' =
      [EvListener LUpdate 0 0; EvEmit 1; EvListener LUpdate 0 1; EvEmit 2].
Proof.
  destruct (triggerListeners_logs (knot inertCollaborators 1) LUpdate 0 true
              [[EvEmit 1]; [EvEmit 2]] (notifyingWorld true))
    as (w' & Hrun & Htr & _).
  { repeat constructor; apply logsOnly_emit. }
  exists w'. split; [exact Hrun | exact Htr].
Defined.

Lemma deferred_callbacks_run_in_order_witness :
  exists w',
    triggerDeferredUpdateCallbacks (knot inertCollaborators 1) 0 0
      (notifyingWorld true) = Ok tt w' /\
    trace w' = [EvDeferred 0 0; EvEmit 6] /\
    deferredArrays w' (_deferred (editors w' 0)) = [].
Proof.
  destruct (deferred_callbacks_run_in_order (knot inertCollaborators 1) 0 0
              [[EvEmit 6]] (notifyingWorld true))
    as (w' & Hrun & Htr & Hfresh & _).
  { vm_compute. lia. }
  { repeat constructor; apply logsOnly_emit. }
  exists w'. split; [exact Hrun |]. split; [exact Htr | exact Hfresh].
Defined.

Lemma mutation_listeners_called_per_mutated_class_witness :
  exists w',
    triggerMutationListeners (knot inertCollaborators 1) 0
      ["leaf"%string; "root"%string] (notifyingWorld true) = Ok tt w' /\
    trace w' = [EvMutationListener 0 0 "leaf"; EvEmit 4].
Proof.
  assert (Forall2 (fun entry evs =>
                     logsOnly (knot inertCollaborators 1) entry.1 evs)
            (mutation (_listeners (editors (notifyingWorld true) 0)))
            [[EvEmit 4]]) as Hls.
  { repeat constructor; apply logsOnly_emit. }
  eexists. split.
  - exact (mutation_listeners_called_per_mutated_class
             (knot inertCollaborators 1) 0 ["leaf"%string; "root"%string]
             [[EvEmit 4]] (notifyingWorld true) Hls).
  - vm_compute. reflexivity.
Defined.

Lemma textcontent_listeners_called_on_change_witness :
  exists w',
    triggerTextContentListeners textCollaborators (knot textCollaborators 1)
      0 0 1 (notifyingWorld true) = Ok tt w' /\
    trace w' = [EvListener LTextContent 0 0; EvEmit 3].
Proof.
  destruct (textcontent_listeners_called_on_change textCollaborators
              (knot textCollaborators 1) 0 0 1 [[EvEmit 3]]
              (notifyingWorld true)) as (w' & Hrun & Htr & _).
  { repeat constructor; apply logsOnly_emit. }
  exists w'. split; [exact Hrun | exact Htr].
Defined.

Lemma setEditable_notifies_on_change_witness :
  exists w',
    setEditable (knot inertCollaborators 1) 0 false (notifyingWorld true)
      = Ok tt w' /\
    _editable (editors w' 0) = false /\
    trace w' = [EvListener LEditable 0 0; EvEmit 5].
Proof.
  destruct (setEditable_notifies_on_change (knot inertCollaborators 1) 0 false
              [[EvEmit 5]] (notifyingWorld true))
    as (w' & Hrun & He & Htr & _).
  { repeat constructor; apply logsOnly_emit. }
  exists w'. split; [exact Hrun |]. split; [exact He | exact Htr].
Defined.

(** ** The queue of updates *)

Section Queue.
Variable ext : Collaborators.

Lemma addTags_keeps editor tags (P : World -> Prop) :
  (forall v w, P w -> P (set_tagSets v w)) ->
  forall w, P w -> exists w', addTags editor tags w = Ok tt w' /\ P w'.
Proof.
  intros HP w Hw.
  assert (forall ref (ts : list string) w0, P w0 ->
            exists w',
              forEach ts (fun t =>
                let* old := readTags ref in
                writeTags ref
                  (if bool_decide (t ∈ old) then old else old ++ [t])) w0
                = Ok tt w' /\ P w') as Hloop.
  { intros ref ts. induction ts as [|t ts IH]; intros w0 Hw0; cbn -[bind].
    - by exists w0.
    - run. apply IH. apply HP, Hw0. }
  unfold addTags. destruct tags as [[t|ts]|]; [| | by exists w].
  - destruct (bool_decide (t = EmptyString)); [by exists w |].
    exact (Hloop (_updateTags (editors w editor)) [t] w Hw).
  - exact (Hloop (_updateTags (editors w editor)) ts w Hw).
Qed.

Lemma nestedOptions_keeps {A} (a : A) eds editor q p rest tr o w :
  draining eds q rest tr w ->
  exists w',
    ((if discrete o then
        match Some p with
        | None => invariant_false MsgDiscreteWithoutPending
        | Some p => modifyState p (set_flushSync true)
        end
      else ret tt) >>
     match onUpdate o with
     | Some callback => pushDeferred editor callback
     | None => ret tt
     end >>
     addTags editor (tag o) >> ret a) w = Ok a w' /\
    draining eds q rest tr w'.
Proof.
  intros Hw. rewrite bind_eq.
  assert (exists w1,
            (if discrete o then modifyState p (set_flushSync true) else ret tt) w
              = Ok tt w1 /\ draining eds q rest tr w1)
    as (w1 & -> & Hw1).
  { destruct (discrete o); [| by exists w]. eexists. split; [reflexivity |].
    exact Hw. }
  rewrite bind_eq.
  assert (exists w2,
            match onUpdate o with
            | Some callback => pushDeferred editor callback
            | None => ret tt
            end w1 = Ok tt w2 /\ draining eds q rest tr w2)
    as (w2 & -> & Hw2).
  { destruct (onUpdate o); [| by exists w1]. eexists. split; [reflexivity |].
    exact Hw1. }
  rewrite bind_eq.
  destruct (addTags_keeps editor (tag o) (draining eds q rest tr))
    with (w := w2) as (w3 & -> & Hw3); [by intros v w' Hw' | done |].
  by exists w3.
Qed.

Lemma processNestedUpdatesLoop_fifo d eds editor q p entries outs :
  _pendingEditorState (eds editor) = Some p ->
  Forall2 (fun entry evs => logsAt ext d entry.1 evs) entries outs ->
  forall n skip tr w,
    d + length entries <= n ->
    draining eds q (map queued entries) tr w ->
    exists w',
      processNestedUpdatesLoop (knot ext n) editor q skip w
        = Ok (anySkipTransforms entries.*2 || skip) w' /\
      draining eds q [] (tr ++ concat outs) w'.
Proof.
  intros Hp.
  induction 1 as [|[s o] evs entries outs Hs _ IH]; intros n skip tr w Hn Hw.
  - destruct Hw as (Hq & He & Htr). unfold processNestedUpdatesLoop.
    rewrite bind_eq. cbn -[bind]. rewrite Hq. cbn.
    exists w. by rewrite app_nil_r.
  - cbn [length] in Hn. destruct n as [|n]; [lia |].
    pose proof Hw as (Hq & He & Htr).
    unfold processNestedUpdatesLoop at 1. rewrite bind_eq. cbn -[bind].
    rewrite Hq. cbn [map queued fst snd].
    rewrite bind_eq. cbn -[bind].
    rewrite bind_eq. cbn -[bind]. rewrite He, Hp.
    set (w0 := set_updateQueues (upd q (map queued entries) (updateQueues w)) w).
    assert (draining eds q (map queued entries) tr w0) as Hw0.
    { split; [by apply upd_same | done]. }
    rewrite bind_eq.
    assert (exists w1,
              match o with
              | Some o0 =>
                  (if discrete o0
                   then modifyState p (set_flushSync true)
                   else ret tt) >>
                  match onUpdate o0 with
                  | Some callback => pushDeferred editor callback
                  | None => ret tt
                  end >> addTags editor (tag o0) >>
                  ret (skipTransforms o0 || skip)
              | None => ret skip
              end w0
              = Ok (match o with
                    | Some o0 => skipTransforms o0 || skip
                    | None => skip
                    end) w1 /\
              draining eds q (map queued entries) tr w1)
      as (w1 & -> & Hw1).
    { destruct o as [o|]; [| by exists w0].
      apply (nestedOptions_keeps _ eds editor q p _ tr o w0 Hw0). }
    rewrite bind_eq.
    change (runScript ext (knot ext n) s)
      with (rec_script (knot ext (S n)) s).
    destruct (Hs (S n) ltac:(lia) w1) as [b Hb]. cbn [fst] in Hb.
    rewrite bind_eq, Hb.
    cbn [ret].
    destruct (IH n (match o with
                    | Some o0 => skipTransforms o0 || skip
                    | None => skip
                    end) (tr ++ evs)
                (set_trace (trace w1 ++ evs) w1)) as (w' & Hrun & Hw');
      [lia | |].
    { destruct Hw1 as (? & ? & Htr1). split; [done |]. split; [done |].
      cbn. by rewrite Htr1. }
    exists w'. rewrite <- app_assoc in Hw'. split; [| exact Hw'].
    rewrite Hrun. f_equal. unfold anySkipTransforms. cbn.
    match goal with |- context [existsb ?f ?l] => destruct (existsb f l) end.
    all: destruct o as [o|]; cbn; try done.
    all: by destruct (skipTransforms o), skip.
Qed.

Lemma processNestedUpdates_drains d n editor p entries outs skip w :
  _pendingEditorState (editors w editor) = Some p ->
  updateQueues w (_updates (editors w editor)) = map queued entries ->
  Forall2 (fun entry evs => logsAt ext d entry.1 evs) entries outs ->
  d + length entries <= n ->
  exists w',
    processNestedUpdates (knot ext n) editor skip w
      = Ok (anySkipTransforms entries.*2 || skip) w' /\
    trace w' = trace w ++ concat outs /\
    updateQueues w' (_updates (editors w editor)) = [] /\
    editors w' = editors w.
Proof.
  intros Hp Hq Hlogs Hn. unfold processNestedUpdates. rewrite bind_eq.
  cbn -[bind].
  destruct (processNestedUpdatesLoop_fifo d (editors w) editor
              (_updates (editors w editor)) p entries outs Hp Hlogs
              n skip (trace w) w Hn) as (w' & -> & Hq' & He' & Htr'); [done |].
  by exists w'.
Qed.

(** X7.  [$processNestedUpdates] runs the queued updates front first, each
    in the current cycle, until the queue is empty, and reports whether one
    of them (or the caller) asked to skip the transforms. *)
Theorem nested_updates_drain_fifo d n editor p entries outs skip w :
  _pendingEditorState (editors w editor) = Some p ->
  updateQueues w (_updates (editors w editor)) = map queued entries ->
  Forall2 (fun entry evs => logsAt ext d entry.1 evs) entries outs ->
  d + length entries <= n ->
  exists w',
    processNestedUpdates (knot ext n) editor skip w
      = Ok (anySkipTransforms entries.*2 || skip) w' /\
    trace w' = trace w ++ concat outs /\
    updateQueues w' (_updates (editors w editor)) = [] /\
    editors w' = editors w.
Proof.
  exact (processNestedUpdates_drains d n editor p entries outs skip w).
Qed.

Lemma updateEditor_enqueues r editor updateFn options w :
  _updating (editors w editor) = true ->
  updateEditor ext r editor updateFn options w =
    Ok tt
      (set_updateQueues
         (upd (_updates (editors w editor))
            (updateQueues w (_updates (editors w editor)) ++
             [(updateFn, options)])
            (updateQueues w)) w).
Proof.
  intros Hu. unfold updateEditor. rewrite bind_eq. cbn -[bind].
  rewrite Hu. reflexivity.
Qed.

Lemma updateEditor_forEach r eds editor entries : forall old tr w,
  _updating (eds editor) = true ->
  draining eds (_updates (eds editor)) old tr w ->
  exists w',
    forEach entries
      (fun entry => updateEditor ext r editor (UserFn entry.1) entry.2) w
      = Ok tt w' /\
    draining eds (_updates (eds editor)) (old ++ map queued entries) tr w'.
Proof.
  induction entries as [|[s o] entries IH]; intros old tr w Hu Hw;
    cbn -[bind].
  - exists w. by rewrite app_nil_r.
  - destruct Hw as (Hq & He & Htr). rewrite bind_eq.
    rewrite updateEditor_enqueues by (by rewrite He).
    rewrite He, Hq. cbn [fst snd].
    destruct (IH (old ++ [(UserFn s, o)]) tr
                (set_updateQueues
                   (upd (_updates (eds editor)) (old ++ [(UserFn s, o)])
                      (updateQueues w)) w) Hu) as (w' & -> & Hw').
    { split; [by apply upd_same | done]. }
    exists w'. split; [done |]. by rewrite <- app_assoc in Hw'.
Qed.

(** X8.  Updates requested while the editor is updating wait in its queue,
    behind those that wait already, and the drain of the cycle then runs
    all of them in the order of the requests. *)
Theorem updates_requested_while_updating_run_in_order r d n editor p waiting
  requested outs w :
  _updating (editors w editor) = true ->
  _pendingEditorState (editors w editor) = Some p ->
  updateQueues w (_updates (editors w editor)) = map queued waiting ->
  Forall2 (fun entry evs => logsAt ext d entry.1 evs) (waiting ++ requested)
    outs ->
  d + length (waiting ++ requested) <= n ->
  exists w',
    (forEach requested
       (fun entry => updateEditor ext r editor (UserFn entry.1) entry.2) >>
     processNestedUpdates (knot ext n) editor false) w
      = Ok (anySkipTransforms (waiting ++ requested).*2) w' /\
    trace w' = trace w ++ concat outs /\
    updateQueues w' (_updates (editors w editor)) = [] /\
    editors w' = editors w.
Proof.
  intros Hu Hp Hq Hlogs Hn. rewrite bind_eq.
  destruct (updateEditor_forEach r (editors w) editor requested
              (map queued waiting) (trace w) w Hu) as (w1 & -> & Hw1);
    [done |].
  destruct Hw1 as (Hq1 & He1 & Htr1). rewrite <- map_app in Hq1.
  destruct (processNestedUpdates_drains d n editor p (waiting ++ requested)
              outs false w1) as (w' & Hrun & Htr' & Hq' & He');
    rewrite ?He1; try done.
  exists w'. rewrite Hrun, orb_false_r, Htr', Htr1, He', He1.
  by rewrite He1 in Hq'.
Qed.
End Queue.

Lemma logsAt_emit ext n : logsAt ext 1 (SEmit n) [EvEmit n].
Proof. intros [|k] Hk w; [lia |]. by exists false. Qed.

Lemma nested_updates_drain_fifo_witness :
  exists w',
    processNestedUpdates (knot inertCollaborators 3) 0 false drainingWorld
      = Ok true w' /\
    trace w' = [EvEmit 1; EvEmit 2].
Proof.
  destruct (nested_updates_drain_fifo inertCollaborators 1 3 0 0
              [(SEmit 1, None);
               (SEmit 2, Some (mkOptions None true None false))]
              [[EvEmit 1]; [EvEmit 2]] false drainingWorld)
    as (w' & Hrun & Htr & _).
  - reflexivity.
  - reflexivity.
  - repeat constructor; apply logsAt_emit.
  - cbn. lia.
  - by exists w'.
Defined.

Lemma updates_requested_while_updating_run_in_order_witness :
  exists w',
    (forEach [(SEmit 3, None)]
       (fun entry =>
          updateEditor inertCollaborators outOfFuel 0 (UserFn entry.1)
            entry.2) >>
     processNestedUpdates (knot inertCollaborators 4) 0 false) drainingWorld
      = Ok true w' /\
    trace w' = [EvEmit 1; EvEmit 2; EvEmit 3].
Proof.
  destruct (updates_requested_while_updating_run_in_order inertCollaborators
              outOfFuel 1 4 0 0
              [(SEmit 1, None);
               (SEmit 2, Some (mkOptions None true None false))]
              [(SEmit 3, None)]
              [[EvEmit 1]; [EvEmit 2]; [EvEmit 3]] drainingWorld)
    as (w' & Hrun & Htr & _).
  - reflexivity.
  - reflexivity.
  - reflexivity.
  - repeat constructor; apply logsAt_emit.
  - cbn. lia.
  - by exists w'.
Defined.
(** ** The commit *)

Section Commit.
Variable ext : Collaborators.
Variable r : Rec.

Lemma triggerEnqueuedUpdates_idle editor w :
  updateQueues w (_updates (editors w editor)) = [] ->
  triggerEnqueuedUpdates r editor w = Ok tt w.
Proof.
  intros Hq. unfold triggerEnqueuedUpdates. rewrite bind_eq. cbn -[bind].
  rewrite bind_eq. cbn -[bind]. by rewrite Hq.
Qed.

Lemma commitNotify_calls editor rc cur pen currentSelection
  pendingSelection mutatedNodes deferred outsM outsT outsU outsD w :
  QuietNotification r w editor deferred outsM outsT outsU outsD ->
  selectionChanged currentSelection pendingSelection = false ->
  exists w',
    commitNotify ext r editor rc cur pen currentSelection pendingSelection
      mutatedNodes deferred w = Ok tt w' /\
    trace w' =
      trace w ++
      notificationEvents ext w editor (default cur rc) pen mutatedNodes
        outsM outsT outsU outsD /\
    sameButTrace (withFreshDeferred editor w) w'.
Proof.
  intros [Hdec HM HT HU Hlt HD Hq] Hsel. unfold commitNotify.
  (* the mutation listeners *)
  rewrite bind_eq.
  assert (exists w1,
            match mutatedNodes with
            | Some m => triggerMutationListeners r editor m
            | None => ret tt
            end w = Ok tt w1 /\
            trace w1 =
              trace w ++
              match mutatedNodes with
              | Some m =>
                  mutationEvents editor m 0
                    (mutation (_listeners (editors w editor))).*2 outsM
              | None => []
              end /\
            sameButTrace w w1) as (w1 & -> & Htr1 & H1).
  { destruct mutatedNodes as [m|].
    - rewrite (triggerMutationListeners_calls r editor m outsM w HM).
      eexists. split; [reflexivity |]. split; [done |].
      apply sameButTrace_set_trace.
    - exists w. rewrite app_nil_r. split; [done |]. split; [done |].
      apply sameButTrace_refl. }
  (* no selection change to announce *)
  rewrite bind_eq.
  assert (match pendingSelection with
          | Some p =>
              if negb (isRangeSelection pendingSelection)
                 && match currentSelection with
                    | None => true
                    | Some c => negb (selection_is c p)
                    end
              then dispatchCommand r editor SELECTION_CHANGE_COMMAND >> ret tt
              else ret tt
          | None => ret tt
          end w1 = Ok tt w1) as ->.
  { unfold selectionChanged in Hsel. destruct pendingSelection; [| done].
    by rewrite Hsel. }
  (* no decorators *)
  rewrite bind_eq. cbn [getEditor]. rewrite (sbt_editors _ _ H1), Hdec.
  rewrite bind_eq. cbn [ret].
  (* the text content listeners *)
  rewrite bind_eq.
  destruct (triggerTextContentListeners_calls ext r editor
              (default cur rc) pen outsT w1) as (w2 & -> & Htr2 & H2).
  { by rewrite (sbt_editors _ _ H1). }
  (* the update listeners *)
  rewrite bind_eq.
  pose proof (sameButTrace_trans _ _ _ H1 H2) as H12.
  destruct (triggerListeners_calls r LUpdate editor true outsU w2)
    as (w3 & -> & Htr3 & H3).
  { by rewrite (sbt_editors _ _ H12). }
  pose proof (sameButTrace_trans _ _ _ H12 H3) as H13.
  (* the deferred callbacks *)
  rewrite bind_eq.
  destruct (triggerDeferredUpdateCallbacks_calls r editor deferred outsD w3)
    as (w4 & -> & Htr4 & Hfresh & Hold & H4).
  { pose proof (sbt_next _ _ H13) as Hn. injection Hn as _ -> _. done. }
  { by rewrite (sbt_deferredArrays _ _ H13). }
  pose proof (sameButTrace_trans _ _ _
                (sameButTrace_withFreshDeferred editor _ _ H13) H4) as H14.
  (* no queued update *)
  rewrite triggerEnqueuedUpdates_idle.
  - exists w4. split; [done |]. split; [| exact H14].
    rewrite Htr4, Htr3, Htr2, Htr1. unfold notificationEvents.
    rewrite !(sbt_states _ _ H1). by rewrite <- !app_assoc.
  - rewrite (sbt_updateQueues _ _ H14), (sbt_editors _ _ H14).
    unfold withFreshDeferred. project. cbn. exact Hq.
Qed.

(** X9.  The notifications of a commit come in a fixed order: the mutation
    listeners (when the renderer was called), the text content listeners,
    the update listeners, and then the deferred callbacks of the cycle. *)
Theorem commit_notifies_in_order editor rc cur pen currentSelection
  pendingSelection mutatedNodes deferred outsM outsT outsU outsD w :
  QuietNotification r w editor deferred outsM outsT outsU outsD ->
  selectionChanged currentSelection pendingSelection = false ->
  exists w',
    commitNotify ext r editor rc cur pen currentSelection pendingSelection
      mutatedNodes deferred w = Ok tt w' /\
    trace w' =
      trace w ++
      notificationEvents ext w editor (default cur rc) pen mutatedNodes
        outsM outsT outsU outsD /\
    sameButTrace (withFreshDeferred editor w) w'.
Proof.
  exact (commitNotify_calls editor rc cur pen currentSelection
           pendingSelection mutatedNodes deferred outsM outsT outsU outsD
           w).
Qed.
End Commit.

Section CommitTail.
Variable ext : Collaborators.
Variable r : Rec.
Hypothesis gc_keeps :
  forall e s, garbageCollectDetachedDecorators ext e s = e.

Lemma commitAfterReconcile_prepares editor rc rootElement skip needs cur p
  selc selp previous m w :
  exists w1,
    commitAfterReconcile ext r editor rc rootElement skip needs cur p selc
      selp previous m w =
      (commitSelection ext editor rootElement skip needs p selp
         (_updateTags (editors w editor)) previous >>
       commitNotify ext r editor rc cur p selc selp m
         (_deferred (editors w editor))) w1 /\
    trace w1 = trace w /\
    sameButTrace
      (if needs then resetDirtyTracker editor (freezePending p w)
       else freezePending p w) w1.
Proof.
  unfold commitAfterReconcile. rewrite bind_eq. cbn -[bind].
  rewrite bind_eq.
  assert (when (negb (_readOnly (states w p)))
            (modifyState p (set_readOnly true)) w = Ok tt (freezePending p w))
    as ->.
  { unfold freezePending. by destruct (_readOnly (states w p)). }
  assert (editors (freezePending p w) = editors w) as He.
  { unfold freezePending. by destruct (_readOnly (states w p)). }
  assert (trace (freezePending p w) = trace w) as Htr.
  { unfold freezePending. by destruct (_readOnly (states w p)). }
  generalize dependent (freezePending p w). intros w0 He Htr.
  rewrite bind_eq. cbn [getEditor]. rewrite He.
  destruct needs.
  - run. rewrite gc_keeps.
    match goal with |- context [commitSelection _ _ _ _ _ _ _ _ _ ?W] =>
      exists W end.
    split; [reflexivity |]. split; [exact Htr |].
    unfold resetDirtyTracker.
    split; try (intros; project; reflexivity); try (project; reflexivity).
    intros e. project. rewrite He.
    destruct (decide (e = editor)) as [->|Hne];
      [by rewrite !upd_same | by rewrite !(upd_other _ _ _ _ Hne)].
  - run. rewrite gc_keeps.
    match goal with |- context [commitSelection _ _ _ _ _ _ _ _ _ ?W] =>
      exists W end.
    split; [reflexivity |]. split; [exact Htr |].
    split; try (intros; project; reflexivity); try (project; reflexivity).
    intros e. project.
    destruct (decide (e = editor)) as [->|Hne];
      [by rewrite !upd_same | by rewrite !(upd_other _ _ _ _ Hne)].
Qed.

Lemma commit_skips_rendering editor rc p w :
  _pendingEditorState (editors w editor) = Some p ->
  rendersOnCommit (editors w editor) = false ->
  commitPendingUpdates ext r editor rc w =
    commitAfterReconcile ext r editor rc (_rootElement (editors w editor))
      (_headless (editors w editor)
       || negb (is_Some_bool (_rootElement (editors w editor))))
      (negb (_dirtyType (editors w editor) =? NO_DIRTY_NODES)%nat)
      (_editorState (editors w editor)) p
      (_selection (states w (_editorState (editors w editor))))
      (_selection (states w p)) (ambient w) None
      (published editor rc p w).
Proof.
  intros Hp Hskip. unfold commitPendingUpdates, commitPendingUpdatesBody.
  run. rewrite Hp. run. unfold rendersOnCommit in Hskip. rewrite Hskip.
  run. reflexivity.
Qed.

Lemma commitSelection_spec editor rootElement skip needs p sel tags previous w :
  previous.1.1 = activeEditorState w ->
  previous.1.2 = activeEditor w ->
  exists w' dom,
    commitSelection ext editor rootElement skip needs p sel tags previous w
      = Ok tt w' /\
    trace w' = trace w ++ dom /\
    ((dom = [] /\ sameButTrace w w') \/
     (dom = [EvUpdateDOMSelection editor] /\ skip = false /\
      sameButTrace (updEditor editor (set_blockCursorElement None) w) w')).
Proof.
  intros Hs He. unfold commitSelection. run.
  match goal with
  | |- context [_editable ?e && ?a && ?b && ?c && ?d] =>
      destruct (_editable e && a && b && c && d) eqn:Hc
  end.
  - assert (skip = false) as ->.
    { destruct skip; [| done]. by rewrite andb_false_r in Hc. }
    assert ((needs || match sel with
                      | Some s => selection_dirty s
                      | None => true
                      end) = true) as Hsync.
    { destruct (needs || _); [done |].
      by rewrite !andb_false_r, ?andb_false_l in Hc. }
    run. unfold tryFinally. run. rewrite Hsync. run.
    eexists _, [EvUpdateDOMSelection editor].
    split; [reflexivity |]. split; [project; reflexivity |].
    right. split; [done |]. split; [done |].
    split; try (intros; project; reflexivity); try (project; reflexivity).
    unfold ambient. project. by rewrite Hs, He.
  - exists w, []. split; [done |]. split; [by rewrite app_nil_r |].
    left. split; [done | by split].
Qed.
End CommitTail.

Section CommitWithoutRendering.
Variable ext : Collaborators.
Variable r : Rec.
Hypothesis gc_keeps :
  forall e s, garbageCollectDetachedDecorators ext e s = e.

Lemma commitAfterReconcile_spec editor rc rootElement skip needs cur p selc
  selp mutatedNodes outsM outsT outsU outsD w :
  QuietNotification r w editor (_deferred (editors w editor))
    outsM outsT outsU outsD ->
  selectionChanged selc selp = false ->
  (needs = false -> _dirtyType (editors w editor) = NO_DIRTY_NODES) ->
  exists w' dom,
    commitAfterReconcile ext r editor rc rootElement skip needs cur p selc
      selp (ambient w) mutatedNodes w = Ok tt w' /\
    (dom = [] \/ dom = [EvUpdateDOMSelection editor] /\ skip = false) /\
    trace w' =
      trace w ++ dom ++
      notificationEvents ext (freezePending p w) editor (default cur rc) p
        mutatedNodes outsM outsT outsU outsD /\
    reconciler w' = reconciler w /\
    _editorState (editors w' editor) = _editorState (editors w editor) /\
    _pendingEditorState (editors w' editor) =
      _pendingEditorState (editors w editor) /\
    _readOnly (states w' p) = true /\
    _dirtyType (editors w' editor) = NO_DIRTY_NODES /\
    (needs = true ->
     leafSets w' (_dirtyLeaves (editors w' editor)) = [] /\
     elementMaps w' (_dirtyElements (editors w' editor)) = [] /\
     tagSets w' (_updateTags (editors w' editor)) = []) /\
    _updating (editors w' editor) = _updating (editors w editor) /\
    ambient w' = ambient w.
Proof.
  intros [Hdec HM HT HU Hlt HD Hq] Hsel Hclean.
  destruct (commitAfterReconcile_prepares ext r gc_keeps editor rc
              rootElement skip needs cur p selc selp (ambient w)
              mutatedNodes w) as (w1 & -> & Htr1 & H1).
  rewrite bind_eq.
  destruct (commitSelection_spec ext editor rootElement skip needs p selp
              (_updateTags (editors w editor)) (ambient w) w1)
    as (w2 & dom & -> & Htr2 & H2).
  { transitivity (ambient w1).1.1; [| done]. rewrite (sbt_ambient _ _ H1).
    destruct needs;
      by rewrite ?ambient_resetDirtyTracker, ambient_freezePending. }
  { transitivity (ambient w1).1.2; [| done]. rewrite (sbt_ambient _ _ H1).
    destruct needs;
      by rewrite ?ambient_resetDirtyTracker, ambient_freezePending. }
  assert (exists X,
            sameButTrace X w2 /\
            (X = w1 \/ X = updEditor editor (set_blockCursorElement None) w1) /\
            (dom = [] \/ dom = [EvUpdateDOMSelection editor] /\ skip = false))
    as (X & HX & HXw & Hdom).
  { destruct H2 as [[-> H2]|(-> & Hs & H2)]; eauto 10. }
  clear H2.
  destruct (commitNotify_calls ext r editor rc cur p selc selp
              mutatedNodes (_deferred (editors w editor))
              outsM outsT outsU outsD w2) as (w3 & Hrun & Htr3 & H3).
  { split.
    all: destruct HXw as [-> | ->]; chase.
    all: destruct needs; chase; try done.
    all: try lia. }
  { exact Hsel. }
  assert (_readOnly (states (freezePending p w) p) = true) as Hfrozen.
  { rewrite states_freezePending, decide_True by done. done. }
  assert (ambient w3 = ambient w) as Hamb.
  { rewrite (sbt_ambient _ _ H3), ambient_withFreshDeferred,
      (sbt_ambient _ _ HX).
    destruct HXw as [-> | ->]; rewrite ?ambient_updEditor, (sbt_ambient _ _ H1).
    all: destruct needs;
      by rewrite ?ambient_resetDirtyTracker, ambient_freezePending. }
  exists w3, dom. split; [exact Hrun |].
  split; [exact Hdom |].
  split.
  { rewrite Htr3, Htr2, Htr1.
    rewrite <- !app_assoc. do 2 f_equal.
    unfold notificationEvents.
    destruct HXw as [-> | ->]; chase; destruct needs; by chase. }
  repeat split; try exact Hamb.
  all: try intros ->.
  all: destruct HXw as [-> | ->]; chase.
  all: try (destruct needs eqn:Hneeds); chase; try done.
  all: by apply Hclean.
Qed.

Lemma QuietNotification_published editor rc p outsM outsT outsU outsD w :
  QuietNotification r w editor (_deferred (editors w editor))
    outsM outsT outsU outsD ->
  QuietNotification r (published editor rc p w) editor
    (_deferred (editors (published editor rc p w) editor))
    outsM outsT outsU outsD.
Proof. intros []. split; chase; done. Qed.

Lemma commitPendingUpdates_skipping_renderer editor rc p outsM outsT outsU outsD w :
  _pendingEditorState (editors w editor) = Some p ->
  rendersOnCommit (editors w editor) = false ->
  QuietNotification r w editor (_deferred (editors w editor))
    outsM outsT outsU outsD ->
  selectionChanged (_selection (states w (_editorState (editors w editor))))
    (_selection (states w p)) = false ->
  exists w' dom,
    commitPendingUpdates ext r editor rc w = Ok tt w' /\
    (dom = [] \/
     dom = [EvUpdateDOMSelection editor] /\
     _headless (editors w editor) = false) /\
    trace w' =
      trace w ++ EvCommit editor rc :: dom ++
      notificationEvents ext (freezePending p w) editor
        (default (_editorState (editors w editor)) rc) p None
        outsM outsT outsU outsD /\
    reconciler w' = reconciler w /\
    _editorState (editors w' editor) = p /\
    _pendingEditorState (editors w' editor) = None /\
    _readOnly (states w' p) = true /\
    _dirtyType (editors w' editor) = NO_DIRTY_NODES /\
    (_dirtyType (editors w editor) <> NO_DIRTY_NODES ->
     leafSets w' (_dirtyLeaves (editors w' editor)) = [] /\
     elementMaps w' (_dirtyElements (editors w' editor)) = [] /\
     tagSets w' (_updateTags (editors w' editor)) = []) /\
    _updating (editors w' editor) = _updating (editors w editor) /\
    ambient w' = ambient w.
Proof.
  intros Hp Hskip Hquiet Hsel.
  rewrite (commit_skips_rendering ext r editor rc p w Hp Hskip).
  set (needs := negb (_dirtyType (editors w editor) =? NO_DIRTY_NODES)%nat).
  set (skip := _headless (editors w editor) || _).
  destruct (commitAfterReconcile_spec editor rc
              (_rootElement (editors w editor)) skip needs
              (_editorState (editors w editor)) p
              (_selection (states w (_editorState (editors w editor))))
              (_selection (states w p)) None outsM outsT outsU outsD
              (published editor rc p w)
              (QuietNotification_published editor rc p _ _ _ _ w Hquiet)
              Hsel)
    as (w' & dom & Hrun & Hdom & Htr & Hrest).
  { subst needs. chase. by destruct (_dirtyType (editors w editor)). }
  exists w', dom. split; [exact Hrun |].
  split.
  { destruct Hdom as [-> | [-> Hs]]; [by left | right].
    split; [done |]. subst skip. by apply orb_false_elim in Hs as [-> _]. }
  split.
  { rewrite Htr. unfold published at 1. project.
    rewrite <- !app_assoc. cbn [app]. do 3 f_equal.
    unfold notificationEvents. cbn [default].
    by rewrite !states_freezePending. }
  assert (_dirtyType (editors w editor) <> NO_DIRTY_NODES -> needs = true)
    as Hneeds.
  { subst needs. by destruct (_dirtyType (editors w editor)). }
  revert Hrest. chase. tauto.
Qed.

(** X10.  A commit that does not call the renderer: the editor is headless
    or has no root element, or nothing is dirty, or there is no observer.
    Assumed: the listeners and the deferred callbacks only log, no
    decorators are pending, no update waits in the queue of the editor, the
    pending selection asks for no selection-change command (it is null, a
    range selection, or the current selection), and the garbage collection
    of decorators leaves the editor as it is.  Then the commit returns;
    the pending snapshot has become the current one and is frozen, nothing
    is pending, the dirty type is [NO_DIRTY_NODES], the renderer is not
    consulted, and the text content listeners, update listeners and
    deferred callbacks are notified in this order; the DOM selection is
    touched only if the editor is not headless. *)
Theorem commit_without_rendering editor rc p outsM outsT outsU outsD w :
  _pendingEditorState (editors w editor) = Some p ->
  rendersOnCommit (editors w editor) = false ->
  QuietNotification r w editor (_deferred (editors w editor))
    outsM outsT outsU outsD ->
  selectionChanged (_selection (states w (_editorState (editors w editor))))
    (_selection (states w p)) = false ->
  exists w' dom,
    commitPendingUpdates ext r editor rc w = Ok tt w' /\
    (dom = [] \/
     dom = [EvUpdateDOMSelection editor] /\
     _headless (editors w editor) = false) /\
    trace w' =
      trace w ++ EvCommit editor rc :: dom ++
      notificationEvents ext (freezePending p w) editor
        (default (_editorState (editors w editor)) rc) p None
        outsM outsT outsU outsD /\
    reconciler w' = reconciler w /\
    _editorState (editors w' editor) = p /\
    _pendingEditorState (editors w' editor) = None /\
    _readOnly (states w' p) = true /\
    _dirtyType (editors w' editor) = NO_DIRTY_NODES /\
    (_dirtyType (editors w editor) <> NO_DIRTY_NODES ->
     leafSets w' (_dirtyLeaves (editors w' editor)) = [] /\
     elementMaps w' (_dirtyElements (editors w' editor)) = [] /\
     tagSets w' (_updateTags (editors w' editor)) = []) /\
    _updating (editors w' editor) = _updating (editors w editor) /\
    ambient w' = ambient w.
Proof.
  exact (commitPendingUpdates_skipping_renderer editor rc p outsM outsT
           outsU outsD w).
Qed.

Lemma QuietNotification_same outsM outsT outsU outsD editor deferred w w' :
  sameButTrace w w' ->
  QuietNotification r w editor deferred outsM outsT outsU outsD ->
  QuietNotification r w' editor deferred outsM outsT outsU outsD.
Proof. intros H []. split; chase; done. Qed.
End CommitWithoutRendering.

Section CommitWithRendering.
Variable ext : Collaborators.
Variable r : Rec.
Hypothesis gc_keeps :
  forall e s, garbageCollectDetachedDecorators ext e s = e.

Lemma commitReconcile_returns editor rootElement cur p m rest w :
  rendererReturns w m rest ->
  exists w',
    commitReconcile ext r editor rootElement cur p (ambient w)
      (_updating (editors w editor)) w = Ok (Continue (Some m)) w' /\
    trace w' = trace (rendered editor cur p rest w) /\
    sameButTrace (rendered editor cur p rest w) w'.
Proof.
  intros Hret. unfold commitReconcile. run. unfold tryFinally, tryCatch.
  run. unfold reconcileRoot. run.
  destruct Hret as [Hrec | (Hrec & -> & ->)]; rewrite Hrec; cbn iota.
  all: eexists; split; [reflexivity |]; split; [project; reflexivity |].
  all: unfold rendered.
  all: split; try (intros; project; reflexivity); try (project; reflexivity).
  all: try (project; by rewrite Hrec).
  all: intros e; project.
  all: destruct (decide (e = editor)) as [->|Hne];
         [rewrite ?upd_same | by rewrite !(upd_other _ _ _ _ Hne)].
  all: by destruct (editors w editor).
Qed.

Lemma commit_renders editor rc p w :
  _pendingEditorState (editors w editor) = Some p ->
  rendersOnCommit (editors w editor) = true ->
  commitPendingUpdates ext r editor rc w =
    (let* flow :=
       commitReconcile ext r editor (_rootElement (editors w editor))
         (_editorState (editors w editor)) p
         (ambient (published editor rc p w))
         (_updating (editors (published editor rc p w) editor)) in
     match flow with
     | Returned => ret tt
     | Continue mutatedNodes =>
         commitAfterReconcile ext r editor rc
           (_rootElement (editors w editor))
           (_headless (editors w editor)
            || negb (is_Some_bool (_rootElement (editors w editor))))
           (negb (_dirtyType (editors w editor) =? NO_DIRTY_NODES)%nat)
           (_editorState (editors w editor)) p
           (_selection (states w (_editorState (editors w editor))))
           (_selection (states w p)) (ambient w) mutatedNodes
     end) (published editor rc p w).
Proof.
  intros Hp Hrender. unfold commitPendingUpdates, commitPendingUpdatesBody.
  run. rewrite Hp. run. unfold rendersOnCommit in Hrender. rewrite Hrender.
  unfold published. project. cbn [_updating set_editorState
    set_pendingEditorState]. reflexivity.
Qed.

Lemma rendered_published_quiet editor rc p cur rest outsM outsT outsU outsD w :
  QuietNotification r w editor (_deferred (editors w editor))
    outsM outsT outsU outsD ->
  QuietNotification r (rendered editor cur p rest (published editor rc p w))
    editor
    (_deferred
       (editors (rendered editor cur p rest (published editor rc p w)) editor))
    outsM outsT outsU outsD.
Proof. intros []. unfold rendered. split; chase; done. Qed.

(** X11.  A commit that calls the renderer, and the renderer returns.
    Assumed: the listeners and the deferred callbacks only log, no
    decorators are pending, no update waits in the queue of the editor, the
    pending selection asks for no selection-change command (it is null, a
    range selection, or the current selection), and the garbage collection
    of decorators leaves the editor as it is.  Then the renderer is called
    once, with the current and the pending snapshot and the dirty tracker
    of the editor; the commit returns with the pending snapshot as the
    current one, frozen, and nothing pending; the dirty tracker is empty;
    and the listeners are notified in order, the mutation listeners with
    what the renderer returned. *)
Theorem commit_with_rendering editor rc p m rest outsM outsT outsU outsD w :
  _pendingEditorState (editors w editor) = Some p ->
  rendersOnCommit (editors w editor) = true ->
  rendererReturns w m rest ->
  QuietNotification r w editor (_deferred (editors w editor))
    outsM outsT outsU outsD ->
  selectionChanged (_selection (states w (_editorState (editors w editor))))
    (_selection (states w p)) = false ->
  exists w' dom,
    commitPendingUpdates ext r editor rc w = Ok tt w' /\
    (dom = [] \/ dom = [EvUpdateDOMSelection editor]) /\
    trace w' =
      trace w ++ EvCommit editor rc :: reconcileEvent w editor p :: dom ++
      notificationEvents ext (freezePending p w) editor
        (default (_editorState (editors w editor)) rc) p (Some m)
        outsM outsT outsU outsD /\
    reconciler w' = rest /\
    _editorState (editors w' editor) = p /\
    _pendingEditorState (editors w' editor) = None /\
    _readOnly (states w' p) = true /\
    _dirtyType (editors w' editor) = NO_DIRTY_NODES /\
    leafSets w' (_dirtyLeaves (editors w' editor)) = [] /\
    elementMaps w' (_dirtyElements (editors w' editor)) = [] /\
    _updating (editors w' editor) = _updating (editors w editor) /\
    ambient w' = ambient w.
Proof.
  intros Hp Hrender Hret Hquiet Hsel.
  rewrite (commit_renders editor rc p w Hp Hrender). rewrite bind_eq.
  destruct (commitReconcile_returns editor (_rootElement (editors w editor))
              (_editorState (editors w editor)) p m rest
              (published editor rc p w)) as (w0 & -> & Htr0 & H0).
  { exact Hret. }
  assert (negb (_dirtyType (editors w editor) =? NO_DIRTY_NODES)%nat = true)
    as Hneeds.
  { unfold rendersOnCommit in Hrender.
    by destruct (negb (_dirtyType (editors w editor) =? NO_DIRTY_NODES)%nat);
      rewrite ?andb_false_r in Hrender. }
  rewrite Hneeds.
  set (skip := _headless (editors w editor) || _).
  assert (ambient w = ambient w0) as ->.
  { by rewrite (sbt_ambient _ _ H0). }
  assert (_deferred (editors w editor) = _deferred (editors w0 editor)) as Hd.
  { unfold rendered in H0. by chase. }
  destruct (commitAfterReconcile_spec ext r gc_keeps editor rc
              (_rootElement (editors w editor)) skip true
              (_editorState (editors w editor)) p
              (_selection (states w (_editorState (editors w editor))))
              (_selection (states w p)) (Some m) outsM outsT outsU outsD w0)
    as (w' & dom & Hrun & Hdom & Htr & Hrec & Hcur & Hpen & Hro & Hdt & Hdirty
        & Hupd & Hamb); [| exact Hsel | done |].
  { apply (QuietNotification_same r _ _ _ _ _ _ _ _ H0).
    rewrite <- Hd.
    pose proof (rendered_published_quiet editor rc p
                  (_editorState (editors w editor)) rest _ _ _ _ w Hquiet)
      as Hq.
    revert Hq. unfold rendered. by chase. }
  destruct (Hdirty eq_refl) as (Hleaves & Helements & _).
  exists w', dom. split; [exact Hrun |].
  split; [destruct Hdom as [-> | [-> _]]; [by left | by right] |].
  split.
  { rewrite Htr, Htr0. unfold rendered at 1, published at 1. project.
    rewrite <- !app_assoc. cbn [app]. do 4 f_equal; [unfold reconcileEvent; by chase |].
    unfold notificationEvents, rendered in *. chase.
    by rewrite !states_freezePending; chase. }
  unfold rendered in *.
  revert Hrec Hcur Hpen Hupd Hamb. chase. intros. repeat split; done.
Qed.
End CommitWithRendering.

Lemma notifyingWorld_quiet ext headless k :
  QuietNotification (knot ext (S k)) (notifyingWorld headless) 0 0
    [[EvEmit 4]] [[EvEmit 3]] [[EvEmit 1]; [EvEmit 2]] [[EvEmit 6]].
Proof.
  split; try reflexivity; repeat constructor; apply logsOnly_emit.
Defined.

Lemma commit_notifies_in_order_witness :
  exists w',
    commitNotify textCollaborators (knot textCollaborators 1) 0 None 0 1
      None None (Some ["leaf"%string]) 0 (notifyingWorld true) = Ok tt w' /\
    trace w' =
      [EvMutationListener 0 0 "leaf"; EvEmit 4;
       EvListener LTextContent 0 0; EvEmit 3;
       EvListener LUpdate 0 0; EvEmit 1; EvListener LUpdate 0 1; EvEmit 2;
       EvDeferred 0 0; EvEmit 6].
Proof.
  destruct (commit_notifies_in_order textCollaborators
              (knot textCollaborators 1) 0 None 0 1 None None
              (Some ["leaf"%string]) 0 _ _ _ _ (notifyingWorld true)
              (notifyingWorld_quiet textCollaborators true 0) eq_refl)
    as (w' & Hrun & Htr & _).
  exists w'. split; [exact Hrun | exact Htr].
Defined.

Lemma commit_without_rendering_witness :
  exists w',
    commitPendingUpdates textCollaborators (knot textCollaborators 1) 0 None
      (notifyingWorld true) = Ok tt w' /\
    trace w' =
      [EvCommit 0 None;
       EvListener LTextContent 0 0; EvEmit 3;
       EvListener LUpdate 0 0; EvEmit 1; EvListener LUpdate 0 1; EvEmit 2;
       EvDeferred 0 0; EvEmit 6] /\
    _editorState (editors w' 0) = 1 /\
    _readOnly (states w' 1) = true.
Proof.
  destruct (commit_without_rendering textCollaborators
              (knot textCollaborators 1) (fun _ _ => eq_refl) 0 None 1
              _ _ _ _ (notifyingWorld true) eq_refl eq_refl
              (notifyingWorld_quiet textCollaborators true 0) eq_refl)
    as (w' & dom & Hrun & Hdom & Htr & _ & Hcur & _ & Hro & _).
  exists w'. split; [exact Hrun |]. split; [| split; [exact Hcur | exact Hro]].
  destruct Hdom as [-> | [_ Hh]]; [exact Htr | discriminate Hh].
Defined.

Lemma commit_with_rendering_witness :
  exists w' dom,
    commitPendingUpdates textCollaborators (knot textCollaborators 1) 0 None
      (set_reconciler [Reconciled ["leaf"%string]] (notifyingWorld false))
      = Ok tt w' /\
    trace w' =
      [EvCommit 0 None; EvReconcile 0 0 1 HAS_DIRTY_NODES [] []] ++ dom ++
      [EvMutationListener 0 0 "leaf"; EvEmit 4;
       EvListener LTextContent 0 0; EvEmit 3;
       EvListener LUpdate 0 0; EvEmit 1; EvListener LUpdate 0 1; EvEmit 2;
       EvDeferred 0 0; EvEmit 6] /\
    reconciler w' = [].
Proof.
  destruct (commit_with_rendering textCollaborators
              (knot textCollaborators 1) (fun _ _ => eq_refl) 0 None 1
              ["leaf"%string] [] [[EvEmit 4]] [[EvEmit 3]]
              [[EvEmit 1]; [EvEmit 2]] [[EvEmit 6]]
              (set_reconciler [Reconciled ["leaf"%string]]
                 (notifyingWorld false)) eq_refl eq_refl)
    as (w' & dom & Hrun & Hdom & Htr & Hrec & _).
  { by left. }
  { split; try reflexivity; repeat constructor; apply logsOnly_emit. }
  { reflexivity. }
  exists w', dom. split; [exact Hrun |]. split; [exact Htr | exact Hrec].
Defined.
(** ** Reading *)

Section Read.
Variable ext : Collaborators.
Variable r : Rec.

Lemma readEditorState_eq editor editorState callbackFn w :
  readEditorState r editor editorState callbackFn w =
    restoring w (rec_script r callbackFn (reading editor editorState w)).
Proof.
  unfold readEditorState. rewrite bind_eq. cbn -[bind tryFinally].
  do 3 (rewrite bind_eq; cbn -[bind tryFinally]).
  unfold tryFinally, restoring, reading.
  by destruct (rec_script r callbackFn _).
Qed.

Lemma commitPendingUpdates_without_pending editor rc w :
  _pendingEditorState (editors w editor) = None ->
  commitPendingUpdates ext r editor rc w =
    Ok tt (set_trace (trace w ++ [EvCommit editor rc]) w).
Proof.
  intros Hp. unfold commitPendingUpdates, commitPendingUpdatesBody.
  rewrite bind_eq. cbn -[bind]. rewrite bind_eq. cbn -[bind]. by rewrite Hp.
Qed.

(** X12.  [LexicalEditor.read] on an editor without pending snapshot commits
    nothing and notifies nobody: the callback runs at once, against the
    current snapshot, in read-only mode, and the ambient context is
    restored afterwards, whether the callback returns or throws. *)
Theorem read_without_pending editor callbackFn w :
  _pendingEditorState (editors w editor) = None ->
  read ext r editor callbackFn w =
    restoring w
      (rec_script r callbackFn
         (reading (Some editor) (_editorState (editors w editor))
            (set_trace (trace w ++ [EvCommit editor None]) w))).
Proof.
  intros Hp. unfold read.
  rewrite bind_eq, (commitPendingUpdates_without_pending _ _ _ Hp).
  rewrite bind_eq. cbn -[bind]. by rewrite readEditorState_eq.
Qed.

Hypothesis gc_keeps :
  forall e s, garbageCollectDetachedDecorators ext e s = e.

(** X13.  [LexicalEditor.read] on an editor with a pending snapshot [p]
    commits first.  Assumed: the commit does not call the renderer, the
    listeners and the deferred callbacks only log, no decorators are
    pending, no update waits in the queue of the editor, the pending
    selection asks for no selection-change command, and the garbage
    collection of decorators leaves the editor as it is.  Then, when the
    callback starts, [p] is the current snapshot and frozen, nothing is
    pending, the listeners have been notified, and [p] is the active
    snapshot in read-only mode. *)
Theorem read_commits_pending_first editor callbackFn p outsM outsT outsU
  outsD w :
  _pendingEditorState (editors w editor) = Some p ->
  rendersOnCommit (editors w editor) = false ->
  QuietNotification r w editor (_deferred (editors w editor))
    outsM outsT outsU outsD ->
  selectionChanged (_selection (states w (_editorState (editors w editor))))
    (_selection (states w p)) = false ->
  exists wc dom,
    read ext r editor callbackFn w =
      restoring w (rec_script r callbackFn (reading (Some editor) p wc)) /\
    (dom = [] \/
     dom = [EvUpdateDOMSelection editor] /\
     _headless (editors w editor) = false) /\
    trace wc =
      trace w ++ EvCommit editor None :: dom ++
      notificationEvents ext (freezePending p w) editor
        (_editorState (editors w editor)) p None outsM outsT outsU outsD /\
    _editorState (editors wc editor) = p /\
    _pendingEditorState (editors wc editor) = None /\
    _readOnly (states (reading (Some editor) p wc) p) = true /\
    isCurrentlyReadOnlyMode (reading (Some editor) p wc)
      = Ok true (reading (Some editor) p wc).
Proof.
  intros Hp Hskip Hquiet Hsel.
  destruct (commitPendingUpdates_skipping_renderer ext r gc_keeps editor None
              p outsM outsT outsU outsD w Hp Hskip Hquiet Hsel)
    as (wc & dom & Hrun & Hdom & Htr & _ & Hcur & Hpen & Hro & _ & _ & _
        & Hamb).
  exists wc, dom. unfold read. rewrite bind_eq, Hrun.
  rewrite bind_eq. cbn [getEditor]. rewrite Hcur, readEditorState_eq.
  split.
  { unfold restoring. rewrite Hamb. done. }
  split; [exact Hdom |].
  split; [exact Htr |]. split; [done |]. split; [exact Hpen |].
  split; [exact Hro |]. reflexivity.
Qed.

(** X14.  A commit right after a commit does nothing.  Assumed of the
    first commit: it does not call the renderer, the listeners and the
    deferred callbacks only log, no decorators are pending, no update
    waits in the queue of the editor, the pending selection asks for no
    selection-change command, and the garbage collection of decorators
    leaves the editor as it is.  Then the first commit publishes the
    pending snapshot, and committing again notifies nobody and changes
    nothing. *)
Theorem second_commit_does_nothing editor rc rc' p outsM outsT outsU outsD w :
  _pendingEditorState (editors w editor) = Some p ->
  rendersOnCommit (editors w editor) = false ->
  QuietNotification r w editor (_deferred (editors w editor))
    outsM outsT outsU outsD ->
  selectionChanged (_selection (states w (_editorState (editors w editor))))
    (_selection (states w p)) = false ->
  exists w',
    commitPendingUpdates ext r editor rc w = Ok tt w' /\
    commitPendingUpdates ext r editor rc' w' =
      Ok tt (set_trace (trace w' ++ [EvCommit editor rc']) w').
Proof.
  intros Hp Hskip Hquiet Hsel.
  destruct (commitPendingUpdates_skipping_renderer ext r gc_keeps editor rc
              p outsM outsT outsU outsD w Hp Hskip Hquiet Hsel)
    as (w' & dom & Hrun & _ & _ & _ & _ & Hpen & _).
  exists w'. split; [exact Hrun |].
  by apply commitPendingUpdates_without_pending.
Qed.
End Read.

(** X15.  A callback of [readEditorState] that writes (marks a node dirty,
    removes a node, sets the selection or the composition key) fails with
    the read-only error before it has changed anything, and the world
    after the call is the world before it. *)
Theorem read_scope_rejects_mutation ext fuel editor editorState s w :
  isMutation s = true ->
  readEditorState (knot ext (S fuel)) editor editorState s w =
    Throw (ErrorObject MsgReadOnlyMode) w.
Proof.
  intros Hs. rewrite readEditorState_eq.
  destruct s; try discriminate Hs; destruct w; reflexivity.
Qed.

Lemma read_without_pending_witness :
  read inertCollaborators (knot inertCollaborators 1) 0 (SEmit 1)
    (newWorld 1 (fun id => newEditor id None true ∅)) =
  restoring (newWorld 1 (fun id => newEditor id None true ∅))
    (rec_script (knot inertCollaborators 1) (SEmit 1)
       (reading (Some 0) 0
          (set_trace [EvCommit 0 None]
             (newWorld 1 (fun id => newEditor id None true ∅))))).
Proof.
  exact (read_without_pending inertCollaborators (knot inertCollaborators 1)
           0 (SEmit 1) (newWorld 1 (fun id => newEditor id None true ∅))
           eq_refl).
Defined.

Lemma read_commits_pending_first_witness :
  exists wc,
    read textCollaborators (knot textCollaborators 1) 0 (SEmit 7)
      (notifyingWorld true) =
      restoring (notifyingWorld true)
        (rec_script (knot textCollaborators 1) (SEmit 7)
           (reading (Some 0) 1 wc)) /\
    trace wc =
      [EvCommit 0 None;
       EvListener LTextContent 0 0; EvEmit 3;
       EvListener LUpdate 0 0; EvEmit 1; EvListener LUpdate 0 1; EvEmit 2;
       EvDeferred 0 0; EvEmit 6] /\
    _editorState (editors wc 0) = 1.
Proof.
  destruct (read_commits_pending_first textCollaborators
              (knot textCollaborators 1) (fun _ _ => eq_refl) 0 (SEmit 7) 1
              _ _ _ _ (notifyingWorld true) eq_refl eq_refl
              (notifyingWorld_quiet textCollaborators true 0) eq_refl)
    as (wc & dom & Hrun & Hdom & Htr & Hcur & _).
  exists wc. split; [exact Hrun |]. split; [| exact Hcur].
  destruct Hdom as [-> | [_ Hh]]; [exact Htr | discriminate Hh].
Defined.

Lemma second_commit_does_nothing_witness :
  exists w',
    commitPendingUpdates textCollaborators (knot textCollaborators 1) 0 None
      (notifyingWorld true) = Ok tt w' /\
    commitPendingUpdates textCollaborators (knot textCollaborators 1) 0 None
      w' = Ok tt (set_trace (trace w' ++ [EvCommit 0 None]) w').
Proof.
  exact (second_commit_does_nothing textCollaborators
           (knot textCollaborators 1) (fun _ _ => eq_refl) 0 None None 1
           [[EvEmit 4]] [[EvEmit 3]] [[EvEmit 1]; [EvEmit 2]] [[EvEmit 6]]
           (notifyingWorld true) eq_refl eq_refl
           (notifyingWorld_quiet textCollaborators true 0) eq_refl).
Defined.

Lemma read_scope_rejects_mutation_witness :
  readEditorState (knot inertCollaborators 1) (Some 0) 0
    (SSetSelection None) (newWorld 1 (fun id => newEditor id None true ∅)) =
  Throw (ErrorObject MsgReadOnlyMode)
    (newWorld 1 (fun id => newEditor id None true ∅)).
Proof.
  exact (read_scope_rejects_mutation inertCollaborators 0 (Some 0) 0
           (SSetSelection None)
           (newWorld 1 (fun id => newEditor id None true ∅)) eq_refl).
Defined.
(** ** The tail of an update, and its tags *)

Section UpdateTail.
Variable ext : Collaborators.
Variable r : Rec.

(** X16.  Without [flushSync] the tail of [$beginUpdate] never commits.  When
    there is something to commit and the pending snapshot was cloned by this
    update, one microtask is scheduled; when there is nothing to commit and
    the snapshot was cloned, the snapshot is dropped, the update tags are
    cleared and the editor gets a new, empty array of deferred callbacks;
    when the snapshot was not cloned by this update, nothing happens. *)
Theorem update_without_flushSync_never_commits editor pendingEditorState
  editorStateWasCloned updateTags w :
  _flushSync (states w pendingEditorState) = false ->
  exists w',
    beginUpdateFinish ext r editor pendingEditorState editorStateWasCloned
      updateTags w = Ok tt w' /\
    trace w' =
      trace w ++
      (if shouldUpdate ext w editor pendingEditorState && editorStateWasCloned
       then [EvScheduleMicroTask editor] else []) /\
    microtasks w' =
      microtasks w ++
      (if shouldUpdate ext w editor pendingEditorState && editorStateWasCloned
       then [editor] else []) /\
    _pendingEditorState (editors w' editor) =
      (if negb (shouldUpdate ext w editor pendingEditorState)
          && editorStateWasCloned
       then None else _pendingEditorState (editors w editor)) /\
    (shouldUpdate ext w editor pendingEditorState = false ->
     editorStateWasCloned = true ->
     tagSets w' updateTags = [] /\
     deferredArrays w' (_deferred (editors w' editor)) = []) /\
    _flushSync (states w' pendingEditorState) = false /\
    reconciler w' = reconciler w.
Proof.
  intros Hfs.
  assert (beginUpdateFinish ext r editor pendingEditorState
            editorStateWasCloned updateTags w =
          (if shouldUpdate ext w editor pendingEditorState then
             if _flushSync (states w pendingEditorState) then
               modifyState pendingEditorState (set_flushSync false) >>
               commitPendingUpdates ext r editor None
             else if editorStateWasCloned then scheduleMicroTask editor
             else ret tt
           else
             modifyState pendingEditorState (set_flushSync false) >>
             if editorStateWasCloned then
               writeTags updateTags [] >>
               let* fresh := newDeferredArray in
               modifyEditor editor (set_deferred fresh) >>
               modifyEditor editor (set_pendingEditorState None)
             else ret tt) w) as -> by reflexivity.
  rewrite Hfs.
  destruct (shouldUpdate ext w editor pendingEditorState) eqn:Hsu;
    destruct editorStateWasCloned; run.
  all: eexists; split; [reflexivity |].
  all: repeat split; try discriminate; project; cbn;
    rewrite ?upd_same, ?app_nil_r; try done.
  all: destruct (states w pendingEditorState); done.
Qed.
End UpdateTail.

Lemma addTags_loop (updateTags : Ref) (tags : list string) : forall w,
  exists w',
    forEach tags (fun t =>
      let* ts := readTags updateTags in
      writeTags updateTags (if bool_decide (t ∈ ts) then ts else ts ++ [t])) w
      = Ok tt w' /\
    (exists added,
       tagSets w' updateTags = tagSets w updateTags ++ added /\
       NoDup added /\
       forall t, t ∈ added <-> t ∈ tags /\ t ∉ tagSets w updateTags) /\
    (forall q, q <> updateTags -> tagSets w' q = tagSets w q) /\
    editors w' = editors w /\
    trace w' = trace w.
Proof.
  induction tags as [|t tags IH]; intros w.
  { exists w. split; [done |]. split; [| done].
    exists []. rewrite app_nil_r. split; [done |]. split; [constructor |].
    intros t. split; [by intros ?%elem_of_nil | by intros [?%elem_of_nil _]]. }
  cbn -[bind]. run.
  match goal with
  | |- context [forEach tags ?f ?W] =>
      destruct (IH W) as (w' & -> & (added & Hadd & Hnd & Hin) & Hq & He & Ht)
  end.
  revert Hadd Hin Hq He Ht. project. intros Hadd Hin Hq He Ht.
  exists w'. split; [done |]. split; [| split; [| done]].
  - destruct (bool_decide_reflect (t ∈ tagSets w updateTags)) as [Hold|Hnew].
    + exists added. split; [done |]. split; [done |]. intros t0.
      rewrite Hin, elem_of_cons. split; [tauto |].
      intros [[-> | ?] ?]; tauto.
    + exists (t :: added). split; [by rewrite Hadd, <- app_assoc |]. split.
      * constructor; [| done]. rewrite Hin, elem_of_app, list_elem_of_singleton.
        tauto.
      * intros t0. rewrite !elem_of_cons, Hin, elem_of_app,
          list_elem_of_singleton.
        destruct (decide (t0 = t)) as [-> | Hne]; tauto.
  - intros q Hne. rewrite (Hq q Hne). by apply upd_other.
Qed.

(** X17.  [addTags] does nothing for a tag that is missing or is the empty
    string.  Otherwise it adds the given tag, or the tags of the given
    array, as to a set: afterwards the update tags of the editor are the
    ones it had, in their order, followed by the given tags that it did
    not have, each of them once.  Nothing else changes. *)
Theorem addTags_adds_each_tag_once editor tags w :
  exists w' added,
    addTags editor tags w = Ok tt w' /\
    tagSets w' (_updateTags (editors w editor)) =
      tagSets w (_updateTags (editors w editor)) ++ added /\
    NoDup added /\
    (forall t,
       t ∈ added <->
       t ∈ tagsGiven tags /\
       t ∉ tagSets w (_updateTags (editors w editor))) /\
    (tagsGiven tags = [] -> w' = w) /\
    (forall q, q <> _updateTags (editors w editor) ->
       tagSets w' q = tagSets w q) /\
    editors w' = editors w /\
    trace w' = trace w.
Proof.
  assert (exists w' added,
            forEach (tagsGiven tags) (fun t =>
              let* ts := readTags (_updateTags (editors w editor)) in
              writeTags (_updateTags (editors w editor))
                (if bool_decide (t ∈ ts) then ts else ts ++ [t])) w
              = Ok tt w' /\
            tagSets w' (_updateTags (editors w editor)) =
              tagSets w (_updateTags (editors w editor)) ++ added /\
            NoDup added /\
            (forall t,
               t ∈ added <->
               t ∈ tagsGiven tags /\
               t ∉ tagSets w (_updateTags (editors w editor))) /\
            (tagsGiven tags = [] -> w' = w) /\
            (forall q, q <> _updateTags (editors w editor) ->
               tagSets w' q = tagSets w q) /\
            editors w' = editors w /\
            trace w' = trace w) as (w' & added & Hrun & Hrest).
  { destruct (addTags_loop (_updateTags (editors w editor)) (tagsGiven tags) w)
      as (w' & Hrun & (added & Hadd & Hnd & Hin) & Hq & He & Ht).
    exists w', added. split; [exact Hrun |]. split; [exact Hadd |].
    split; [exact Hnd |]. split; [exact Hin |]. split; [| done].
    intros Hnil. rewrite Hnil in Hrun. by injection Hrun. }
  exists w', added. split; [| exact Hrest].
  rewrite <- Hrun. unfold addTags, tagsGiven.
  destruct tags as [[t|ts]|]; [| done | done].
  by destruct (bool_decide (t = EmptyString)).
Qed.

Lemma update_without_flushSync_never_commits_witness :
  exists w',
    beginUpdateFinish inertCollaborators (knot inertCollaborators 1) 0 1 true
      4 (notifyingWorld true) = Ok tt w' /\
    trace w' = [EvScheduleMicroTask 0] /\
    microtasks w' = [0] /\
    _pendingEditorState (editors w' 0) = Some 1.
Proof.
  destruct (update_without_flushSync_never_commits inertCollaborators
              (knot inertCollaborators 1) 0 1 true 4 (notifyingWorld true)
              eq_refl)
    as (w' & Hrun & Htr & Hm & Hp & _).
  exists w'. split; [exact Hrun |]. split; [exact Htr |].
  split; [exact Hm | exact Hp].
Defined.
(** ** Commands *)

Section Commands.
Variable r : Rec.

Lemma triggerCommandListenersFrom_eq editor type eds i :
  triggerCommandListenersFrom r editor type eds i =
    (let* returnVal := triggerCommandListenersAt r editor type i eds in
     if returnVal then ret true
     else
       match i with
       | 0 => ret false
       | S i' => triggerCommandListenersFrom r editor type eds i'
       end).
Proof. by destruct i. Qed.

(** X18.  A command for which no editor of the chain has a listener
    registered is not handled: the walk returns [false], starts no update
    and leaves the world as it is. *)
Theorem command_without_listeners_is_not_handled editor type eds i w :
  Forall (fun e => _commands (editors w e) !! type = None) eds ->
  triggerCommandListenersFrom r editor type eds i w = Ok false w.
Proof.
  intros Hnone.
  assert (forall k, triggerCommandListenersAt r editor type k eds w
                    = Ok false w) as Hat.
  { intros k. induction Hnone as [|e eds He _ IH]; [done |].
    cbn -[bind]. rewrite bind_eq. cbn -[bind]. rewrite He.
    rewrite bind_eq. cbn -[bind]. exact IH. }
  induction i as [|i IH]; rewrite triggerCommandListenersFrom_eq, bind_eq, Hat;
    [done | exact IH].
Qed.

Lemma runCommandListeners_declined c e type prio ls outs : forall j w,
  Forall2 (answers r false) ls outs ->
  runCommandListeners r c e type prio j ls w =
    Ok tt
      (set_trace
         (trace w ++ callbackEvents (EvCommandListener e type prio) j outs) w).
Proof.
  intros j w H. revert j w.
  induction H as [|l evs ls outs Hl _ IH]; intros j w.
  { cbn. by rewrite app_nil_r, set_trace_id. }
  cbn -[bind]. rewrite bind_eq. cbn -[bind]. rewrite bind_eq, Hl.
  cbn -[bind]. rewrite IH. project. rewrite !set_trace_twice. do 2 f_equal.
  by rewrite <- !app_assoc.
Qed.

Lemma runCommandListeners_handled c e type prio pre l post outs ev :
  forall j w,
  Forall2 (answers r false) pre outs ->
  answers r true l ev ->
  runCommandListeners r c e type prio j (pre ++ l :: post) w =
    Ok tt
      (set_cells (upd c true (cells w))
         (set_trace
            (trace w ++
             callbackEvents (EvCommandListener e type prio) j (outs ++ [ev]))
            w)).
Proof.
  intros j w H Hl. revert j w.
  induction H as [|l0 evs pre outs Hl0 _ IH]; intros j w.
  { cbn -[bind]. rewrite bind_eq. cbn -[bind]. rewrite bind_eq, Hl.
    project. rewrite !set_trace_twice. unfold writeCell, modify. project.
    do 3 f_equal. by rewrite app_nil_r, <- !app_assoc. }
  cbn -[bind]. rewrite bind_eq. cbn -[bind]. rewrite bind_eq, Hl0.
  cbn -[bind]. rewrite IH. project. rewrite !set_trace_twice. do 2 f_equal.
  by rewrite <- !app_assoc.
Qed.

(** One priority level of one editor, during an update of that editor, all
    of whose listeners decline. *)
Lemma triggerCommandListenersAt_declined editor type i e rest prios outs w :
  activeEditor w = Some e ->
  _commands (editors w e) !! type = Some prios ->
  Forall2 (answers r false) (default [] (prios !! i)) outs ->
  exists w',
    triggerCommandListenersAt r editor type i (e :: rest) w =
      triggerCommandListenersAt r editor type i rest w' /\
    trace w' = trace w ++ callbackEvents (EvCommandListener e type i) 0 outs /\
    ambient w' = ambient w /\
    (forall e', editors w' e' = editors w e') /\
    (forall s, states w' s = states w s).
Proof.
  intros Hact Hcmd Hls.
  cbn -[bind]. rewrite bind_eq. cbn -[bind]. rewrite Hcmd.
  destruct (prios !! i) as [ls|] eqn:Hi; cbn [default] in Hls.
  - rewrite bind_eq, bind_eq. cbn -[bind]. rewrite bind_eq.
    unfold updateEditorSync. rewrite bind_eq. cbn -[bind].
    rewrite Hact, bool_decide_eq_true_2 by done. cbn -[bind].
    rewrite (runCommandListeners_declined _ _ _ _ _ _ _ _ Hls).
    cbn -[bind]. rewrite upd_same. eexists. split; [reflexivity |].
    by repeat split.
  - inversion Hls; subst. rewrite bind_eq. cbn -[bind].
    exists w. rewrite app_nil_r. by repeat split.
Qed.

(** The same when one listener accepts: the listeners after it are not
    called, and the editors after this one are not asked. *)
Lemma triggerCommandListenersAt_handled editor type i e rest prios pre l post
  outs ev w :
  activeEditor w = Some e ->
  _commands (editors w e) !! type = Some prios ->
  prios !! i = Some (pre ++ l :: post) ->
  Forall2 (answers r false) pre outs ->
  answers r true l ev ->
  exists w',
    triggerCommandListenersAt r editor type i (e :: rest) w = Ok true w' /\
    trace w' =
      trace w ++ callbackEvents (EvCommandListener e type i) 0 (outs ++ [ev]) /\
    ambient w' = ambient w /\
    (forall e', editors w' e' = editors w e') /\
    (forall s, states w' s = states w s).
Proof.
  intros Hact Hcmd Hi Hpre Hl.
  cbn -[bind]. rewrite bind_eq. cbn -[bind]. rewrite Hcmd, Hi.
  rewrite bind_eq, bind_eq. cbn -[bind]. rewrite bind_eq.
  unfold updateEditorSync. rewrite bind_eq. cbn -[bind].
  rewrite Hact, bool_decide_eq_true_2 by done. cbn -[bind].
  rewrite (runCommandListeners_handled _ _ _ _ _ _ _ _ _ _ _ Hpre Hl).
  cbn -[bind]. rewrite !upd_same. eexists. split; [reflexivity |].
  by repeat split.
Qed.

(** X19.  During an update of editor [e], a command dispatched to [e] goes
    to its listeners from the highest priority down, in the order of
    registration within a priority; the first listener that returns [true]
    ends the walk, which returns [true]: no listener after it and no
    listener of a lower priority is called. *)
Theorem command_goes_to_first_accepting_listener editor type e prios i n
  pre l post outs outsPre ev w :
  activeEditor w = Some e ->
  _commands (editors w e) !! type = Some prios ->
  i <= n ->
  (forall k, i < k <= n ->
     Forall2 (answers r false) (default [] (prios !! k)) (outs k)) ->
  prios !! i = Some (pre ++ l :: post) ->
  Forall2 (answers r false) pre outsPre ->
  answers r true l ev ->
  exists w',
    triggerCommandListenersFrom r editor type [e] n w = Ok true w' /\
    trace w' =
      trace w ++ declinedEvents e type outs i n ++
      callbackEvents (EvCommandListener e type i) 0 (outsPre ++ [ev]) /\
    ambient w' = ambient w /\
    (forall e', editors w' e' = editors w e') /\
    (forall s, states w' s = states w s).
Proof.
  intros Hact Hcmd Hin Hdecl Hi Hpre Hl. revert w Hact Hcmd.
  induction n as [|n IH]; intros w Hact Hcmd.
  - assert (i = 0) as -> by lia.
    destruct (triggerCommandListenersAt_handled editor type 0 e [] prios pre l
                post outsPre ev w Hact Hcmd Hi Hpre Hl)
      as (w' & Hrun & Htr & Hrest).
    exists w'. rewrite triggerCommandListenersFrom_eq, bind_eq, Hrun.
    split; [done |]. split; [| exact Hrest].
    by rewrite Htr.
  - destruct (decide (i = S n)) as [->|Hne].
    + destruct (triggerCommandListenersAt_handled editor type (S n) e [] prios
                  pre l post outsPre ev w Hact Hcmd Hi Hpre Hl)
        as (w' & Hrun & Htr & Hrest).
      exists w'. rewrite triggerCommandListenersFrom_eq, bind_eq, Hrun.
      split; [done |]. split; [| exact Hrest].
      rewrite Htr. unfold declinedEvents.
      by replace (S n - S n) with 0 by lia.
    + destruct (triggerCommandListenersAt_declined editor type (S n) e []
                  prios (outs (S n)) w Hact Hcmd)
        as (w1 & Hrun & Htr1 & Hamb1 & Hed1 & Hst1); [apply Hdecl; lia |].
      destruct (IH ltac:(lia) ltac:(intros; apply Hdecl; lia) w1)
        as (w' & Hrun' & Htr' & Hamb' & Hed' & Hst').
      { unfold ambient in Hamb1. congruence. }
      { by rewrite Hed1. }
      exists w'. rewrite triggerCommandListenersFrom_eq, bind_eq, Hrun.
      cbn -[bind triggerCommandListenersFrom seq rev]. split; [exact Hrun' |].
      split.
      * rewrite Htr', Htr1. unfold declinedEvents.
        replace (S n - i) with (S (n - i)) by lia.
        rewrite seq_S, rev_app_distr. cbn [rev app map concat].
        replace (S i + (n - i)) with (S n) by lia.
        by rewrite <- !app_assoc.
      * split; [congruence |]. split; intros; [by rewrite Hed', Hed1 |].
        by rewrite Hst', Hst1.
Qed.

(** X20.  When every listener of every priority declines, the walk calls
    them all, from the highest priority down, and returns [false]. *)
Theorem command_declined_by_every_listener editor type e prios n outs w :
  activeEditor w = Some e ->
  _commands (editors w e) !! type = Some prios ->
  (forall k, k <= n ->
     Forall2 (answers r false) (default [] (prios !! k)) (outs k)) ->
  exists w',
    triggerCommandListenersFrom r editor type [e] n w = Ok false w' /\
    trace w' =
      trace w ++
      concat
        (map (fun k => callbackEvents (EvCommandListener e type k) 0 (outs k))
           (rev (seq 0 (S n)))) /\
    ambient w' = ambient w /\
    (forall e', editors w' e' = editors w e') /\
    (forall s, states w' s = states w s).
Proof.
  intros Hact Hcmd Hdecl. revert w Hact Hcmd.
  induction n as [|n IH]; intros w Hact Hcmd.
  - destruct (triggerCommandListenersAt_declined editor type 0 e []
                prios (outs 0) w Hact Hcmd)
      as (w1 & Hrun & Htr1 & Hrest); [apply Hdecl; lia |].
    exists w1. rewrite triggerCommandListenersFrom_eq, bind_eq, Hrun.
    split; [done |]. split; [| exact Hrest].
    rewrite Htr1. cbn. by rewrite app_nil_r.
  - destruct (triggerCommandListenersAt_declined editor type (S n) e []
                prios (outs (S n)) w Hact Hcmd)
      as (w1 & Hrun & Htr1 & Hamb1 & Hed1 & Hst1); [apply Hdecl; lia |].
    destruct (IH ltac:(intros; apply Hdecl; lia) w1)
      as (w' & Hrun' & Htr' & Hamb' & Hed' & Hst').
    { unfold ambient in Hamb1. congruence. }
    { by rewrite Hed1. }
    exists w'. rewrite triggerCommandListenersFrom_eq, bind_eq, Hrun.
    cbn -[bind triggerCommandListenersFrom seq rev]. split; [exact Hrun' |].
    split.
    + rewrite Htr', Htr1. rewrite (seq_S (S n)), rev_app_distr.
      cbn [rev app map concat Nat.add]. by rewrite <- !app_assoc.
    + split; [congruence |]. split; intros; [by rewrite Hed', Hed1 |].
      by rewrite Hst', Hst1.
Qed.
End Commands.

Lemma answers_emit ext k n :
  answers (knot ext (S k)) false (SEmit n) [EvEmit n].
Proof. intros w. reflexivity. Defined.

Lemma answers_emit_accept ext k n :
  answers (knot ext (S (S k))) true (SSeq (SEmit n) (SReturn true))
    [EvEmit n].
Proof. intros w. reflexivity. Defined.

Lemma command_without_listeners_is_not_handled_witness :
  triggerCommandListenersFrom (knot inertCollaborators 1) 0 9 [0] 4
    commandWorld = Ok false commandWorld.
Proof.
  apply (command_without_listeners_is_not_handled
           (knot inertCollaborators 1) 0 9 [0] 4 commandWorld).
  repeat constructor.
Defined.

Lemma command_goes_to_first_accepting_listener_witness :
  exists w',
    triggerCommandListenersFrom (knot inertCollaborators 2) 0 7 [0] 4
      commandWorld = Ok true w' /\
    trace w' =
      [EvCommandListener 0 7 4 0; EvEmit 5;
       EvCommandListener 0 7 2 0; EvEmit 2;
       EvCommandListener 0 7 2 1; EvEmit 3].
Proof.
  destruct (command_goes_to_first_accepting_listener
              (knot inertCollaborators 2) 0 7 0 commandListeners 2 4
              [SEmit 2] (SSeq (SEmit 3) (SReturn true)) [SEmit 4]
              (fun k => match k with 4 => [[EvEmit 5]] | _ => [] end)
              [[EvEmit 2]] [EvEmit 3] commandWorld)
    as (w' & Hrun & Htr & _).
  { reflexivity. }
  { reflexivity. }
  { lia. }
  { intros k Hk. assert (k = 3 \/ k = 4) as [-> | ->] by lia.
    - constructor.
    - repeat constructor; apply answers_emit. }
  { reflexivity. }
  { repeat constructor; apply answers_emit. }
  { apply answers_emit_accept. }
  exists w'. split; [exact Hrun | exact Htr].
Defined.

Lemma command_declined_by_every_listener_witness :
  exists w',
    triggerCommandListenersFrom (knot inertCollaborators 1) 0 8 [0] 4
      commandWorld = Ok false w' /\
    trace w' =
      [EvCommandListener 0 8 4 0; EvEmit 5;
       EvCommandListener 0 8 0 0; EvEmit 1].
Proof.
  destruct (command_declined_by_every_listener
              (knot inertCollaborators 1) 0 8 0
              [[SEmit 1]; []; []; []; [SEmit 5]] 4
              (fun k =>
                 match k with
                 | 0 => [[EvEmit 1]]
                 | 4 => [[EvEmit 5]]
                 | _ => []
                 end)
              commandWorld)
    as (w' & Hrun & Htr & _).
  { reflexivity. }
  { reflexivity. }
  { intros k Hk.
    assert (k = 0 \/ k = 1 \/ k = 2 \/ k = 3 \/ k = 4)
      as [-> | [-> | [-> | [-> | ->]]]] by lia;
      repeat constructor; apply answers_emit. }
  exists w'. split; [exact Hrun | exact Htr].
Defined.
(** ** Parsing *)

Section Parse.
Variable ext : Collaborators.
Variable r : Rec.




(** X22.  A serialized tree whose root has a type that the editor has not
    registered, and an error sink that returns: the failure goes to the
    error sink of the editor, once; the update function is not called; the
    call returns the new snapshot; and every editor, every older snapshot
    and the ambient context are as before the call. *)
Theorem parseEditorState_reports_unknown_type type key children editor
  updateFn w :
  sinkReturns ext r editor ->
  _nodes (editors w editor) !! type = None ->
  exists w',
    parseEditorState ext r (mkSerialized type key children) editor updateFn w
      = Ok (nextState w) w' /\
    trace w' = trace w ++ [EvOnError editor MsgTypeNotFound] /\
    ambient w' = ambient w /\
    (forall e, editors w' e = editors w e) /\
    (forall s, s < nextState w -> states w' s = states w s).
Proof.
  intros Hsink Hty. unfold parseEditorState. run.
  unfold tryFinally, tryCatch. run. rewrite Hty. run.
  sink Hsink. run.
  eexists. split; [reflexivity |]. project.
  split; [done |]. split; [done |]. split.
  - intros e. destruct (decide (e = editor)) as [->|Hne];
      [rewrite ?upd_same | rewrite !(upd_other _ _ _ _ Hne)]; [| done].
    cbn. by destruct (editors w editor).
  - intros s Hs. apply upd_other. lia.
Qed.
End Parse.

Lemma parseEditorState_reports_unknown_type_witness :
  exists w',
    parseEditorState inertCollaborators (knot inertCollaborators 1)
      (mkSerialized "ghost" "root" None) 0 (Some (SEmit 1))
      (newWorld 1 (fun id => newEditor id None true ∅)) = Ok 1 w' /\
    trace w' = [EvOnError 0 MsgTypeNotFound].
Proof.
  destruct (parseEditorState_reports_unknown_type inertCollaborators
              (knot inertCollaborators 1) "ghost" "root" None 0
              (Some (SEmit 1))
              (newWorld 1 (fun id => newEditor id None true ∅))
              (inert_sink 1 0 (le_n 1) 1 (le_n 1)) (lookup_empty _))
    as (w' & Hrun & Htr & _).
  exists w'. split; [exact Hrun | exact Htr].
Defined.
(** ** Resetting the editor, and a recovery that fails *)

(** X23.  [resetEditor] empties what the editor has rendered and what it
    tracks: the key-to-DOM bindings hold the new root element only, the
    pending snapshot is the one given, nothing is dirty, no update is
    queued, no observer is attached.  The dirty element map is emptied in
    place; the dirty leaf set, the update tags and the queue of updates are
    new objects (the old queue is left as it was).  The listeners, the
    commands, the registered nodes, the deferred callbacks and the ambient
    context are not touched, and the function never throws. *)
Theorem resetEditor_spec editor prevRootElement nextRootElement
  pendingEditorState w :
  exists w',
    resetEditor editor prevRootElement nextRootElement pendingEditorState w
      = Ok tt w' /\
    trace w' = trace w ++ [EvResetEditor editor] /\
    _keyToDOMMap (editors w' editor) =
      match nextRootElement with
      | Some el => {["root"%string := el]}
      | None => ∅
      end /\
    _pendingEditorState (editors w' editor) = Some pendingEditorState /\
    _compositionKey (editors w' editor) = None /\
    _dirtyType (editors w' editor) = NO_DIRTY_NODES /\
    _cloneNotNeeded (editors w' editor) = [] /\
    leafSets w' (_dirtyLeaves (editors w' editor)) = [] /\
    _dirtyElements (editors w' editor) = _dirtyElements (editors w editor) /\
    elementMaps w' (_dirtyElements (editors w' editor)) = [] /\
    _normalizedNodes (editors w' editor) = [] /\
    tagSets w' (_updateTags (editors w' editor)) = [] /\
    updateQueues w' (_updates (editors w' editor)) = [] /\
    (_updates (editors w editor) < nextRef w ->
     updateQueues w' (_updates (editors w editor)) =
       updateQueues w (_updates (editors w editor))) /\
    _blockCursorElement (editors w' editor) = None /\
    _observer (editors w' editor) = None /\
    _listeners (editors w' editor) = _listeners (editors w editor) /\
    _commands (editors w' editor) = _commands (editors w editor) /\
    _nodes (editors w' editor) = _nodes (editors w editor) /\
    _deferred (editors w' editor) = _deferred (editors w editor) /\
    deferredArrays w' = deferredArrays w /\
    _updating (editors w' editor) = _updating (editors w editor) /\
    _rootElement (editors w' editor) = _rootElement (editors w editor) /\
    ambient w' = ambient w.
Proof.
  unfold resetEditor. run.
  destruct nextRootElement as [el|]; run.
  all: eexists; split; [reflexivity |].
  all: repeat split; try (project; cbn; rewrite ?upd_same; done).
  all: try (intros Hlt; project; apply upd_other; lia).
  all: project; cbn; by rewrite ?insert_empty.
Qed.


(** ** Callbacks that throw, and decorators *)

Section Throwing.
Variable r : Rec.

Lemma callbacks_throw mark pre bad post outs evs t :
  Forall2 (logsOnly r) pre outs ->
  throwsAfter r bad evs t ->
  forall i w,
    forEachIndexed i (pre ++ bad :: post)
      (fun i callback => emit (mark i) >> rec_script r callback >> ret tt) w
    = Throw t
        (set_trace
           (trace w ++ callbackEvents mark i outs ++
            mark (i + length pre) :: evs) w).
Proof.
  intros Hpre Hbad.
  induction Hpre as [|s evs0 pre outs Hs _ IH]; intros i w; cbn -[bind].
  - run. rewrite Hbad. project. rewrite set_trace_twice, Nat.add_0_r.
    by rewrite <- !app_assoc.
  - run. destruct (Hs (set_trace (trace w ++ [mark i]) w)) as [b ->]. run.
    rewrite IH. project. rewrite !set_trace_twice.
    replace (S i + length pre) with (i + S (length pre)) by lia.
    by rewrite <- !app_assoc.
Qed.

Lemma triggerListeners_throws type editor flag pre bad post outs
  evs t w :
  listeners_of type (_listeners (editors w editor)) = pre ++ bad :: post ->
  Forall2 (logsOnly r) pre outs ->
  throwsAfter r bad evs t ->
  exists w',
    triggerListeners r type editor flag w = Throw t w' /\
    trace w' =
      trace w ++ callbackEvents (EvListener type editor) 0 outs ++
      EvListener type editor (length pre) :: evs /\
    sameButTrace w w'.
Proof.
  intros Hls Hpre Hbad. unfold triggerListeners. run. unfold tryFinally. run.
  rewrite Hls, (callbacks_throw (EvListener type editor) _ _ _ _ _ _ Hpre Hbad).
  eexists. split; [reflexivity |]. split; [project; reflexivity |].
  split; try (intros; project; reflexivity); try (project; reflexivity).
  intros e. project.
  destruct (decide (e = editor)) as [->|Hne];
    [rewrite ?upd_same | by rewrite !(upd_other _ _ _ _ Hne)].
  by destruct (editors w editor).
Qed.

(** X25.  A listener that throws ends [triggerListeners]: the listeners
    registered after it are not called, what it threw goes to the caller,
    and [editor._updating] is as before the call. *)
Theorem throwing_listener_stops_the_rest type editor flag pre bad post outs
  evs t w :
  listeners_of type (_listeners (editors w editor)) = pre ++ bad :: post ->
  Forall2 (logsOnly r) pre outs ->
  throwsAfter r bad evs t ->
  exists w',
    triggerListeners r type editor flag w = Throw t w' /\
    trace w' =
      trace w ++ callbackEvents (EvListener type editor) 0 outs ++
      EvListener type editor (length pre) :: evs /\
    sameButTrace w w'.
Proof.
  exact (triggerListeners_throws type editor flag pre bad post outs evs t w).
Qed.

(** X26.  A deferred callback that throws ends
    [triggerDeferredUpdateCallbacks]: what it threw goes to the caller, and
    the callbacks pushed after it are lost: they are not called, and the
    editor has its new, empty array of deferred callbacks already. *)
Theorem throwing_deferred_callback_loses_the_rest editor deferred pre bad post
  outs evs t w :
  deferred < nextRef w ->
  deferredArrays w deferred = pre ++ bad :: post ->
  Forall2 (logsOnly r) pre outs ->
  throwsAfter r bad evs t ->
  exists w',
    triggerDeferredUpdateCallbacks r editor deferred w = Throw t w' /\
    trace w' =
      trace w ++ callbackEvents (EvDeferred editor) 0 outs ++
      EvDeferred editor (length pre) :: evs /\
    deferredArrays w' (_deferred (editors w' editor)) = [] /\
    sameButTrace (withFreshDeferred editor w) w'.
Proof.
  intros Hlt Hls Hpre Hbad. unfold triggerDeferredUpdateCallbacks. run.
  rewrite (upd_other _ _ _ _ (Nat.lt_neq _ _ Hlt)), Hls.
  rewrite length_app. cbn [length].
  replace (length pre + S (length post)) with (S (length pre + length post))
    by lia.
  run. unfold tryFinally. run.
  rewrite (callbacks_throw (EvDeferred editor) _ _ _ _ _ _ Hpre Hbad).
  eexists. split; [reflexivity |]. split; [project; reflexivity |].
  split; [project; cbn; by rewrite ?upd_same |].
  unfold withFreshDeferred.
  split; try (intros; project; reflexivity); try (project; reflexivity).
  intros e. project.
  destruct (decide (e = editor)) as [->|Hne];
    [rewrite ?upd_same | by rewrite !(upd_other _ _ _ _ Hne)].
  by destruct (editors w editor).
Qed.
End Throwing.

Section NotifyMore.
Variable ext : Collaborators.
Variable r : Rec.

Lemma commitNotify_start editor rc cur pen currentSelection pendingSelection
  mutatedNodes deferred outsM w :
  Forall2 (fun entry evs => logsOnly r entry.1 evs)
    (mutation (_listeners (editors w editor))) outsM ->
  selectionChanged currentSelection pendingSelection = false ->
  exists w1,
    commitNotify ext r editor rc cur pen currentSelection pendingSelection
      mutatedNodes deferred w =
      (match _pendingDecorators (editors w editor) with
       | Some pendingDecorators =>
           modifyEditor editor (set_decorators pendingDecorators) >>
           modifyEditor editor (set_pendingDecorators None) >>
           triggerListeners r LDecorator editor true
       | None => ret tt
       end >>
       triggerTextContentListeners ext r editor (default cur rc) pen >>
       triggerListeners r LUpdate editor true >>
       triggerDeferredUpdateCallbacks r editor deferred >>
       triggerEnqueuedUpdates r editor) w1 /\
    trace w1 =
      trace w ++
      match mutatedNodes with
      | Some m =>
          mutationEvents editor m 0
            (mutation (_listeners (editors w editor))).*2 outsM
      | None => []
      end /\
    sameButTrace w w1.
Proof.
  intros HM Hsel. unfold commitNotify.
  rewrite bind_eq.
  assert (exists w1,
            match mutatedNodes with
            | Some m => triggerMutationListeners r editor m
            | None => ret tt
            end w = Ok tt w1 /\
            trace w1 =
              trace w ++
              match mutatedNodes with
              | Some m =>
                  mutationEvents editor m 0
                    (mutation (_listeners (editors w editor))).*2 outsM
              | None => []
              end /\
            sameButTrace w w1) as (w1 & -> & Htr1 & H1).
  { destruct mutatedNodes as [m|].
    - rewrite (triggerMutationListeners_calls r editor m outsM w HM).
      eexists. split; [reflexivity |]. split; [done |].
      apply sameButTrace_set_trace.
    - exists w. rewrite app_nil_r. split; [done |]. split; [done |].
      apply sameButTrace_refl. }
  rewrite bind_eq.
  assert (match pendingSelection with
          | Some p =>
              if negb (isRangeSelection pendingSelection)
                 && match currentSelection with
                    | None => true
                    | Some c => negb (selection_is c p)
                    end
              then dispatchCommand r editor SELECTION_CHANGE_COMMAND >> ret tt
              else ret tt
          | None => ret tt
          end w1 = Ok tt w1) as ->.
  { unfold selectionChanged in Hsel. destruct pendingSelection; [| done].
    by rewrite Hsel. }
  exists w1. split; [| by split].
  rewrite bind_eq. cbn [getEditor]. by rewrite (sbt_editors _ _ H1).
Qed.

(** X27.  An update listener that throws, in a commit without pending
    decorators and without selection-change command (the pending selection
    is null, a range selection, or the current selection), whose mutation
    listeners, text content listeners and earlier update listeners only
    log: the notifications of the commit end there with what the listener
    threw (having only logged before); the update listeners
    registered after it are not called, the deferred callbacks of the
    cycle are not called, and they stay in the editor's array of deferred
    callbacks. *)
Theorem throwing_update_listener_keeps_deferred editor rc cur pen
  currentSelection pendingSelection mutatedNodes deferred pre bad post
  outsM outsT outsU evs t w :
  _pendingDecorators (editors w editor) = None ->
  Forall2 (fun entry evs => logsOnly r entry.1 evs)
    (mutation (_listeners (editors w editor))) outsM ->
  Forall2 (logsOnly r) (textcontent (_listeners (editors w editor))) outsT ->
  update (_listeners (editors w editor)) = pre ++ bad :: post ->
  Forall2 (logsOnly r) pre outsU ->
  throwsAfter r bad evs t ->
  selectionChanged currentSelection pendingSelection = false ->
  exists w',
    commitNotify ext r editor rc cur pen currentSelection pendingSelection
      mutatedNodes deferred w = Throw t w' /\
    trace w' =
      trace w ++
      notificationEvents ext w editor (default cur rc) pen mutatedNodes
        outsM outsT outsU [] ++
      EvListener LUpdate editor (length pre) :: evs /\
    sameButTrace w w'.
Proof.
  intros Hdec HM HT HU Hpre Hbad Hsel.
  destruct (commitNotify_start editor rc cur pen currentSelection
              pendingSelection mutatedNodes deferred outsM w HM Hsel)
    as (w1 & -> & Htr1 & H1).
  rewrite Hdec. rewrite bind_eq. cbn [ret]. rewrite bind_eq.
  destruct (triggerTextContentListeners_calls ext r editor
              (default cur rc) pen outsT w1) as (w2 & -> & Htr2 & H2).
  { by rewrite (sbt_editors _ _ H1). }
  rewrite bind_eq.
  pose proof (sameButTrace_trans _ _ _ H1 H2) as H12.
  destruct (triggerListeners_throws r LUpdate editor true pre bad post outsU
              evs t w2) as (w3 & -> & Htr3 & H3).
  { by rewrite (sbt_editors _ _ H12). }
  { exact Hpre. }
  { exact Hbad. }
  exists w3. split; [done |].
  split; [| exact (sameButTrace_trans _ _ _ H12 H3)].
  rewrite Htr3, Htr2, Htr1. unfold notificationEvents.
  rewrite !(sbt_states _ _ H1). cbn [callbackEvents].
  by rewrite app_nil_r, <- !app_assoc.
Qed.

(** X28.  When the commit finds pending decorators, they become the
    decorators of the editor, nothing stays pending, and the decorator
    listeners are called after the mutation listeners and before the text
    content listeners. *)
Theorem commit_publishes_pending_decorators editor rc cur pen currentSelection
  pendingSelection mutatedNodes deferred d outsM outsDec outsT outsU outsD w :
  _pendingDecorators (editors w editor) = Some d ->
  Forall2 (fun entry evs => logsOnly r entry.1 evs)
    (mutation (_listeners (editors w editor))) outsM ->
  Forall2 (logsOnly r) (decorator (_listeners (editors w editor))) outsDec ->
  Forall2 (logsOnly r) (textcontent (_listeners (editors w editor))) outsT ->
  Forall2 (logsOnly r) (update (_listeners (editors w editor))) outsU ->
  deferred < nextRef w ->
  Forall2 (logsOnly r) (deferredArrays w deferred) outsD ->
  updateQueues w (_updates (editors w editor)) = [] ->
  selectionChanged currentSelection pendingSelection = false ->
  exists w',
    commitNotify ext r editor rc cur pen currentSelection pendingSelection
      mutatedNodes deferred w = Ok tt w' /\
    trace w' =
      trace w ++
      match mutatedNodes with
      | Some m =>
          mutationEvents editor m 0
            (mutation (_listeners (editors w editor))).*2 outsM
      | None => []
      end ++
      callbackEvents (EvListener LDecorator editor) 0 outsDec ++
      notificationEvents ext w editor (default cur rc) pen None
        outsM outsT outsU outsD /\
    _decorators (editors w' editor) = d /\
    _pendingDecorators (editors w' editor) = None /\
    sameButTrace (withFreshDeferred editor (decorated editor d w)) w'.
Proof.
  intros Hdec HM HDec HT HU Hlt HD Hq Hsel.
  destruct (commitNotify_start editor rc cur pen currentSelection
              pendingSelection mutatedNodes deferred outsM w HM Hsel)
    as (w1 & -> & Htr1 & H1).
  rewrite Hdec. rewrite bind_eq.
  assert (sameButTrace (decorated editor d w) (decorated editor d w1)) as H1d.
  { unfold decorated.
    split; try (intros; project; apply H1); try (project; apply H1).
    intros e. project.
    destruct (decide (e = editor)) as [->|Hne];
      [rewrite ?upd_same | rewrite !(upd_other _ _ _ _ Hne)];
      by rewrite ?(sbt_editors _ _ H1). }
  assert (forall W : World, 
            (modifyEditor editor (set_decorators d) >>
             modifyEditor editor (set_pendingDecorators None) >>
             triggerListeners r LDecorator editor true) W =
            triggerListeners r LDecorator editor true (decorated editor d W))
    as Hstep by reflexivity.
  rewrite Hstep.
  assert (forall W, editors (decorated editor d W) editor =
            set_pendingDecorators None (set_decorators d (editors W editor)))
    as Hed.
  { intros W. unfold decorated. project. by rewrite ?upd_same. }
  destruct (triggerListeners_calls r LDecorator editor true outsDec
              (decorated editor d w1)) as (w2 & -> & Htr2 & H2).
  { rewrite Hed, (sbt_editors _ _ H1). exact HDec. }
  pose proof (sameButTrace_trans _ _ _ H1d H2) as H02.
  rewrite bind_eq.
  destruct (triggerTextContentListeners_calls ext r editor
              (default cur rc) pen outsT w2) as (w3 & -> & Htr3 & H3).
  { rewrite (sbt_editors _ _ H02), Hed. exact HT. }
  pose proof (sameButTrace_trans _ _ _ H02 H3) as H03.
  rewrite bind_eq.
  destruct (triggerListeners_calls r LUpdate editor true outsU w3)
    as (w4 & -> & Htr4 & H4).
  { rewrite (sbt_editors _ _ H03), Hed. exact HU. }
  pose proof (sameButTrace_trans _ _ _ H03 H4) as H04.
  rewrite bind_eq.
  destruct (triggerDeferredUpdateCallbacks_calls r editor deferred outsD w4)
    as (w5 & -> & Htr5 & Hfresh & Hold & H5).
  { pose proof (sbt_next _ _ H04) as Hn. injection Hn as _ -> _. done. }
  { rewrite (sbt_deferredArrays _ _ H04). exact HD. }
  pose proof (sameButTrace_trans _ _ _
                (sameButTrace_withFreshDeferred editor _ _ H04) H5) as H05.
  rewrite triggerEnqueuedUpdates_idle.
  - exists w5. split; [done |]. split; [| split; [| split; [| exact H05]]].
    + rewrite Htr5, Htr4, Htr3, Htr2. unfold notificationEvents.
      rewrite !(sbt_states _ _ H02).
      replace (trace (decorated editor d w1)) with (trace w1) by done.
      rewrite Htr1. cbn [app]. by rewrite <- !app_assoc.
    + rewrite (sbt_editors _ _ H05). unfold withFreshDeferred. project.
      rewrite Hed. done.
    + rewrite (sbt_editors _ _ H05). unfold withFreshDeferred. project.
      rewrite Hed. done.
  - rewrite (sbt_updateQueues _ _ H05), (sbt_editors _ _ H05).
    unfold withFreshDeferred. project. rewrite Hed. cbn. exact Hq.
Qed.
End NotifyMore.

Lemma throwsAfter_emit ext k n t :
  throwsAfter (knot ext (S (S k))) (SSeq (SEmit n) (SThrow t)) [EvEmit n] t.
Proof. intros w. reflexivity. Defined.

Lemma throwing_listener_stops_the_rest_witness :
  exists w',
    triggerListeners (knot inertCollaborators 2) LUpdate 0 true faultyWorld
      = Throw (NonError 7) w' /\
    trace w' =
      [EvListener LUpdate 0 0; EvEmit 1; EvListener LUpdate 0 1; EvEmit 2].
Proof.
  destruct (throwing_listener_stops_the_rest (knot inertCollaborators 2)
              LUpdate 0 true [SEmit 1] (SSeq (SEmit 2) (SThrow (NonError 7)))
              [SEmit 4] [[EvEmit 1]] [EvEmit 2] (NonError 7) faultyWorld)
    as (w' & Hrun & Htr & _).
  { reflexivity. }
  { repeat constructor; apply logsOnly_emit. }
  { apply throwsAfter_emit. }
  exists w'. split; [exact Hrun | exact Htr].
Defined.

Lemma throwing_deferred_callback_loses_the_rest_witness :
  exists w',
    triggerDeferredUpdateCallbacks (knot inertCollaborators 2) 0 0 faultyWorld
      = Throw (NonError 7) w' /\
    trace w' = [EvDeferred 0 0; EvEmit 6; EvDeferred 0 1; EvEmit 7] /\
    deferredArrays w' (_deferred (editors w' 0)) = [].
Proof.
  destruct (throwing_deferred_callback_loses_the_rest
              (knot inertCollaborators 2) 0 0 [SEmit 6]
              (SSeq (SEmit 7) (SThrow (NonError 7))) [SEmit 8] [[EvEmit 6]]
              [EvEmit 7] (NonError 7) faultyWorld)
    as (w' & Hrun & Htr & Hfresh & _).
  { vm_compute. lia. }
  { reflexivity. }
  { repeat constructor; apply logsOnly_emit. }
  { apply throwsAfter_emit. }
  exists w'. split; [exact Hrun |]. split; [exact Htr | exact Hfresh].
Defined.

Lemma throwing_update_listener_keeps_deferred_witness :
  exists w',
    commitNotify textCollaborators (knot textCollaborators 2) 0 None 0 1
      None None None 0 faultyWorld = Throw (NonError 7) w' /\
    trace w' =
      [EvListener LTextContent 0 0; EvEmit 3;
       EvListener LUpdate 0 0; EvEmit 1; EvListener LUpdate 0 1; EvEmit 2] /\
    deferredArrays w' (_deferred (editors w' 0)) =
      [SEmit 6; SSeq (SEmit 7) (SThrow (NonError 7)); SEmit 8].
Proof.
  destruct (throwing_update_listener_keeps_deferred textCollaborators
              (knot textCollaborators 2) 0 None 0 1 None None None 0
              [SEmit 1] (SSeq (SEmit 2) (SThrow (NonError 7))) [SEmit 4]
              [] [[EvEmit 3]] [[EvEmit 1]] [EvEmit 2] (NonError 7)
              faultyWorld)
    as (w' & Hrun & Htr & Hsame).
  { reflexivity. }
  { constructor. }
  { repeat constructor; apply logsOnly_emit. }
  { reflexivity. }
  { repeat constructor; apply logsOnly_emit. }
  { apply throwsAfter_emit. }
  { reflexivity. }
  exists w'. split; [exact Hrun |]. split; [exact Htr |].
  rewrite (sbt_editors _ _ Hsame), (sbt_deferredArrays _ _ Hsame).
  reflexivity.
Defined.

Lemma commit_publishes_pending_decorators_witness :
  exists w',
    commitNotify textCollaborators (knot textCollaborators 1) 0 None 0 1
      None None None 0 decoratingWorld = Ok tt w' /\
    trace w' =
      [EvListener LDecorator 0 0; EvEmit 9;
       EvListener LTextContent 0 0; EvEmit 3;
       EvListener LUpdate 0 0; EvEmit 1; EvListener LUpdate 0 1; EvEmit 2;
       EvDeferred 0 0; EvEmit 6] /\
    _decorators (editors w' 0) = 3 /\
    _pendingDecorators (editors w' 0) = None.
Proof.
  destruct (commit_publishes_pending_decorators textCollaborators
              (knot textCollaborators 1) 0 None 0 1 None None None 0 3
              [] [[EvEmit 9]] [[EvEmit 3]] [[EvEmit 1]; [EvEmit 2]]
              [[EvEmit 6]] decoratingWorld)
    as (w' & Hrun & Htr & Hd & Hp & _).
  { reflexivity. }
  { constructor. }
  { repeat constructor; apply logsOnly_emit. }
  { repeat constructor; apply logsOnly_emit. }
  { repeat constructor; apply logsOnly_emit. }
  { vm_compute. lia. }
  { repeat constructor; apply logsOnly_emit. }
  { reflexivity. }
  { reflexivity. }
  exists w'. split; [exact Hrun |]. split; [exact Htr |].
  split; [exact Hd | exact Hp].
Defined.
